(** * AHRSComms: the flight controller's link to the AHRS coprocessor

    A shallow embedding of [flight/OpenPilot/Modules/AHRSComms/ahrs_comms.c].

    - The module's file-scope variables and the UAVObjects it reads and
      writes are the fields of one record that every function threads.
    - [ahrscommsTask] never returns; it is cut at its three blocking points
      (the resync spin, the serial-number query, one streaming period), and
      the answers of the transport ([PIOS_OPAHRS_*], not part of the module)
      are the inputs of each step.
    - [float] is IEEE-754 binary32, computed with the bit-exact operations of
      [SpecFloat]; the real numbers appear only in the statements, as what
      the computed values are compared with.
    - An automatic variable that the source declares without initialising it
      holds whatever its stack slot held: such a buffer is an input. *)

From Stdlib Require Import ZArith List Bool Lia.
From Stdlib Require Import Qreals.
From Stdlib Require Import Reals Lra.
From Stdlib Require Import QArith Qpower.
From Stdlib Require Import Floats.SpecFloat.
Import ListNotations.

Local Open Scope Z_scope.

(** ** Machine integers *)

(** [uint16_t] increment, as [x++] computes it. *)
Definition incr16 (x : Z) : Z := (x + 1) mod 65536.

(** [uint32_t] increment. *)
Definition incr32 (x : Z) : Z := (x + 1) mod 4294967296.

(** A C array of three elements. *)
Record Array3 (A : Type) : Type := mkArray3 { elt0 : A; elt1 : A; elt2 : A }.
Arguments mkArray3 {A} _ _ _.
Arguments elt0 {A} _.
Arguments elt1 {A} _.
Arguments elt2 {A} _.

(** ** Arithmetic *)

(** The operations the numeric code of the module uses on [float]. *)
Class Arith (F : Type) : Type := {
  of_int : Z -> F;
  add : F -> F -> F;
  sub : F -> F -> F;
  mul : F -> F -> F;
  div : F -> F -> F;
  sqrt_float : F -> F;
  eqb : F -> F -> bool;
  ltb : F -> F -> bool
}.

(** *** binary32 *)

(** The C type [float]. *)
Definition float : Type := spec_float.

Module Binary32.

Definition prec : Z := 24.
Definition emax : Z := 128.

(** The value is a binary32 number in its canonical representation. *)
Definition valid (x : float) : bool := valid_binary prec emax x.



(** m * 2^e, rounded to nearest even. *)
Definition scaled (m e : Z) : float := binary_normalize prec emax m e false.

(** An [int] converted to [float]. *)
Definition of_Z (n : Z) : float := scaled n 0.

(** Promotion to [double] (exact). *)
Definition to_double (x : float) : spec_float :=
  match x with
  | S754_finite s m e => binary_normalize 53 1024 (cond_Zopp s (Zpos m)) e s
  | _ => x
  end.

(** Conversion of a [double] to [float] (one rounding). *)
Definition of_double (x : spec_float) : float :=
  match x with
  | S754_finite s m e => binary_normalize prec emax (cond_Zopp s (Zpos m)) e s
  | _ => x
  end.

(** [float len = sqrt(x)] with [x] a [float]: [sqrt] of math.h takes and
    returns a [double]. *)
Definition sqrt_via_double (x : float) : float :=
  of_double (SFsqrt 53 1024 (to_double x)).

End Binary32.

#[export] Instance Arith_binary32 : Arith float := {
  of_int := Binary32.of_Z;
  add := SFadd Binary32.prec Binary32.emax;
  sub := SFsub Binary32.prec Binary32.emax;
  mul := SFmul Binary32.prec Binary32.emax;
  div := SFdiv Binary32.prec Binary32.emax;
  sqrt_float := Binary32.sqrt_via_double;
  eqb := SFeqb;
  ltb := SFltb
}.

(** ** The wire protocol (pios_opahrs_proto.h)

    The header is not part of the module; the messages have the fields
    the module reads and writes. *)

Inductive opahrs_result : Type :=
  | OPAHRS_RESULT_OK
  | OPAHRS_RESULT_TIMEOUT
  | OPAHRS_RESULT_FAILED.

Definition result_ok (r : opahrs_result) : bool :=
  match r with
  | OPAHRS_RESULT_OK => true
  | _ => false
  end.

Inductive measure_mode : Type := AHRS_SET | AHRS_MEASURE | AHRS_ECHO.

Definition measure_mode_eqb (a b : measure_mode) : bool :=
  match a, b with
  | AHRS_SET, AHRS_SET | AHRS_MEASURE, AHRS_MEASURE | AHRS_ECHO, AHRS_ECHO => true
  | _, _ => false
  end.

Inductive ahrs_algorithm : Type := SIMPLE_Algo | INSGPS_Algo.

Module req_north.
Record t : Type := mk { Be : Array3 float }.
End req_north.

Module req_calibration.
Record t : Type := mk {
  measure_var : measure_mode;
  accel_bias : Array3 float;
  accel_scale : Array3 float;
  accel_var : Array3 float;
  gyro_bias : Array3 float;
  gyro_scale : Array3 float;
  gyro_var : Array3 float;
  mag_bias : Array3 float;
  mag_var : Array3 float
}.
End req_calibration.

Module rsp_calibration.
Record t : Type := mk {
  measure_var : measure_mode;
  accel_var : Array3 float;
  gyro_var : Array3 float;
  mag_var : Array3 float
}.
End rsp_calibration.

Module req_algorithm.
Record t : Type := mk { algorithm : ahrs_algorithm }.
End req_algorithm.

Module req_update.
Record barometer_t : Type := mk_barometer {
  baro_updated : Z;
  altitude : float
}.
Record gps_t : Type := mk_gps {
  gps_updated : Z;
  NED : Array3 float;
  groundspeed : float;
  heading : float;
  quality : Z
}.
Record t : Type := mk { barometer : barometer_t; gps : gps_t }.
End req_update.

Module rsp_update.
Record quaternion_t : Type := mk_quaternion { q1 : float; q2 : float; q3 : float; q4 : float }.
Record t : Type := mk {
  quaternion : quaternion_t;
  NED : Array3 float;
  Vel : Array3 float;
  load : Z;
  idle_time : Z;
  run_time : Z;
  dropped_updates : Z
}.
End rsp_update.

Module rsp_attituderaw.
Record axes : Type := mk_axes { x : Z; y : Z; z : Z }.
Record gyros_t : Type := mk_gyros { gx : Z; gy : Z; gz : Z; xy_temp : Z; z_temp : Z }.
Record faxes : Type := mk_faxes { fx : float; fy : float; fz : float }.
Record t : Type := mk {
  mags : axes;
  gyros : gyros_t;
  gyros_filtered : faxes;
  accels : axes;
  accels_filtered : faxes
}.
End rsp_attituderaw.

Module rsp_serial.
Record t : Type := mk { serial_bcd : list Z }.
End rsp_serial.

(** What the module hands to the transport, in the order it does. *)
Inductive exchange : Type :=
  | SetMagNorth (req : req_north.t)
  | SetGetCalibration (req : req_calibration.t)
  | SetAlgorithm (req : req_algorithm.t)
  | GetAttitudeRaw
  | SetGetUpdate (req : req_update.t).

(** The five categories of [CommErrors]. *)
Inductive category : Type :=
  | COMMERRORS_UPDATE
  | COMMERRORS_ATTITUDERAW
  | COMMERRORS_HOMELOCATION
  | COMMERRORS_CALIBRATION
  | COMMERRORS_ALGORITHM.

Definition category_eqb (a b : category) : bool :=
  match a, b with
  | COMMERRORS_UPDATE, COMMERRORS_UPDATE
  | COMMERRORS_ATTITUDERAW, COMMERRORS_ATTITUDERAW
  | COMMERRORS_HOMELOCATION, COMMERRORS_HOMELOCATION
  | COMMERRORS_CALIBRATION, COMMERRORS_CALIBRATION
  | COMMERRORS_ALGORITHM, COMMERRORS_ALGORITHM => true
  | _, _ => false
  end.

Definition category_of (x : exchange) : category :=
  match x with
  | SetMagNorth _ => COMMERRORS_HOMELOCATION
  | SetGetCalibration _ => COMMERRORS_CALIBRATION
  | SetAlgorithm _ => COMMERRORS_ALGORITHM
  | GetAttitudeRaw => COMMERRORS_ATTITUDERAW
  | SetGetUpdate _ => COMMERRORS_UPDATE
  end.

(** ** UAVObjects

    The generated headers (ahrsstatus.h, ahrssettings.h, ...) are not part
    of the module.  An enumerated field is stored as a [uint8_t]; the
    records have the fields the module accesses. *)

(** Modelled from the spec: the enumerators of the absent generated
    headers.  The generator numbers the options of a field from 0 in the
    order of the object definition, FALSE before TRUE; the spec describes
    the assignment of [AHRSSTATUS_CALIBRATIONSET_FALSE] to [AlgorithmSet]
    as a reset to false. *)
Definition AHRSSTATUS_HOMESET_FALSE : Z := 0.
Definition AHRSSTATUS_HOMESET_TRUE : Z := 1.
Definition AHRSSTATUS_CALIBRATIONSET_FALSE : Z := 0.
Definition AHRSSTATUS_CALIBRATIONSET_TRUE : Z := 1.
Definition AHRSSTATUS_ALGORITHMSET_FALSE : Z := 0.
Definition AHRSSTATUS_ALGORITHMSET_TRUE : Z := 1.
Definition AHRSSETTINGS_ALGORITHM_SIMPLE : Z := 0.
Definition AHRSSETTINGS_ALGORITHM_INSGPS : Z := 1.
Definition AHRSCALIBRATION_MEASURE_VAR_SET : Z := 0.
Definition AHRSCALIBRATION_MEASURE_VAR_MEASURE : Z := 1.
Definition HOMELOCATION_SET_FALSE : Z := 0.
Definition HOMELOCATION_SET_TRUE : Z := 1.
Definition HOMELOCATION_INDOOR_FALSE : Z := 0.
Definition HOMELOCATION_INDOOR_TRUE : Z := 1.
Definition TRUE : Z := 1.

Inductive alarm_severity : Type := SYSTEMALARMS_ALARM_OK | SYSTEMALARMS_ALARM_CRITICAL.

Module AhrsStatus.
Record CommErrors_t : Type := mkCommErrors {
  Update : Z;
  AttitudeRaw : Z;
  HomeLocation : Z;
  Calibration : Z;
  Algorithm : Z
}.
Record Data : Type := mk {
  SerialNumber : list Z;
  CPULoad : Z;
  IdleTimePerCyle : Z;
  RunningTimePerCyle : Z;
  DroppedUpdates : Z;
  CommErrors : CommErrors_t;
  HomeSet : Z;
  CalibrationSet : Z;
  AlgorithmSet : Z
}.
Definition set_HomeSet (v : Z) (d : Data) : Data :=
  mk (SerialNumber d) (CPULoad d) (IdleTimePerCyle d) (RunningTimePerCyle d)
     (DroppedUpdates d) (CommErrors d) v (CalibrationSet d) (AlgorithmSet d).
Definition set_CalibrationSet (v : Z) (d : Data) : Data :=
  mk (SerialNumber d) (CPULoad d) (IdleTimePerCyle d) (RunningTimePerCyle d)
     (DroppedUpdates d) (CommErrors d) (HomeSet d) v (AlgorithmSet d).
Definition set_AlgorithmSet (v : Z) (d : Data) : Data :=
  mk (SerialNumber d) (CPULoad d) (IdleTimePerCyle d) (RunningTimePerCyle d)
     (DroppedUpdates d) (CommErrors d) (HomeSet d) (CalibrationSet d) v.
End AhrsStatus.

Module AHRSSettings.
Record Data : Type := mk {
  Algorithm : Z;
  UpdateRaw : Z;
  UpdateFiltered : Z;
  UpdatePeriod : Z
}.
End AHRSSettings.

Module AHRSCalibration.
(** Modelled from the spec: the record is 27 floats, nine three-axis
    vectors; [mag_scale], which the module never reads, is the ninth. *)
Record Data : Type := mk {
  measure_var : Z;
  accel_bias : Array3 float;
  accel_scale : Array3 float;
  accel_var : Array3 float;
  gyro_bias : Array3 float;
  gyro_scale : Array3 float;
  gyro_var : Array3 float;
  mag_bias : Array3 float;
  mag_scale : Array3 float;
  mag_var : Array3 float
}.
End AHRSCalibration.

Module HomeLocation.
Record Data : Type := mk {
  Set_ : Z;
  Indoor : Z;
  Be : Array3 float;
  ECEF : Array3 Z;
  RNE : list float
}.
End HomeLocation.

Module GPSPosition.
Record Data : Type := mk {
  Latitude : Z;
  Longitude : Z;
  Altitude : float;
  GeoidSeparation : float;
  Heading : float;
  Groundspeed : float;
  Satellites : Z;
  PDOP : float
}.
End GPSPosition.

Module BaroAltitude.
Record Data : Type := mk { Altitude : float }.
End BaroAltitude.

Module AttitudeSettings.
Record Data : Type := mk { RollBias : float; PitchBias : float }.
End AttitudeSettings.

Module AttitudeActual.
Record Data : Type := mk {
  q1 : float; q2 : float; q3 : float; q4 : float;
  Roll : float; Pitch : float; Yaw : float
}.
End AttitudeActual.

Module AttitudeRaw.
Record Data : Type := mk {
  magnetometers : Array3 Z;
  gyros : Array3 Z;
  gyros_filtered : Array3 float;
  gyrotemp : Z * Z;
  accels : Array3 Z;
  accels_filtered : Array3 float
}.
End AttitudeRaw.

Module PositionActual.
Record Data : Type := mk { NED : Array3 float; Vel : Array3 float }.
End PositionActual.

(** ** The state of the module

    The file-scope variables of ahrs_comms.c, then the objects and the
    alarm it shares with the rest of the firmware. *)
Record AHRSComms : Type := mkAHRSComms {
  AHRSSettingsIsUpdatedFlag : bool;
  BaroAltitudeIsUpdatedFlag : bool;
  GPSPositionIsUpdatedFlag : bool;
  HomeLocationIsUpdatedFlag : bool;
  AHRSCalibrationIsUpdatedFlag : bool;
  AHRSCalibrationIsLocallyUpdateFlag : bool;
  GPSGoodUpdates : Z;
  update_errors : Z;
  attituderaw_errors : Z;
  home_errors : Z;
  calibration_errors : Z;
  algorithm_errors : Z;
  obj_AhrsStatus : AhrsStatus.Data;
  obj_AHRSSettings : AHRSSettings.Data;
  obj_AHRSCalibration : AHRSCalibration.Data;
  obj_HomeLocation : HomeLocation.Data;
  obj_GPSPosition : GPSPosition.Data;
  obj_BaroAltitude : BaroAltitude.Data;
  obj_AttitudeSettings : AttitudeSettings.Data;
  obj_AttitudeActual : AttitudeActual.Data;
  obj_AttitudeRaw : AttitudeRaw.Data;
  obj_PositionActual : PositionActual.Data;
  alarm_AHRSCOMMS : alarm_severity
}.

(** Assignment to one variable of the module. *)
Definition set_AHRSSettingsIsUpdatedFlag (v : bool) (s : AHRSComms) : AHRSComms :=
  mkAHRSComms v (BaroAltitudeIsUpdatedFlag s) (GPSPositionIsUpdatedFlag s)
    (HomeLocationIsUpdatedFlag s) (AHRSCalibrationIsUpdatedFlag s)
    (AHRSCalibrationIsLocallyUpdateFlag s) (GPSGoodUpdates s)
    (update_errors s) (attituderaw_errors s) (home_errors s)
    (calibration_errors s) (algorithm_errors s) (obj_AhrsStatus s)
    (obj_AHRSSettings s) (obj_AHRSCalibration s) (obj_HomeLocation s)
    (obj_GPSPosition s) (obj_BaroAltitude s) (obj_AttitudeSettings s)
    (obj_AttitudeActual s) (obj_AttitudeRaw s) (obj_PositionActual s)
    (alarm_AHRSCOMMS s).
Definition set_BaroAltitudeIsUpdatedFlag (v : bool) (s : AHRSComms) : AHRSComms :=
  mkAHRSComms (AHRSSettingsIsUpdatedFlag s) v (GPSPositionIsUpdatedFlag s)
    (HomeLocationIsUpdatedFlag s) (AHRSCalibrationIsUpdatedFlag s)
    (AHRSCalibrationIsLocallyUpdateFlag s) (GPSGoodUpdates s)
    (update_errors s) (attituderaw_errors s) (home_errors s)
    (calibration_errors s) (algorithm_errors s) (obj_AhrsStatus s)
    (obj_AHRSSettings s) (obj_AHRSCalibration s) (obj_HomeLocation s)
    (obj_GPSPosition s) (obj_BaroAltitude s) (obj_AttitudeSettings s)
    (obj_AttitudeActual s) (obj_AttitudeRaw s) (obj_PositionActual s)
    (alarm_AHRSCOMMS s).
Definition set_GPSPositionIsUpdatedFlag (v : bool) (s : AHRSComms) : AHRSComms :=
  mkAHRSComms (AHRSSettingsIsUpdatedFlag s) (BaroAltitudeIsUpdatedFlag s) v
    (HomeLocationIsUpdatedFlag s) (AHRSCalibrationIsUpdatedFlag s)
    (AHRSCalibrationIsLocallyUpdateFlag s) (GPSGoodUpdates s)
    (update_errors s) (attituderaw_errors s) (home_errors s)
    (calibration_errors s) (algorithm_errors s) (obj_AhrsStatus s)
    (obj_AHRSSettings s) (obj_AHRSCalibration s) (obj_HomeLocation s)
    (obj_GPSPosition s) (obj_BaroAltitude s) (obj_AttitudeSettings s)
    (obj_AttitudeActual s) (obj_AttitudeRaw s) (obj_PositionActual s)
    (alarm_AHRSCOMMS s).
Definition set_HomeLocationIsUpdatedFlag (v : bool) (s : AHRSComms) : AHRSComms :=
  mkAHRSComms (AHRSSettingsIsUpdatedFlag s) (BaroAltitudeIsUpdatedFlag s)
    (GPSPositionIsUpdatedFlag s) v (AHRSCalibrationIsUpdatedFlag s)
    (AHRSCalibrationIsLocallyUpdateFlag s) (GPSGoodUpdates s)
    (update_errors s) (attituderaw_errors s) (home_errors s)
    (calibration_errors s) (algorithm_errors s) (obj_AhrsStatus s)
    (obj_AHRSSettings s) (obj_AHRSCalibration s) (obj_HomeLocation s)
    (obj_GPSPosition s) (obj_BaroAltitude s) (obj_AttitudeSettings s)
    (obj_AttitudeActual s) (obj_AttitudeRaw s) (obj_PositionActual s)
    (alarm_AHRSCOMMS s).
Definition set_AHRSCalibrationIsUpdatedFlag (v : bool) (s : AHRSComms) : AHRSComms :=
  mkAHRSComms (AHRSSettingsIsUpdatedFlag s) (BaroAltitudeIsUpdatedFlag s)
    (GPSPositionIsUpdatedFlag s) (HomeLocationIsUpdatedFlag s) v
    (AHRSCalibrationIsLocallyUpdateFlag s) (GPSGoodUpdates s)
    (update_errors s) (attituderaw_errors s) (home_errors s)
    (calibration_errors s) (algorithm_errors s) (obj_AhrsStatus s)
    (obj_AHRSSettings s) (obj_AHRSCalibration s) (obj_HomeLocation s)
    (obj_GPSPosition s) (obj_BaroAltitude s) (obj_AttitudeSettings s)
    (obj_AttitudeActual s) (obj_AttitudeRaw s) (obj_PositionActual s)
    (alarm_AHRSCOMMS s).
Definition set_AHRSCalibrationIsLocallyUpdateFlag (v : bool) (s : AHRSComms) : AHRSComms :=
  mkAHRSComms (AHRSSettingsIsUpdatedFlag s) (BaroAltitudeIsUpdatedFlag s)
    (GPSPositionIsUpdatedFlag s) (HomeLocationIsUpdatedFlag s)
    (AHRSCalibrationIsUpdatedFlag s) v (GPSGoodUpdates s) (update_errors s)
    (attituderaw_errors s) (home_errors s) (calibration_errors s)
    (algorithm_errors s) (obj_AhrsStatus s) (obj_AHRSSettings s)
    (obj_AHRSCalibration s) (obj_HomeLocation s) (obj_GPSPosition s)
    (obj_BaroAltitude s) (obj_AttitudeSettings s) (obj_AttitudeActual s)
    (obj_AttitudeRaw s) (obj_PositionActual s) (alarm_AHRSCOMMS s).
Definition set_GPSGoodUpdates (v : Z) (s : AHRSComms) : AHRSComms :=
  mkAHRSComms (AHRSSettingsIsUpdatedFlag s) (BaroAltitudeIsUpdatedFlag s)
    (GPSPositionIsUpdatedFlag s) (HomeLocationIsUpdatedFlag s)
    (AHRSCalibrationIsUpdatedFlag s) (AHRSCalibrationIsLocallyUpdateFlag s) v
    (update_errors s) (attituderaw_errors s) (home_errors s)
    (calibration_errors s) (algorithm_errors s) (obj_AhrsStatus s)
    (obj_AHRSSettings s) (obj_AHRSCalibration s) (obj_HomeLocation s)
    (obj_GPSPosition s) (obj_BaroAltitude s) (obj_AttitudeSettings s)
    (obj_AttitudeActual s) (obj_AttitudeRaw s) (obj_PositionActual s)
    (alarm_AHRSCOMMS s).
Definition set_update_errors (v : Z) (s : AHRSComms) : AHRSComms :=
  mkAHRSComms (AHRSSettingsIsUpdatedFlag s) (BaroAltitudeIsUpdatedFlag s)
    (GPSPositionIsUpdatedFlag s) (HomeLocationIsUpdatedFlag s)
    (AHRSCalibrationIsUpdatedFlag s) (AHRSCalibrationIsLocallyUpdateFlag s)
    (GPSGoodUpdates s) v (attituderaw_errors s) (home_errors s)
    (calibration_errors s) (algorithm_errors s) (obj_AhrsStatus s)
    (obj_AHRSSettings s) (obj_AHRSCalibration s) (obj_HomeLocation s)
    (obj_GPSPosition s) (obj_BaroAltitude s) (obj_AttitudeSettings s)
    (obj_AttitudeActual s) (obj_AttitudeRaw s) (obj_PositionActual s)
    (alarm_AHRSCOMMS s).
Definition set_attituderaw_errors (v : Z) (s : AHRSComms) : AHRSComms :=
  mkAHRSComms (AHRSSettingsIsUpdatedFlag s) (BaroAltitudeIsUpdatedFlag s)
    (GPSPositionIsUpdatedFlag s) (HomeLocationIsUpdatedFlag s)
    (AHRSCalibrationIsUpdatedFlag s) (AHRSCalibrationIsLocallyUpdateFlag s)
    (GPSGoodUpdates s) (update_errors s) v (home_errors s)
    (calibration_errors s) (algorithm_errors s) (obj_AhrsStatus s)
    (obj_AHRSSettings s) (obj_AHRSCalibration s) (obj_HomeLocation s)
    (obj_GPSPosition s) (obj_BaroAltitude s) (obj_AttitudeSettings s)
    (obj_AttitudeActual s) (obj_AttitudeRaw s) (obj_PositionActual s)
    (alarm_AHRSCOMMS s).
Definition set_home_errors (v : Z) (s : AHRSComms) : AHRSComms :=
  mkAHRSComms (AHRSSettingsIsUpdatedFlag s) (BaroAltitudeIsUpdatedFlag s)
    (GPSPositionIsUpdatedFlag s) (HomeLocationIsUpdatedFlag s)
    (AHRSCalibrationIsUpdatedFlag s) (AHRSCalibrationIsLocallyUpdateFlag s)
    (GPSGoodUpdates s) (update_errors s) (attituderaw_errors s) v
    (calibration_errors s) (algorithm_errors s) (obj_AhrsStatus s)
    (obj_AHRSSettings s) (obj_AHRSCalibration s) (obj_HomeLocation s)
    (obj_GPSPosition s) (obj_BaroAltitude s) (obj_AttitudeSettings s)
    (obj_AttitudeActual s) (obj_AttitudeRaw s) (obj_PositionActual s)
    (alarm_AHRSCOMMS s).
Definition set_calibration_errors (v : Z) (s : AHRSComms) : AHRSComms :=
  mkAHRSComms (AHRSSettingsIsUpdatedFlag s) (BaroAltitudeIsUpdatedFlag s)
    (GPSPositionIsUpdatedFlag s) (HomeLocationIsUpdatedFlag s)
    (AHRSCalibrationIsUpdatedFlag s) (AHRSCalibrationIsLocallyUpdateFlag s)
    (GPSGoodUpdates s) (update_errors s) (attituderaw_errors s)
    (home_errors s) v (algorithm_errors s) (obj_AhrsStatus s)
    (obj_AHRSSettings s) (obj_AHRSCalibration s) (obj_HomeLocation s)
    (obj_GPSPosition s) (obj_BaroAltitude s) (obj_AttitudeSettings s)
    (obj_AttitudeActual s) (obj_AttitudeRaw s) (obj_PositionActual s)
    (alarm_AHRSCOMMS s).
Definition set_algorithm_errors (v : Z) (s : AHRSComms) : AHRSComms :=
  mkAHRSComms (AHRSSettingsIsUpdatedFlag s) (BaroAltitudeIsUpdatedFlag s)
    (GPSPositionIsUpdatedFlag s) (HomeLocationIsUpdatedFlag s)
    (AHRSCalibrationIsUpdatedFlag s) (AHRSCalibrationIsLocallyUpdateFlag s)
    (GPSGoodUpdates s) (update_errors s) (attituderaw_errors s)
    (home_errors s) (calibration_errors s) v (obj_AhrsStatus s)
    (obj_AHRSSettings s) (obj_AHRSCalibration s) (obj_HomeLocation s)
    (obj_GPSPosition s) (obj_BaroAltitude s) (obj_AttitudeSettings s)
    (obj_AttitudeActual s) (obj_AttitudeRaw s) (obj_PositionActual s)
    (alarm_AHRSCOMMS s).
Definition set_obj_AhrsStatus (v : AhrsStatus.Data) (s : AHRSComms) : AHRSComms :=
  mkAHRSComms (AHRSSettingsIsUpdatedFlag s) (BaroAltitudeIsUpdatedFlag s)
    (GPSPositionIsUpdatedFlag s) (HomeLocationIsUpdatedFlag s)
    (AHRSCalibrationIsUpdatedFlag s) (AHRSCalibrationIsLocallyUpdateFlag s)
    (GPSGoodUpdates s) (update_errors s) (attituderaw_errors s)
    (home_errors s) (calibration_errors s) (algorithm_errors s) v
    (obj_AHRSSettings s) (obj_AHRSCalibration s) (obj_HomeLocation s)
    (obj_GPSPosition s) (obj_BaroAltitude s) (obj_AttitudeSettings s)
    (obj_AttitudeActual s) (obj_AttitudeRaw s) (obj_PositionActual s)
    (alarm_AHRSCOMMS s).
Definition set_obj_AHRSSettings (v : AHRSSettings.Data) (s : AHRSComms) : AHRSComms :=
  mkAHRSComms (AHRSSettingsIsUpdatedFlag s) (BaroAltitudeIsUpdatedFlag s)
    (GPSPositionIsUpdatedFlag s) (HomeLocationIsUpdatedFlag s)
    (AHRSCalibrationIsUpdatedFlag s) (AHRSCalibrationIsLocallyUpdateFlag s)
    (GPSGoodUpdates s) (update_errors s) (attituderaw_errors s)
    (home_errors s) (calibration_errors s) (algorithm_errors s)
    (obj_AhrsStatus s) v (obj_AHRSCalibration s) (obj_HomeLocation s)
    (obj_GPSPosition s) (obj_BaroAltitude s) (obj_AttitudeSettings s)
    (obj_AttitudeActual s) (obj_AttitudeRaw s) (obj_PositionActual s)
    (alarm_AHRSCOMMS s).
Definition set_obj_AHRSCalibration (v : AHRSCalibration.Data) (s : AHRSComms) : AHRSComms :=
  mkAHRSComms (AHRSSettingsIsUpdatedFlag s) (BaroAltitudeIsUpdatedFlag s)
    (GPSPositionIsUpdatedFlag s) (HomeLocationIsUpdatedFlag s)
    (AHRSCalibrationIsUpdatedFlag s) (AHRSCalibrationIsLocallyUpdateFlag s)
    (GPSGoodUpdates s) (update_errors s) (attituderaw_errors s)
    (home_errors s) (calibration_errors s) (algorithm_errors s)
    (obj_AhrsStatus s) (obj_AHRSSettings s) v (obj_HomeLocation s)
    (obj_GPSPosition s) (obj_BaroAltitude s) (obj_AttitudeSettings s)
    (obj_AttitudeActual s) (obj_AttitudeRaw s) (obj_PositionActual s)
    (alarm_AHRSCOMMS s).
Definition set_obj_HomeLocation (v : HomeLocation.Data) (s : AHRSComms) : AHRSComms :=
  mkAHRSComms (AHRSSettingsIsUpdatedFlag s) (BaroAltitudeIsUpdatedFlag s)
    (GPSPositionIsUpdatedFlag s) (HomeLocationIsUpdatedFlag s)
    (AHRSCalibrationIsUpdatedFlag s) (AHRSCalibrationIsLocallyUpdateFlag s)
    (GPSGoodUpdates s) (update_errors s) (attituderaw_errors s)
    (home_errors s) (calibration_errors s) (algorithm_errors s)
    (obj_AhrsStatus s) (obj_AHRSSettings s) (obj_AHRSCalibration s) v
    (obj_GPSPosition s) (obj_BaroAltitude s) (obj_AttitudeSettings s)
    (obj_AttitudeActual s) (obj_AttitudeRaw s) (obj_PositionActual s)
    (alarm_AHRSCOMMS s).
Definition set_obj_GPSPosition (v : GPSPosition.Data) (s : AHRSComms) : AHRSComms :=
  mkAHRSComms (AHRSSettingsIsUpdatedFlag s) (BaroAltitudeIsUpdatedFlag s)
    (GPSPositionIsUpdatedFlag s) (HomeLocationIsUpdatedFlag s)
    (AHRSCalibrationIsUpdatedFlag s) (AHRSCalibrationIsLocallyUpdateFlag s)
    (GPSGoodUpdates s) (update_errors s) (attituderaw_errors s)
    (home_errors s) (calibration_errors s) (algorithm_errors s)
    (obj_AhrsStatus s) (obj_AHRSSettings s) (obj_AHRSCalibration s)
    (obj_HomeLocation s) v (obj_BaroAltitude s) (obj_AttitudeSettings s)
    (obj_AttitudeActual s) (obj_AttitudeRaw s) (obj_PositionActual s)
    (alarm_AHRSCOMMS s).
Definition set_obj_BaroAltitude (v : BaroAltitude.Data) (s : AHRSComms) : AHRSComms :=
  mkAHRSComms (AHRSSettingsIsUpdatedFlag s) (BaroAltitudeIsUpdatedFlag s)
    (GPSPositionIsUpdatedFlag s) (HomeLocationIsUpdatedFlag s)
    (AHRSCalibrationIsUpdatedFlag s) (AHRSCalibrationIsLocallyUpdateFlag s)
    (GPSGoodUpdates s) (update_errors s) (attituderaw_errors s)
    (home_errors s) (calibration_errors s) (algorithm_errors s)
    (obj_AhrsStatus s) (obj_AHRSSettings s) (obj_AHRSCalibration s)
    (obj_HomeLocation s) (obj_GPSPosition s) v (obj_AttitudeSettings s)
    (obj_AttitudeActual s) (obj_AttitudeRaw s) (obj_PositionActual s)
    (alarm_AHRSCOMMS s).
Definition set_obj_AttitudeSettings (v : AttitudeSettings.Data) (s : AHRSComms) : AHRSComms :=
  mkAHRSComms (AHRSSettingsIsUpdatedFlag s) (BaroAltitudeIsUpdatedFlag s)
    (GPSPositionIsUpdatedFlag s) (HomeLocationIsUpdatedFlag s)
    (AHRSCalibrationIsUpdatedFlag s) (AHRSCalibrationIsLocallyUpdateFlag s)
    (GPSGoodUpdates s) (update_errors s) (attituderaw_errors s)
    (home_errors s) (calibration_errors s) (algorithm_errors s)
    (obj_AhrsStatus s) (obj_AHRSSettings s) (obj_AHRSCalibration s)
    (obj_HomeLocation s) (obj_GPSPosition s) (obj_BaroAltitude s) v
    (obj_AttitudeActual s) (obj_AttitudeRaw s) (obj_PositionActual s)
    (alarm_AHRSCOMMS s).
Definition set_obj_AttitudeActual (v : AttitudeActual.Data) (s : AHRSComms) : AHRSComms :=
  mkAHRSComms (AHRSSettingsIsUpdatedFlag s) (BaroAltitudeIsUpdatedFlag s)
    (GPSPositionIsUpdatedFlag s) (HomeLocationIsUpdatedFlag s)
    (AHRSCalibrationIsUpdatedFlag s) (AHRSCalibrationIsLocallyUpdateFlag s)
    (GPSGoodUpdates s) (update_errors s) (attituderaw_errors s)
    (home_errors s) (calibration_errors s) (algorithm_errors s)
    (obj_AhrsStatus s) (obj_AHRSSettings s) (obj_AHRSCalibration s)
    (obj_HomeLocation s) (obj_GPSPosition s) (obj_BaroAltitude s)
    (obj_AttitudeSettings s) v (obj_AttitudeRaw s) (obj_PositionActual s)
    (alarm_AHRSCOMMS s).
Definition set_obj_AttitudeRaw (v : AttitudeRaw.Data) (s : AHRSComms) : AHRSComms :=
  mkAHRSComms (AHRSSettingsIsUpdatedFlag s) (BaroAltitudeIsUpdatedFlag s)
    (GPSPositionIsUpdatedFlag s) (HomeLocationIsUpdatedFlag s)
    (AHRSCalibrationIsUpdatedFlag s) (AHRSCalibrationIsLocallyUpdateFlag s)
    (GPSGoodUpdates s) (update_errors s) (attituderaw_errors s)
    (home_errors s) (calibration_errors s) (algorithm_errors s)
    (obj_AhrsStatus s) (obj_AHRSSettings s) (obj_AHRSCalibration s)
    (obj_HomeLocation s) (obj_GPSPosition s) (obj_BaroAltitude s)
    (obj_AttitudeSettings s) (obj_AttitudeActual s) v (obj_PositionActual s)
    (alarm_AHRSCOMMS s).
Definition set_obj_PositionActual (v : PositionActual.Data) (s : AHRSComms) : AHRSComms :=
  mkAHRSComms (AHRSSettingsIsUpdatedFlag s) (BaroAltitudeIsUpdatedFlag s)
    (GPSPositionIsUpdatedFlag s) (HomeLocationIsUpdatedFlag s)
    (AHRSCalibrationIsUpdatedFlag s) (AHRSCalibrationIsLocallyUpdateFlag s)
    (GPSGoodUpdates s) (update_errors s) (attituderaw_errors s)
    (home_errors s) (calibration_errors s) (algorithm_errors s)
    (obj_AhrsStatus s) (obj_AHRSSettings s) (obj_AHRSCalibration s)
    (obj_HomeLocation s) (obj_GPSPosition s) (obj_BaroAltitude s)
    (obj_AttitudeSettings s) (obj_AttitudeActual s) (obj_AttitudeRaw s) v
    (alarm_AHRSCOMMS s).
Definition set_alarm_AHRSCOMMS (v : alarm_severity) (s : AHRSComms) : AHRSComms :=
  mkAHRSComms (AHRSSettingsIsUpdatedFlag s) (BaroAltitudeIsUpdatedFlag s)
    (GPSPositionIsUpdatedFlag s) (HomeLocationIsUpdatedFlag s)
    (AHRSCalibrationIsUpdatedFlag s) (AHRSCalibrationIsLocallyUpdateFlag s)
    (GPSGoodUpdates s) (update_errors s) (attituderaw_errors s)
    (home_errors s) (calibration_errors s) (algorithm_errors s)
    (obj_AhrsStatus s) (obj_AHRSSettings s) (obj_AHRSCalibration s)
    (obj_HomeLocation s) (obj_GPSPosition s) (obj_BaroAltitude s)
    (obj_AttitudeSettings s) (obj_AttitudeActual s) (obj_AttitudeRaw s)
    (obj_PositionActual s) v.

(** ** Callbacks

    Each is connected to one object and runs when that object changes. *)

Definition AHRSSettingsUpdatedCb (s : AHRSComms) : AHRSComms :=
  set_AHRSSettingsIsUpdatedFlag true s.

Definition BaroAltitudeUpdatedCb (s : AHRSComms) : AHRSComms :=
  set_BaroAltitudeIsUpdatedFlag true s.

Definition GPSPositionUpdatedCb (s : AHRSComms) : AHRSComms :=
  set_GPSPositionIsUpdatedFlag true s.

Definition HomeLocationUpdatedCb (s : AHRSComms) : AHRSComms :=
  set_HomeLocationIsUpdatedFlag true s.

Definition AHRSCalibrationUpdatedCb (s : AHRSComms) : AHRSComms :=
  if Bool.eqb (AHRSCalibrationIsLocallyUpdateFlag s) true
  then set_AHRSCalibrationIsLocallyUpdateFlag false s
  else set_AHRSCalibrationIsUpdatedFlag true s.

(** ** Marshaling *)

Definition load_calibration (calibration : req_calibration.t) (s : AHRSComms)
  : req_calibration.t :=
  let data := obj_AHRSCalibration s in
  let mode :=
    if AHRSCalibration.measure_var data =? AHRSCALIBRATION_MEASURE_VAR_SET
    then AHRS_SET
    else if AHRSCalibration.measure_var data =? AHRSCALIBRATION_MEASURE_VAR_MEASURE
    then AHRS_MEASURE
    else AHRS_ECHO in
  req_calibration.mk mode
    (mkArray3 (elt0 (AHRSCalibration.accel_bias data))
              (elt1 (AHRSCalibration.accel_bias data))
              (elt2 (AHRSCalibration.accel_bias data)))
    (mkArray3 (elt0 (AHRSCalibration.accel_scale data))
              (elt1 (AHRSCalibration.accel_scale data))
              (elt2 (AHRSCalibration.accel_scale data)))
    (mkArray3 (elt0 (AHRSCalibration.accel_var data))
              (elt1 (AHRSCalibration.accel_var data))
              (elt2 (AHRSCalibration.accel_var data)))
    (mkArray3 (elt0 (AHRSCalibration.gyro_bias data))
              (elt1 (AHRSCalibration.gyro_bias data))
              (elt2 (AHRSCalibration.gyro_bias data)))
    (mkArray3 (elt0 (AHRSCalibration.gyro_scale data))
              (elt1 (AHRSCalibration.gyro_scale data))
              (elt2 (AHRSCalibration.gyro_scale data)))
    (mkArray3 (elt0 (AHRSCalibration.gyro_var data))
              (elt1 (AHRSCalibration.gyro_var data))
              (elt2 (AHRSCalibration.gyro_var data)))
    (mkArray3 (elt0 (AHRSCalibration.mag_bias data))
              (elt1 (AHRSCalibration.mag_bias data))
              (elt2 (AHRSCalibration.mag_bias data)))
    (mkArray3 (elt0 (AHRSCalibration.mag_var data))
              (elt1 (AHRSCalibration.mag_var data))
              (elt2 (AHRSCalibration.mag_var data))).

Definition update_calibration (calibration : rsp_calibration.t) (s : AHRSComms)
  : AHRSComms :=
  let data := obj_AHRSCalibration s in
  let s := set_AHRSCalibrationIsLocallyUpdateFlag true s in
  let data :=
    AHRSCalibration.mk
      (AHRSCalibration.measure_var data)
      (AHRSCalibration.accel_bias data)
      (AHRSCalibration.accel_scale data)
      (mkArray3 (elt0 (rsp_calibration.accel_var calibration))
                (elt1 (rsp_calibration.accel_var calibration))
                (elt2 (rsp_calibration.accel_var calibration)))
      (AHRSCalibration.gyro_bias data)
      (AHRSCalibration.gyro_scale data)
      (mkArray3 (elt0 (rsp_calibration.gyro_var calibration))
                (elt1 (rsp_calibration.gyro_var calibration))
                (elt2 (rsp_calibration.gyro_var calibration)))
      (AHRSCalibration.mag_bias data)
      (AHRSCalibration.mag_scale data)
      (mkArray3 (elt0 (rsp_calibration.mag_var calibration))
                (elt1 (rsp_calibration.mag_var calibration))
                (elt2 (rsp_calibration.mag_var calibration))) in
  set_obj_AHRSCalibration data s.

(** The magnetic reference as [load_magnetic_north] computes it from
    [data.Be]. *)
Definition unit_north {F : Type} `{Arith F} (Be : Array3 F) : Array3 F :=
  if eqb (elt0 Be) (of_int 0) && eqb (elt1 Be) (of_int 0) && eqb (elt2 Be) (of_int 0)
  then mkArray3 (of_int 1) (of_int 0) (of_int 0)
  else
    let len :=
      sqrt_float (add (add (mul (elt0 Be) (elt0 Be)) (mul (elt1 Be) (elt1 Be)))
                      (mul (elt2 Be) (elt2 Be))) in
    mkArray3 (div (elt0 Be) len) (div (elt1 Be) len) (div (elt2 Be) len).

Definition load_magnetic_north (mag_north : req_north.t) (s : AHRSComms)
  : req_north.t :=
  let data := obj_HomeLocation s in
  req_north.mk (unit_north (HomeLocation.Be data)).

Definition load_baro_altitude (update : req_update.t) (s : AHRSComms)
  : req_update.t :=
  let data := obj_BaroAltitude s in
  req_update.mk
    (req_update.mk_barometer TRUE (BaroAltitude.Altitude data))
    (req_update.gps update).

(** [data.Yaw = rpy[2]; if (data.Yaw < 0) data.Yaw += 360;] *)
Definition wrap_yaw {F : Type} `{Arith F} (yaw : F) : F :=
  if ltb yaw (of_int 0) then add yaw (of_int 360) else yaw.

Definition update_attitude_raw (attituderaw : rsp_attituderaw.t) (s : AHRSComms)
  : AHRSComms :=
  let data :=
    AttitudeRaw.mk
      (mkArray3 (rsp_attituderaw.x (rsp_attituderaw.mags attituderaw))
                (rsp_attituderaw.y (rsp_attituderaw.mags attituderaw))
                (rsp_attituderaw.z (rsp_attituderaw.mags attituderaw)))
      (mkArray3 (rsp_attituderaw.gx (rsp_attituderaw.gyros attituderaw))
                (rsp_attituderaw.gy (rsp_attituderaw.gyros attituderaw))
                (rsp_attituderaw.gz (rsp_attituderaw.gyros attituderaw)))
      (mkArray3 (rsp_attituderaw.fx (rsp_attituderaw.gyros_filtered attituderaw))
                (rsp_attituderaw.fy (rsp_attituderaw.gyros_filtered attituderaw))
                (rsp_attituderaw.fz (rsp_attituderaw.gyros_filtered attituderaw)))
      (rsp_attituderaw.xy_temp (rsp_attituderaw.gyros attituderaw),
       rsp_attituderaw.z_temp (rsp_attituderaw.gyros attituderaw))
      (mkArray3 (rsp_attituderaw.x (rsp_attituderaw.accels attituderaw))
                (rsp_attituderaw.y (rsp_attituderaw.accels attituderaw))
                (rsp_attituderaw.z (rsp_attituderaw.accels attituderaw)))
      (mkArray3 (rsp_attituderaw.fx (rsp_attituderaw.accels_filtered attituderaw))
                (rsp_attituderaw.fy (rsp_attituderaw.accels_filtered attituderaw))
                (rsp_attituderaw.fz (rsp_attituderaw.accels_filtered attituderaw))) in
  set_obj_AttitudeRaw data s.

(** [SerialNumber[i] = serial_bcd[i]] for every index of [serial_bcd]. *)
Definition copy_serial (serial_bcd SerialNumber : list Z) : list Z :=
  serial_bcd ++ skipn (length serial_bcd) SerialNumber.

Definition update_ahrs_status (serial : rsp_serial.t) (s : AHRSComms) : AHRSComms :=
  let data := obj_AhrsStatus s in
  let data :=
    AhrsStatus.mk
      (copy_serial (rsp_serial.serial_bcd serial) (AhrsStatus.SerialNumber data))
      (AhrsStatus.CPULoad data) (AhrsStatus.IdleTimePerCyle data)
      (AhrsStatus.RunningTimePerCyle data) (AhrsStatus.DroppedUpdates data)
      (AhrsStatus.mkCommErrors (update_errors s) (attituderaw_errors s)
         (home_errors s) (calibration_errors s) (algorithm_errors s))
      (AhrsStatus.HomeSet data) (AhrsStatus.CalibrationSet data)
      (AhrsStatus.AlgorithmSet data) in
  set_obj_AhrsStatus data s.

(** ** The task *)

(** How a piece of the streaming loop ends: it falls through to the next
    statement, or it executes [break]. *)
Inductive flow (A : Type) : Type :=
  | Next (a : A)
  | Break.
Arguments Next {A} _.
Arguments Break {A}.

Record run (A : Type) : Type := mkRun {
  outcome : flow A;
  final : AHRSComms;
  sent : list exchange
}.
Arguments mkRun {A} _ _ _.
Arguments outcome {A} _.
Arguments final {A} _.
Arguments sent {A} _.

Definition task (A : Type) : Type := AHRSComms -> run A.

Definition ret {A : Type} (a : A) : task A :=
  fun s => mkRun (Next a) s [].

Definition bind {A B : Type} (m : task A) (k : A -> task B) : task B :=
  fun s =>
    let r := m s in
    match outcome r with
    | Next a =>
        let r' := k a (final r) in
        mkRun (outcome r') (final r') (sent r ++ sent r')
    | Break => mkRun Break (final r) (sent r)
    end.

Definition break_ {A : Type} : task A :=
  fun s => mkRun Break s [].

(** Read the module's state. *)
Definition reads {A : Type} (f : AHRSComms -> A) : task A :=
  fun s => mkRun (Next (f s)) s [].

(** Change the module's state. *)
Definition modify (f : AHRSComms -> AHRSComms) : task unit :=
  fun s => mkRun (Next tt) (f s) [].

(** Call a function that returns a value and changes the module's state. *)
Definition call {A : Type} (f : AHRSComms -> A * AHRSComms) : task A :=
  fun s => mkRun (Next (fst (f s))) (snd (f s)) [].

(** Hand a message to the transport. *)
Definition transmit (x : exchange) : task unit :=
  fun s => mkRun (Next tt) s [x].

Declare Scope task_scope.
Delimit Scope task_scope with task.
Notation "x <- m ;; k" := (bind m (fun x => k))
  (at level 61, m at next level, right associativity) : task_scope.
Notation "m ;; k" := (bind m (fun _ => k))
  (at level 61, right associativity) : task_scope.
Local Open Scope task_scope.

(** What one pass of the streaming loop finds outside the module: the
    answers of the transport to the exchanges it may attempt, and the
    contents of the request buffers, automatic variables declared without
    an initialiser, at their declarations. *)
Record period : Type := mkPeriod {
  ans_SetMagNorth : opahrs_result;
  ans_SetGetCalibration : opahrs_result;
  rsp_SetGetCalibration : rsp_calibration.t;
  ans_SetAlgorithm : opahrs_result;
  ans_GetAttitudeRaw : opahrs_result;
  rsp_GetAttitudeRaw : rsp_attituderaw.t;
  ans_SetGetUpdate : opahrs_result;
  rsp_SetGetUpdate : rsp_update.t;
  auto_north : req_north.t;
  auto_calibration : req_calibration.t;
  auto_algorithm : req_algorithm.t;
  auto_update : req_update.t
}.

Definition PIOS_OPAHRS_SetMagNorth (p : period) (req : req_north.t)
  : task opahrs_result :=
  transmit (SetMagNorth req) ;; ret (ans_SetMagNorth p).

Definition PIOS_OPAHRS_SetGetCalibration (p : period) (req : req_calibration.t)
  : task (opahrs_result * rsp_calibration.t) :=
  transmit (SetGetCalibration req) ;;
  ret (ans_SetGetCalibration p, rsp_SetGetCalibration p).

Definition PIOS_OPAHRS_SetAlgorithm (p : period) (req : req_algorithm.t)
  : task opahrs_result :=
  transmit (SetAlgorithm req) ;; ret (ans_SetAlgorithm p).

Definition PIOS_OPAHRS_GetAttitudeRaw (p : period)
  : task (opahrs_result * rsp_attituderaw.t) :=
  transmit GetAttitudeRaw ;; ret (ans_GetAttitudeRaw p, rsp_GetAttitudeRaw p).

Definition PIOS_OPAHRS_SetGetUpdate (p : period) (req : req_update.t)
  : task (opahrs_result * rsp_update.t) :=
  transmit (SetGetUpdate req) ;; ret (ans_SetGetUpdate p, rsp_SetGetUpdate p).

Definition AhrsStatusSet (data : AhrsStatus.Data) : task unit :=
  modify (set_obj_AhrsStatus data).

(** 3.5 and 1e7 *)
Definition three_and_a_half : float := Binary32.scaled 7 (-1).
Definition double_1e7 : spec_float := binary_normalize 53 1024 10000000 0 false.

(** An [int32_t] converted to [double]. *)
Definition double_of_int (n : Z) : spec_float := binary_normalize 53 1024 n 0 false.

(** CoordinateConversions.c is not part of the module: its two functions
    are taken as given. *)
Class CoordinateConversions : Type := {
  LLA2Base : Array3 spec_float -> Array3 spec_float -> list float -> Array3 float;
  Quaternion2RPY : list float -> Array3 float
}.

Section Task.

Context {conversions : CoordinateConversions}.

Definition load_gps_position (update : req_update.t) (s : AHRSComms)
  : req_update.t * AHRSComms :=
  let data := obj_GPSPosition s in
  let home := obj_HomeLocation s in
  let gps := req_update.gps update in
  (* update->gps.updated = TRUE *)
  let gps :=
    req_update.mk_gps TRUE (req_update.NED gps) (req_update.groundspeed gps)
      (req_update.heading gps) (req_update.quality gps) in
  if (HomeLocation.Set_ home =? HOMELOCATION_SET_FALSE)
     || (HomeLocation.Indoor home =? HOMELOCATION_INDOOR_TRUE)
  then
    (req_update.mk (req_update.barometer update)
       (req_update.mk_gps (req_update.gps_updated gps)
          (mkArray3 (of_int 0) (of_int 0) (of_int 0)) (of_int 0) (of_int 0) (-1)),
     s)
  else if (GPSPosition.Satellites data >=? 7)
          && ltb (GPSPosition.PDOP data) three_and_a_half
  then
    if GPSGoodUpdates s <? 30
    then
      (req_update.mk (req_update.barometer update)
         (req_update.mk_gps (req_update.gps_updated gps) (req_update.NED gps)
            (req_update.groundspeed gps) (req_update.heading gps) 0),
       set_GPSGoodUpdates (incr32 (GPSGoodUpdates s)) s)
    else
      let LLA :=
        mkArray3
          (SFdiv 53 1024 (double_of_int (GPSPosition.Latitude data)) double_1e7)
          (SFdiv 53 1024 (double_of_int (GPSPosition.Longitude data)) double_1e7)
          (Binary32.to_double
             (add (GPSPosition.GeoidSeparation data) (GPSPosition.Altitude data))) in
      let ECEF :=
        mkArray3
          (double_of_int (Z.quot (elt0 (HomeLocation.ECEF home)) 100))
          (double_of_int (Z.quot (elt1 (HomeLocation.ECEF home)) 100))
          (double_of_int (Z.quot (elt2 (HomeLocation.ECEF home)) 100)) in
      (req_update.mk (req_update.barometer update)
         (req_update.mk_gps (req_update.gps_updated gps)
            (LLA2Base LLA ECEF (HomeLocation.RNE home))
            (GPSPosition.Groundspeed data) (GPSPosition.Heading data) 1),
       s)
  else
    (req_update.mk (req_update.barometer update)
       (req_update.mk_gps (req_update.gps_updated gps) (req_update.NED gps)
          (req_update.groundspeed gps) (req_update.heading gps) 0),
     set_GPSGoodUpdates 0 s).

(** [float q[4] = {data.q1, data.q2, data.q3, data.q4}; Quaternion2RPY(q, rpy);] *)
Definition converted_rpy (update : rsp_update.t) : Array3 float :=
  let q := rsp_update.quaternion update in
  Quaternion2RPY [rsp_update.q1 q; rsp_update.q2 q; rsp_update.q3 q; rsp_update.q4 q].

Definition process_update (update : rsp_update.t) (s : AHRSComms) : AHRSComms :=
  let attitudeSettings := obj_AttitudeSettings s in
  let q := rsp_update.quaternion update in
  let rpy := converted_rpy update in
  let data :=
    AttitudeActual.mk
      (rsp_update.q1 q) (rsp_update.q2 q) (rsp_update.q3 q) (rsp_update.q4 q)
      (sub (elt0 rpy) (AttitudeSettings.RollBias attitudeSettings))
      (sub (elt1 rpy) (AttitudeSettings.PitchBias attitudeSettings))
      (wrap_yaw (elt2 rpy)) in
  let s := set_obj_AttitudeActual data s in
  let pos := obj_PositionActual s in
  let pos :=
    PositionActual.mk
      (mkArray3 (elt0 (rsp_update.NED update)) (elt1 (rsp_update.NED update))
                (elt2 (rsp_update.NED update)))
      (mkArray3 (elt0 (rsp_update.Vel update)) (elt1 (rsp_update.Vel update))
                (elt2 (rsp_update.Vel update))) in
  let s := set_obj_PositionActual pos s in
  let status := obj_AhrsStatus s in
  let status :=
    AhrsStatus.mk (AhrsStatus.SerialNumber status)
      (rsp_update.load update) (rsp_update.idle_time update)
      (rsp_update.run_time update) (rsp_update.dropped_updates update)
      (AhrsStatus.CommErrors status) (AhrsStatus.HomeSet status)
      (AhrsStatus.CalibrationSet status) (AhrsStatus.AlgorithmSet status) in
  set_obj_AhrsStatus status s.

(** *** One pass of the streaming loop (lines 196-314) *)

(** Lines 202-219: update home coordinate if it hasn't been updated. *)
Definition update_home (p : period) : task unit :=
  data <- reads obj_AhrsStatus ;;
  updated <- reads HomeLocationIsUpdatedFlag ;;
  if updated || (AhrsStatus.HomeSet data =? AHRSSTATUS_HOMESET_FALSE)
  then
    req <- reads (load_magnetic_north (auto_north p)) ;;
    result <- PIOS_OPAHRS_SetMagNorth p req ;;
    if result_ok result
    then
      modify (set_HomeLocationIsUpdatedFlag false) ;;
      AhrsStatusSet (AhrsStatus.set_HomeSet AHRSSTATUS_HOMESET_TRUE data)
    else
      modify (fun s => set_home_errors (incr16 (home_errors s)) s) ;;
      AhrsStatusSet (AhrsStatus.set_HomeSet AHRSSTATUS_HOMESET_FALSE data) ;;
      break_
  else ret tt.

(** Lines 221-242: update calibration if necessary.  The local copy [data]
    of the status object outlives the block: the next one tests and writes
    it. *)
Definition update_calibration_if_necessary (p : period) : task AhrsStatus.Data :=
  data <- reads obj_AhrsStatus ;;
  updated <- reads AHRSCalibrationIsUpdatedFlag ;;
  if updated || (AhrsStatus.CalibrationSet data =? AHRSSTATUS_CALIBRATIONSET_FALSE)
  then
    req <- reads (load_calibration (auto_calibration p)) ;;
    ans <- PIOS_OPAHRS_SetGetCalibration p req ;;
    let (result, rsp) := ans in
    if result_ok result
    then
      modify (update_calibration rsp) ;;
      modify (set_AHRSCalibrationIsUpdatedFlag false) ;;
      let data :=
        if negb (measure_mode_eqb (rsp_calibration.measure_var rsp) AHRS_ECHO)
        then AhrsStatus.set_CalibrationSet AHRSSTATUS_CALIBRATIONSET_TRUE data
        else data in
      AhrsStatusSet data ;;
      ret data
    else
      AhrsStatusSet (AhrsStatus.set_CalibrationSet AHRSSTATUS_CALIBRATIONSET_FALSE data) ;;
      modify (fun s => set_calibration_errors (incr16 (calibration_errors s)) s) ;;
      break_
  else ret data.

(** Lines 247-252, the request of the algorithm push: the buffer as
    declared, then the two conditional assignments. *)
Definition load_algorithm (req : req_algorithm.t) (settings : AHRSSettings.Data)
  : req_algorithm.t :=
  let req :=
    if AHRSSettings.Algorithm settings =? AHRSSETTINGS_ALGORITHM_INSGPS
    then req_algorithm.mk INSGPS_Algo
    else req in
  if AHRSSettings.Algorithm settings =? AHRSSETTINGS_ALGORITHM_SIMPLE
  then req_algorithm.mk SIMPLE_Algo
  else req.

(** Lines 244-264: update algorithm. *)
Definition update_algorithm (p : period) (settings : AHRSSettings.Data)
    (data : AhrsStatus.Data) : task unit :=
  updated <- reads AHRSSettingsIsUpdatedFlag ;;
  if updated || (AhrsStatus.AlgorithmSet data =? AHRSSTATUS_ALGORITHMSET_FALSE)
  then
    result <- PIOS_OPAHRS_SetAlgorithm p (load_algorithm (auto_algorithm p) settings) ;;
    if result_ok result
    then AhrsStatusSet (AhrsStatus.set_AlgorithmSet AHRSSTATUS_ALGORITHMSET_TRUE data)
    else
      AhrsStatusSet (AhrsStatus.set_AlgorithmSet AHRSSTATUS_ALGORITHMSET_FALSE data) ;;
      modify (fun s => set_algorithm_errors (incr16 (algorithm_errors s)) s) ;;
      break_
  else ret tt.

(** Lines 268-278: if settings indicate, grab the raw data. *)
Definition grab_raw (p : period) (settings : AHRSSettings.Data) : task unit :=
  if negb (AHRSSettings.UpdateRaw settings =? 0)
  then
    ans <- PIOS_OPAHRS_GetAttitudeRaw p ;;
    let (result, rsp) := ans in
    if result_ok result
    then modify (update_attitude_raw rsp)
    else
      modify (fun s => set_attituderaw_errors (incr16 (attituderaw_errors s)) s) ;;
      break_
  else ret tt.

Definition clear_barometer_updated (req : req_update.t) : req_update.t :=
  req_update.mk
    (req_update.mk_barometer 0 (req_update.altitude (req_update.barometer req)))
    (req_update.gps req).

Definition clear_gps_updated (req : req_update.t) : req_update.t :=
  let gps := req_update.gps req in
  req_update.mk (req_update.barometer req)
    (req_update.mk_gps 0 (req_update.NED gps) (req_update.groundspeed gps)
       (req_update.heading gps) (req_update.quality gps)).

(** Lines 283-296, the combined update request: barometer and GPS loaded
    if updated. *)
Definition load_update (p : period) : task req_update.t :=
  let req := auto_update p in
  baro <- reads BaroAltitudeIsUpdatedFlag ;;
  req <- (if baro : bool
          then reads (load_baro_altitude req)
          else ret (clear_barometer_updated req)) ;;
  gps <- reads GPSPositionIsUpdatedFlag ;;
  if gps : bool
  then call (load_gps_position req)
  else ret (clear_gps_updated req).

(** Lines 298-309: transfer packet and process returned attitude. *)
Definition transfer_update (p : period) (req : req_update.t) : task unit :=
  ans <- PIOS_OPAHRS_SetGetUpdate p req ;;
  let (result, rsp) := ans in
  if result_ok result
  then
    (if negb (req_update.baro_updated (req_update.barometer req) =? 0)
     then modify (set_BaroAltitudeIsUpdatedFlag false)
     else ret tt) ;;
    (if negb (req_update.gps_updated (req_update.gps req) =? 0)
     then modify (set_GPSPositionIsUpdatedFlag false)
     else ret tt) ;;
    modify (process_update rsp)
  else
    modify (fun s => set_update_errors (incr16 (update_errors s)) s) ;;
    break_.

(** Lines 280-310. *)
Definition grab_filtered (p : period) (settings : AHRSSettings.Data) : task unit :=
  if negb (AHRSSettings.UpdateFiltered settings =? 0)
  then
    req <- load_update p ;;
    transfer_update p req
  else ret tt.

(** The body of the inner [while (1)], up to the wait for the next update
    interval. *)
Definition streaming_period (p : period) : task unit :=
  settings <- reads obj_AHRSSettings ;;
  update_home p ;;
  data <- update_calibration_if_necessary p ;;
  update_algorithm p settings data ;;
  grab_raw p settings ;;
  grab_filtered p settings.

(** *** The session (lines 156-195) *)

Inductive session_state : Type := RESYNCING | IDENTITY | STREAMING.

Record session : Type := mkSession {
  state : session_state;
  comms : AHRSComms
}.

(** Lines 168-175, the head of the outer [while (1)]: the alarm is raised
    and the status object told that nothing is known to the AHRS. *)
Definition enter_resyncing (s : AHRSComms) : AHRSComms :=
  let s := set_alarm_AHRSCOMMS SYSTEMALARMS_ALARM_CRITICAL s in
  let data := obj_AhrsStatus s in
  let data := AhrsStatus.set_HomeSet AHRSSTATUS_HOMESET_FALSE data in
  let data := AhrsStatus.set_CalibrationSet AHRSSTATUS_CALIBRATIONSET_FALSE data in
  let data := AhrsStatus.set_AlgorithmSet AHRSSTATUS_CALIBRATIONSET_FALSE data in
  set_obj_AhrsStatus data s.

(** Lines 161-175: entry of [ahrscommsTask], up to the first call of the
    resync. *)
Definition task_start (s : AHRSComms) : session :=
  mkSession RESYNCING (enter_resyncing (set_GPSGoodUpdates 0 s)).

(** What the transport answers at the blocking point the session is at. *)
Record answer : Type := mkAnswer {
  ans_resync : opahrs_result;
  ans_GetSerial : opahrs_result;
  rsp_GetSerial : rsp_serial.t;
  ans_period : period
}.

(** From one blocking point of the task to the next: one call of the
    resync (line 178), the serial-number query (lines 185-192), or one pass
    of the streaming loop.  The waits ([vTaskDelay], [vTaskDelayUntil])
    change nothing in the state. *)
Definition step (a : answer) (t : session) : session :=
  match state t with
  | RESYNCING =>
      if result_ok (ans_resync a)
      then mkSession IDENTITY (comms t)
      else mkSession RESYNCING (comms t)
  | IDENTITY =>
      if result_ok (ans_GetSerial a)
      then
        let s := update_ahrs_status (rsp_GetSerial a) (comms t) in
        mkSession STREAMING (set_alarm_AHRSCOMMS SYSTEMALARMS_ALARM_OK s)
      else mkSession RESYNCING (enter_resyncing (comms t))
  | STREAMING =>
      let r := streaming_period (ans_period a) (comms t) in
      match outcome r with
      | Next _ => mkSession STREAMING (final r)
      | Break => mkSession RESYNCING (enter_resyncing (final r))
      end
  end.

Fixpoint steps (l : list answer) (t : session) : session :=
  match l with
  | [] => t
  | a :: l => steps l (step a t)
  end.

End Task.

(** ** Reading the state *)

(** The error counter of a category. *)
Definition errors (s : AHRSComms) (c : category) : Z :=
  match c with
  | COMMERRORS_UPDATE => update_errors s
  | COMMERRORS_ATTITUDERAW => attituderaw_errors s
  | COMMERRORS_HOMELOCATION => home_errors s
  | COMMERRORS_CALIBRATION => calibration_errors s
  | COMMERRORS_ALGORITHM => algorithm_errors s
  end.

(** The transport's answer to the exchange of a category. *)
Definition answer_of (p : period) (c : category) : opahrs_result :=
  match c with
  | COMMERRORS_UPDATE => ans_SetGetUpdate p
  | COMMERRORS_ATTITUDERAW => ans_GetAttitudeRaw p
  | COMMERRORS_HOMELOCATION => ans_SetMagNorth p
  | COMMERRORS_CALIBRATION => ans_SetGetCalibration p
  | COMMERRORS_ALGORITHM => ans_SetAlgorithm p
  end.

(** [l1] is [l2] with some elements left out. *)
Inductive subseq {A : Type} : list A -> list A -> Prop :=
  | subseq_nil : subseq [] []
  | subseq_skip (x : A) (l1 l2 : list A) : subseq l1 l2 -> subseq l1 (x :: l2)
  | subseq_take (x : A) (l1 l2 : list A) : subseq l1 l2 -> subseq (x :: l1) (x :: l2).

(** The error counters after a run that broke out on exchange [x]. *)
Definition counted_once (s s' : AHRSComms) (x : exchange) : Prop :=
  forall c : category,
    errors s' c
    = if category_eqb c (category_of x) then incr16 (errors s c) else errors s c.

(** The transport answered the exchange with OK. *)
Definition answered (p : period) (x : exchange) : Prop :=
  result_ok (answer_of p (category_of x)) = true.

(** A piece of the streaming loop that attempts exchanges of the categories
    [cs], each at most once and in that order; it either falls through,
    every exchange answered and the counters untouched, or breaks right
    after the first exchange that the transport did not answer with OK,
    having counted it once. *)
Definition chain (p : period) (cs : list category) {A : Type} (m : task A) : Prop :=
  forall s : AHRSComms,
    subseq (map category_of (sent (m s))) cs /\
    match outcome (m s) with
    | Next _ =>
        Forall (answered p) (sent (m s)) /\
        forall c : category, errors (final (m s)) c = errors s c
    | Break =>
        exists (tr : list exchange) (x : exchange),
          sent (m s) = tr ++ [x] /\
          Forall (answered p) tr /\
          result_ok (answer_of p (category_of x)) = false /\
          counted_once s (final (m s)) x
    end.

(** The order in which a period walks through the categories. *)
Definition period_order : list category :=
  [COMMERRORS_HOMELOCATION; COMMERRORS_CALIBRATION; COMMERRORS_ALGORITHM;
   COMMERRORS_ATTITUDERAW; COMMERRORS_UPDATE].

(** The three "synced" fields of the status object all read false. *)
Definition nothing_synced (s : AHRSComms) : Prop :=
  AhrsStatus.HomeSet (obj_AhrsStatus s) = AHRSSTATUS_HOMESET_FALSE /\
  AhrsStatus.CalibrationSet (obj_AhrsStatus s) = AHRSSTATUS_CALIBRATIONSET_FALSE /\
  AhrsStatus.AlgorithmSet (obj_AhrsStatus s) = AHRSSTATUS_ALGORITHMSET_FALSE.

(** The fix-quality gate of [load_gps_position]. *)
Definition gate (data : GPSPosition.Data) : bool :=
  (GPSPosition.Satellites data >=? 7) && ltb (GPSPosition.PDOP data) three_and_a_half.

(** Home is set and the vehicle is not indoor. *)
Definition outdoor (home : HomeLocation.Data) : bool :=
  negb ((HomeLocation.Set_ home =? HOMELOCATION_SET_FALSE)
        || (HomeLocation.Indoor home =? HOMELOCATION_INDOOR_TRUE)).

(** Two calibration records that differ at most in [mag_bias] and
    [mag_scale]. *)
Definition same_but_mag_bias_scale (d d' : AHRSCalibration.Data) : Prop :=
  AHRSCalibration.measure_var d = AHRSCalibration.measure_var d' /\
  AHRSCalibration.accel_bias d = AHRSCalibration.accel_bias d' /\
  AHRSCalibration.accel_scale d = AHRSCalibration.accel_scale d' /\
  AHRSCalibration.accel_var d = AHRSCalibration.accel_var d' /\
  AHRSCalibration.gyro_bias d = AHRSCalibration.gyro_bias d' /\
  AHRSCalibration.gyro_scale d = AHRSCalibration.gyro_scale d' /\
  AHRSCalibration.gyro_var d = AHRSCalibration.gyro_var d' /\
  AHRSCalibration.mag_var d = AHRSCalibration.mag_var d'.

(** Two calibration records that differ at most in [mag_scale]. *)
Definition same_but_mag_scale (d d' : AHRSCalibration.Data) : Prop :=
  same_but_mag_bias_scale d d' /\
  AHRSCalibration.mag_bias d = AHRSCalibration.mag_bias d'.

(** *** Rounding

    The real numbers the binary32 values stand for, and what it means for a
    computed value to be a real number up to rounding. *)

Local Open Scope R_scope.













Local Close Scope R_scope.

(** *** Runs of GPS samples *)

(** GPS samples arriving one per period: each is stored in the GPSPosition
    object and loaded into the request buffer of its period.  The result
    lists the GPS sub-messages in order. *)
Fixpoint feed_gps {conversions : CoordinateConversions}
    (samples : list (req_update.t * GPSPosition.Data)) (s : AHRSComms)
  : list req_update.gps_t * AHRSComms :=
  match samples with
  | [] => ([], s)
  | (update, data) :: rest =>
      let loaded := load_gps_position update (set_obj_GPSPosition data s) in
      let fed := feed_gps rest (snd loaded) in
      (req_update.gps (fst loaded) :: fst fed, snd fed)
  end.

(** The quality tag of the sample at (0-based) index [k] of a run of
    passing fixes that starts with the counter at [c]. *)
Definition tag_after (c : Z) (k : nat) : Z :=
  if c + Z.of_nat k <? 30 then 0 else 1.

(** ** Sample data *)

Module Sample.

Definition zero : float := S754_zero false.
Definition zero3 : Array3 float := mkArray3 zero zero zero.
Definition one_two_three : Array3 float :=
  mkArray3 (Binary32.of_Z 1) (Binary32.of_Z 2) (Binary32.of_Z 3).

Definition status : AhrsStatus.Data :=
  AhrsStatus.mk [] 0 0 0 0 (AhrsStatus.mkCommErrors 0 0 0 0 0) 0 0 0.

Definition settings : AHRSSettings.Data :=
  AHRSSettings.mk AHRSSETTINGS_ALGORITHM_INSGPS 0 1 20.

Definition calibration : AHRSCalibration.Data :=
  AHRSCalibration.mk AHRSCALIBRATION_MEASURE_VAR_SET
    zero3 zero3 zero3 zero3 zero3 zero3 zero3 zero3 zero3.

(** Home set, outdoor, reference (0.3, 0.4, 0) rounded to binary32. *)
Definition home : HomeLocation.Data :=
  HomeLocation.mk HOMELOCATION_SET_TRUE HOMELOCATION_INDOOR_FALSE
    (mkArray3 (Binary32.scaled 10066330 (-25)) (Binary32.scaled 13421773 (-25)) zero)
    (mkArray3 0 0 0) [].

(** Eight satellites, PDOP 2.0. *)
Definition good_fix : GPSPosition.Data :=
  GPSPosition.mk 0 0 zero zero zero zero 8 (Binary32.of_Z 2).

(** Three satellites. *)
Definition poor_fix : GPSPosition.Data :=
  GPSPosition.mk 0 0 zero zero zero zero 3 (Binary32.of_Z 2).

Definition comms0 : AHRSComms :=
  mkAHRSComms false false true false false false 7 0 0 0 0 0
    status settings calibration home good_fix
    (BaroAltitude.mk zero) (AttitudeSettings.mk zero zero)
    (AttitudeActual.mk zero zero zero zero zero zero zero)
    (AttitudeRaw.mk (mkArray3 0 0 0) (mkArray3 0 0 0) zero3 (0, 0) (mkArray3 0 0 0) zero3)
    (PositionActual.mk zero3 zero3)
    SYSTEMALARMS_ALARM_OK.

Definition rsp_calibration (mode : measure_mode) : rsp_calibration.t :=
  rsp_calibration.mk mode zero3 zero3 zero3.

Definition rsp_attituderaw : rsp_attituderaw.t :=
  rsp_attituderaw.mk (rsp_attituderaw.mk_axes 0 0 0)
    (rsp_attituderaw.mk_gyros 0 0 0 0 0) (rsp_attituderaw.mk_faxes zero zero zero)
    (rsp_attituderaw.mk_axes 0 0 0) (rsp_attituderaw.mk_faxes zero zero zero).

Definition rsp_update : rsp_update.t :=
  rsp_update.mk (rsp_update.mk_quaternion (Binary32.of_Z 1) zero zero zero)
    zero3 zero3 0 0 0 0.

(** A request buffer holding the leftovers of an earlier pass. *)
Definition stale_update : req_update.t :=
  req_update.mk (req_update.mk_barometer 0 zero)
    (req_update.mk_gps 0 one_two_three zero zero 1).

(** A period in which the transport answers [home], [calibration],
    [algorithm], [raw] and [update] in turn. *)
Definition period_with (home calibration algorithm raw update : opahrs_result)
  : period :=
  mkPeriod home calibration (rsp_calibration AHRS_SET) algorithm
    raw rsp_attituderaw update rsp_update
    (req_north.mk zero3)
    (req_calibration.mk AHRS_SET zero3 zero3 zero3 zero3 zero3 zero3 zero3 zero3)
    (req_algorithm.mk SIMPLE_Algo)
    stale_update.

Definition all_ok : period :=
  period_with OPAHRS_RESULT_OK OPAHRS_RESULT_OK OPAHRS_RESULT_OK OPAHRS_RESULT_OK
    OPAHRS_RESULT_OK.

Definition update_fails : period :=
  period_with OPAHRS_RESULT_OK OPAHRS_RESULT_OK OPAHRS_RESULT_OK OPAHRS_RESULT_OK
    OPAHRS_RESULT_FAILED.

Definition home_fails : period :=
  period_with OPAHRS_RESULT_TIMEOUT OPAHRS_RESULT_OK OPAHRS_RESULT_OK OPAHRS_RESULT_OK
    OPAHRS_RESULT_OK.

Definition answer_with (p : period) : answer :=
  mkAnswer OPAHRS_RESULT_OK OPAHRS_RESULT_OK (rsp_serial.mk [1; 2; 3]) p.

(** The sample module after an edit of the magnetometer bias alone. *)
Definition mag_bias_edited : AHRSComms :=
  set_obj_AHRSCalibration
    (AHRSCalibration.mk AHRSCALIBRATION_MEASURE_VAR_SET
       zero3 zero3 zero3 zero3 zero3 zero3 one_two_three zero3 zero3)
    comms0.

(** The sample module after an edit of the magnetometer scale alone. *)
Definition mag_scale_edited : AHRSComms :=
  set_obj_AHRSCalibration
    (AHRSCalibration.mk AHRSCALIBRATION_MEASURE_VAR_SET
       zero3 zero3 zero3 zero3 zero3 zero3 zero3 one_two_three zero3)
    comms0.

(** Calibration latched earlier in the episode, then edited again. *)
Definition latched_and_dirty : AHRSComms :=
  set_AHRSCalibrationIsUpdatedFlag true
    (set_obj_AhrsStatus
       (AhrsStatus.set_CalibrationSet AHRSSTATUS_CALIBRATIONSET_TRUE status)
       comms0).

(** A period in which the AHRS answers the calibration push with mode
    AHRS_ECHO. *)
Definition echoing : period :=
  mkPeriod OPAHRS_RESULT_OK OPAHRS_RESULT_OK (rsp_calibration AHRS_ECHO)
    OPAHRS_RESULT_OK OPAHRS_RESULT_OK rsp_attituderaw OPAHRS_RESULT_OK rsp_update
    (req_north.mk zero3)
    (req_calibration.mk AHRS_SET zero3 zero3 zero3 zero3 zero3 zero3 zero3 zero3)
    (req_algorithm.mk SIMPLE_Algo)
    stale_update.

(** The sample module at the start of the task's life. *)
Definition fresh : AHRSComms := set_GPSGoodUpdates 0 comms0.

(** The sample module after 65535 failed home pushes. *)
Definition worn : AHRSComms := set_home_errors 65535 comms0.


(** The sample module with an algorithm selection outside the two the
    module knows. *)
Definition unknown_algorithm : AHRSComms :=
  set_obj_AHRSSettings (AHRSSettings.mk 2 0 1 20) comms0.

(** Stand-ins for the conversions of CoordinateConversions.c: a fixed
    displacement, and a yaw just below zero. *)
#[global] Instance conversions : CoordinateConversions := {
  LLA2Base := fun _ _ _ => one_two_three;
  Quaternion2RPY := fun _ => mkArray3 zero zero (Binary32.scaled (-1) (-20))
}.

End Sample.

(** ** The task among the other tasks *)

(** The five connections [AHRSCommsInitialize] makes (lines 133-137). *)
Inductive callback : Type :=
  | AHRSSettingsUpdated
  | BaroAltitudeUpdated
  | GPSPositionUpdated
  | HomeLocationUpdated
  | AHRSCalibrationUpdated.

(** The callback connected to each object. *)
Definition dispatch (cb : callback) : AHRSComms -> AHRSComms :=
  match cb with
  | AHRSSettingsUpdated => AHRSSettingsUpdatedCb
  | BaroAltitudeUpdated => BaroAltitudeUpdatedCb
  | GPSPositionUpdated => GPSPositionUpdatedCb
  | HomeLocationUpdated => HomeLocationUpdatedCb
  | AHRSCalibrationUpdated => AHRSCalibrationUpdatedCb
  end.

(** [n] notifications in a row. *)
Fixpoint notified (n : nat) (cb : callback) (s : AHRSComms) : AHRSComms :=
  match n with
  | O => s
  | S n => dispatch cb (notified n cb s)
  end.

(** Another task sets one of the objects the module reads. *)
Inductive edit : Type :=
  | EditAHRSSettings (d : AHRSSettings.Data)
  | EditBaroAltitude (d : BaroAltitude.Data)
  | EditGPSPosition (d : GPSPosition.Data)
  | EditHomeLocation (d : HomeLocation.Data)
  | EditAHRSCalibration (d : AHRSCalibration.Data)
  | EditAttitudeSettings (d : AttitudeSettings.Data).

Definition apply_edit (e : edit) : AHRSComms -> AHRSComms :=
  match e with
  | EditAHRSSettings d => set_obj_AHRSSettings d
  | EditBaroAltitude d => set_obj_BaroAltitude d
  | EditGPSPosition d => set_obj_GPSPosition d
  | EditHomeLocation d => set_obj_HomeLocation d
  | EditAHRSCalibration d => set_obj_AHRSCalibration d
  | EditAttitudeSettings d => set_obj_AttitudeSettings d
  end.

(** What can happen between two observations of the session: the task runs
    from its blocking point to the next one, the event dispatcher calls a
    connected callback, or another task sets an object.  The dispatcher
    runs a callback some time after the object was set, so the two are
    separate happenings. *)
Inductive happening : Type :=
  | Runs (a : answer)
  | Notified (cb : callback)
  | Edited (e : edit).

Definition happen {conversions : CoordinateConversions}
    (h : happening) (t : session) : session :=
  match h with
  | Runs a => step a t
  | Notified cb => mkSession (state t) (dispatch cb (comms t))
  | Edited e => mkSession (state t) (apply_edit e (comms t))
  end.

Fixpoint history {conversions : CoordinateConversions}
    (l : list happening) (t : session) : session :=
  match l with
  | [] => t
  | h :: l => history l (happen h t)
  end.

(** The sessions the task can be found in, whatever the variables and
    objects held when it started. *)
Definition reachable {conversions : CoordinateConversions} (t : session) : Prop :=
  exists (s : AHRSComms) (l : list happening), t = history l (task_start s).

(** A piece of the task relates the state it starts from to the state it
    leaves. *)
Definition throughout (R : AHRSComms -> AHRSComms -> Prop) {A : Type} (m : task A)
  : Prop :=
  forall s : AHRSComms, R s (final (m s)).

(** The objects the module only reads. *)
Definition read_only (s : AHRSComms)
  : AHRSSettings.Data * HomeLocation.Data * GPSPosition.Data
    * BaroAltitude.Data * AttitudeSettings.Data :=
  (obj_AHRSSettings s, obj_HomeLocation s, obj_GPSPosition s,
   obj_BaroAltitude s, obj_AttitudeSettings s).

(** The part of the calibration object the module does not write back. *)
Definition calibration_settings (d : AHRSCalibration.Data)
  : Z * (Array3 float * Array3 float) * (Array3 float * Array3 float)
    * (Array3 float * Array3 float) :=
  (AHRSCalibration.measure_var d,
   (AHRSCalibration.accel_bias d, AHRSCalibration.accel_scale d),
   (AHRSCalibration.gyro_bias d, AHRSCalibration.gyro_scale d),
   (AHRSCalibration.mag_bias d, AHRSCalibration.mag_scale d)).

(** What the status object publishes of the link's history. *)
Definition published (s : AHRSComms) : list Z * AhrsStatus.CommErrors_t :=
  (AhrsStatus.SerialNumber (obj_AhrsStatus s), AhrsStatus.CommErrors (obj_AhrsStatus s)).

(** The five counters as the status object would publish them. *)
Definition counters (s : AHRSComms) : AhrsStatus.CommErrors_t :=
  AhrsStatus.mkCommErrors (update_errors s) (attituderaw_errors s) (home_errors s)
    (calibration_errors s) (algorithm_errors s).

(** What the period leaves alone in every case. *)
Definition kept (s : AHRSComms) :=
  (read_only s, calibration_settings (obj_AHRSCalibration s), published s,
   alarm_AHRSCOMMS s, AHRSSettingsIsUpdatedFlag s).

(** The good-fix counter is within its range. *)
Definition counter_in_range (s : AHRSComms) : Prop := 0 <= GPSGoodUpdates s <= 30.

(** The categories of the exchanges of a trace. *)
Definition categories (tr : list exchange) : list category := map category_of tr.

(** The answer a calibration response would be if the AHRS echoed the
    variances of the request. *)
Definition echo_of (mode : measure_mode) (req : req_calibration.t) : rsp_calibration.t :=
  rsp_calibration.mk mode (req_calibration.accel_var req)
    (req_calibration.gyro_var req) (req_calibration.mag_var req).

(** GPS samples that pass through [load_gps_position] one after the other,
    with the tag each is given. *)
Definition tags {conversions : CoordinateConversions}
    (samples : list (req_update.t * GPSPosition.Data)) (s : AHRSComms) : list Z :=
  map req_update.quality (fst (feed_gps samples s)).

(** A piece of the task that, started where [P] holds, leaves [Q] if it
    falls through. *)
Definition triple (P : AHRSComms -> Prop) {A : Type} (m : task A)
    (Q : A -> AHRSComms -> Prop) : Prop :=
  forall s : AHRSComms,
    P s ->
    match outcome (m s) with
    | Next a => Q a (final (m s))
    | Break => True
    end.

(** Home and algorithm are synced, and no home or calibration edit is
    pending. *)
Definition settled (s : AHRSComms) : Prop :=
  HomeLocationIsUpdatedFlag s = false /\
  AhrsStatus.HomeSet (obj_AhrsStatus s) <> AHRSSTATUS_HOMESET_FALSE /\
  AHRSCalibrationIsUpdatedFlag s = false /\
  AhrsStatus.AlgorithmSet (obj_AhrsStatus s) <> AHRSSTATUS_ALGORITHMSET_FALSE.

(** Nothing is left to push or to fetch: the three domains are synced, no
    edit is pending, and both the raw and the filtered mode are off. *)
Definition idle (s : AHRSComms) : Prop :=
  settled s /\
  AhrsStatus.CalibrationSet (obj_AhrsStatus s) <> AHRSSTATUS_CALIBRATIONSET_FALSE /\
  AHRSSettingsIsUpdatedFlag s = false /\
  AHRSSettings.UpdateRaw (obj_AHRSSettings s) = 0 /\
  AHRSSettings.UpdateFiltered (obj_AHRSSettings s) = 0.

(** Two states that agree on what a period leaves alone. *)
Definition same_kept (s s' : AHRSComms) : Prop := kept s' = kept s.

(** What the four blocks before the combined update leave alone: they
    write neither the good-fix counter nor the two sample flags. *)
Definition carried (s : AHRSComms) :=
  (kept s, GPSGoodUpdates s, BaroAltitudeIsUpdatedFlag s, GPSPositionIsUpdatedFlag s).

Definition same_carried (s s' : AHRSComms) : Prop := carried s' = carried s.

Definition stays_in_range (s s' : AHRSComms) : Prop :=
  counter_in_range s -> counter_in_range s'.

(** Home is synced and no home edit is pending. *)
Definition home_settled (s : AHRSComms) : Prop :=
  HomeLocationIsUpdatedFlag s = false /\
  AhrsStatus.HomeSet (obj_AhrsStatus s) <> AHRSSTATUS_HOMESET_FALSE.

(** The alarm, the "synced" fields and the good-fix counter agree with the
    state of the session. *)
Definition coherent (t : session) : Prop :=
  (state t = STREAMING -> alarm_AHRSCOMMS (comms t) = SYSTEMALARMS_ALARM_OK) /\
  (state t <> STREAMING ->
   alarm_AHRSCOMMS (comms t) = SYSTEMALARMS_ALARM_CRITICAL /\ nothing_synced (comms t)) /\
  counter_in_range (comms t).

(** The transport answers every exchange that comes before the combined
    update in a period. *)
Definition reaches_update (p : period) : Prop :=
  Forall (fun c => result_ok (answer_of p c) = true)
    [COMMERRORS_HOMELOCATION; COMMERRORS_CALIBRATION; COMMERRORS_ALGORITHM;
     COMMERRORS_ATTITUDERAW].

(** ** Sample sessions *)

Module Scenario.

(** Every exchange answered. *)
Definition ok : answer := Sample.answer_with Sample.all_ok.

(** The combined update lost, everything before it answered. *)
Definition update_lost : answer := Sample.answer_with Sample.update_fails.

(** The AHRS does not answer the resync. *)
Definition deaf : answer :=
  mkAnswer OPAHRS_RESULT_TIMEOUT OPAHRS_RESULT_OK (rsp_serial.mk []) Sample.all_ok.

(** The sample module when the task starts, after the resync, and after the
    serial-number query. *)
Definition started : session := task_start Sample.comms0.
Definition identified : session := history [Runs ok] started.
Definition streaming : session := history [Runs ok; Runs ok] started.

(** The sample module with a settings edit notified. *)
Definition settings_edited : session :=
  mkSession STREAMING (AHRSSettingsUpdatedCb Sample.comms0).

(** The sample module indoors. *)
Definition indoors : AHRSComms :=
  set_obj_HomeLocation
    (HomeLocation.mk HOMELOCATION_SET_TRUE HOMELOCATION_INDOOR_TRUE
       Sample.zero3 (mkArray3 0 0 0) [])
    Sample.comms0.

(** The sample module after thirty good fixes. *)
Definition locked : AHRSComms := set_GPSGoodUpdates 30 Sample.comms0.

(** Everything synced, nothing pending, both update modes off. *)
Definition quiet : AHRSComms :=
  set_GPSPositionIsUpdatedFlag false
    (set_obj_AHRSSettings (AHRSSettings.mk AHRSSETTINGS_ALGORITHM_INSGPS 0 0 20)
       (set_obj_AhrsStatus
          (AhrsStatus.mk [] 0 0 0 0 (AhrsStatus.mkCommErrors 0 0 0 0 0)
             AHRSSTATUS_HOMESET_TRUE AHRSSTATUS_CALIBRATIONSET_TRUE
             AHRSSTATUS_ALGORITHMSET_TRUE)
          Sample.comms0)).

End Scenario.

(** * Properties *)

Section Resync.

Context {conversions : CoordinateConversions}.

(** ** Entering RESYNCING *)

Lemma enter_resyncing_nothing_synced (s : AHRSComms) :
  nothing_synced (enter_resyncing s).
Proof. repeat split. Qed.

Lemma enter_resyncing_alarm (s : AHRSComms) :
  alarm_AHRSCOMMS (enter_resyncing s) = SYSTEMALARMS_ALARM_CRITICAL.
Proof. reflexivity. Qed.

Lemma enter_resyncing_GPSGoodUpdates (s : AHRSComms) :
  GPSGoodUpdates (enter_resyncing s) = GPSGoodUpdates s.
Proof. reflexivity. Qed.

(** C1, as amended.  The task starts in RESYNCING with the three "synced"
    fields false and the good-fix counter at 0.  Every later entry into
    RESYNCING (from IDENTITY after a failed serial-number query, or from
    STREAMING after a period that broke) raises the alarm and sets the
    three "synced" fields to false before the first resync attempt, and
    writes nothing else: the module is what the failed query (which writes
    nothing) or the broken period left, with the head of the outer loop
    applied, and the good-fix counter has the value they left. *)
Theorem resyncing_entry (s : AHRSComms) (a : answer) (t : session) :
  state t <> RESYNCING ->
  state (step a t) = RESYNCING ->
  (state (task_start s) = RESYNCING /\
   nothing_synced (comms (task_start s)) /\
   GPSGoodUpdates (comms (task_start s)) = 0) /\
  (nothing_synced (comms (step a t)) /\
   alarm_AHRSCOMMS (comms (step a t)) = SYSTEMALARMS_ALARM_CRITICAL) /\
  (state t = IDENTITY ->
   comms (step a t) = enter_resyncing (comms t) /\
   GPSGoodUpdates (comms (step a t)) = GPSGoodUpdates (comms t)) /\
  (state t = STREAMING ->
   comms (step a t)
   = enter_resyncing (final (streaming_period (ans_period a) (comms t))) /\
   GPSGoodUpdates (comms (step a t))
   = GPSGoodUpdates (final (streaming_period (ans_period a) (comms t)))).
Proof.
  intros Hfrom Hto. split; [repeat split |].
  unfold step in *. destruct (state t); [congruence | |].
  - destruct (result_ok (ans_GetSerial a)); [discriminate |].
    split; [split; [apply enter_resyncing_nothing_synced | apply enter_resyncing_alarm] |].
    split; [intros _; split; reflexivity | discriminate].
  - destruct (outcome (streaming_period (ans_period a) (comms t)));
      [discriminate |].
    split; [split; [apply enter_resyncing_nothing_synced | apply enter_resyncing_alarm] |].
    split; [discriminate | intros _; split; reflexivity].
Qed.

End Resync.

(** A session that streamed one good fix and then lost the combined
    update is back in RESYNCING with one good fix still counted. *)
Lemma resyncing_entry_keeps_GPSGoodUpdates :
  let t :=
    steps [Sample.answer_with Sample.all_ok; Sample.answer_with Sample.all_ok;
           Sample.answer_with Sample.all_ok]
          (task_start Sample.comms0) in
  let t' := step (Sample.answer_with Sample.update_fails) t in
  state t = STREAMING /\ state t' = RESYNCING /\
  nothing_synced (comms t') /\
  GPSGoodUpdates (comms t') = 1 /\ GPSGoodUpdates (comms t') <> 0.
Proof. vm_compute. repeat split; discriminate. Qed.

Lemma resyncing_entry_witness :
  let t := mkSession STREAMING Sample.comms0 in
  let a := Sample.answer_with Sample.update_fails in
  nothing_synced (comms (step a t)) /\
  alarm_AHRSCOMMS (comms (step a t)) = SYSTEMALARMS_ALARM_CRITICAL /\
  GPSGoodUpdates (comms (step a t))
  = GPSGoodUpdates (final (streaming_period (ans_period a) (comms t))).
Proof.
  intros t a.
  destruct (resyncing_entry Sample.comms0 a t) as (_ & [H1 H2] & _ & H4).
  - discriminate.
  - vm_compute; reflexivity.
  - split; [exact H1 |]. split; [exact H2 | exact (proj2 (H4 eq_refl))].
Defined.

(** ** The calibration push *)

Lemma Array3_eta {A : Type} (a : Array3 A) :
  mkArray3 (elt0 a) (elt1 a) (elt2 a) = a.
Proof. destruct a; reflexivity. Qed.

(** C6, as amended.  The calibration request carries the accelerometer and
    gyroscope bias, scale and variance, and the magnetometer bias and
    variance, each copied from the calibration object; the magnetometer
    scale is the one vector that is not transmitted: two objects that
    differ only there give the same request. *)
Theorem load_calibration_fields (calibration : req_calibration.t) (s s' : AHRSComms) :
  same_but_mag_scale (obj_AHRSCalibration s) (obj_AHRSCalibration s') ->
  let data := obj_AHRSCalibration s in
  let req := load_calibration calibration s in
  req_calibration.accel_bias req = AHRSCalibration.accel_bias data /\
  req_calibration.accel_scale req = AHRSCalibration.accel_scale data /\
  req_calibration.accel_var req = AHRSCalibration.accel_var data /\
  req_calibration.gyro_bias req = AHRSCalibration.gyro_bias data /\
  req_calibration.gyro_scale req = AHRSCalibration.gyro_scale data /\
  req_calibration.gyro_var req = AHRSCalibration.gyro_var data /\
  req_calibration.mag_bias req = AHRSCalibration.mag_bias data /\
  req_calibration.mag_var req = AHRSCalibration.mag_var data /\
  load_calibration calibration s' = req.
Proof.
  intros [(Hm & Hab & Has & Hav & Hgb & Hgs & Hgv & Hmv) Hmb] data req.
  subst data req. unfold load_calibration. cbn [req_calibration.accel_bias
    req_calibration.accel_scale req_calibration.accel_var req_calibration.gyro_bias
    req_calibration.gyro_scale req_calibration.gyro_var req_calibration.mag_bias
    req_calibration.mag_var].
  rewrite !Array3_eta.
  repeat (split; [reflexivity |]).
  rewrite <- Hm, <- Hab, <- Has, <- Hav, <- Hgb, <- Hgs, <- Hgv, <- Hmv, <- Hmb.
  reflexivity.
Qed.

(** The magnetometer bias is transmitted: editing it alone changes the
    request. *)
Lemma load_calibration_sends_mag_bias :
  same_but_mag_bias_scale (obj_AHRSCalibration Sample.comms0)
                          (obj_AHRSCalibration Sample.mag_bias_edited) /\
  load_calibration (auto_calibration Sample.all_ok) Sample.comms0 <>
  load_calibration (auto_calibration Sample.all_ok) Sample.mag_bias_edited /\
  req_calibration.mag_bias
    (load_calibration (auto_calibration Sample.all_ok) Sample.mag_bias_edited)
  = Sample.one_two_three.
Proof.
  split; [repeat split |]. split; [| reflexivity].
  intro H. apply (f_equal req_calibration.mag_bias) in H.
  vm_compute in H. discriminate H.
Qed.

Lemma load_calibration_fields_witness :
  load_calibration (auto_calibration Sample.all_ok) Sample.mag_scale_edited
  = load_calibration (auto_calibration Sample.all_ok) Sample.comms0.
Proof.
  apply (load_calibration_fields (auto_calibration Sample.all_ok) Sample.comms0).
  repeat split.
Defined.

(** *** Echo suppression *)

Lemma AHRSCalibrationUpdatedCb_suppressed (s : AHRSComms) :
  AHRSCalibrationIsLocallyUpdateFlag s = true ->
  AHRSCalibrationIsLocallyUpdateFlag (AHRSCalibrationUpdatedCb s) = false /\
  AHRSCalibrationIsUpdatedFlag (AHRSCalibrationUpdatedCb s)
  = AHRSCalibrationIsUpdatedFlag s.
Proof.
  intros H. unfold AHRSCalibrationUpdatedCb. rewrite H. split; reflexivity.
Qed.

Lemma AHRSCalibrationUpdatedCb_dirty (s : AHRSComms) :
  AHRSCalibrationIsLocallyUpdateFlag s = false ->
  AHRSCalibrationIsLocallyUpdateFlag (AHRSCalibrationUpdatedCb s) = false /\
  AHRSCalibrationIsUpdatedFlag (AHRSCalibrationUpdatedCb s) = true.
Proof.
  intros H. unfold AHRSCalibrationUpdatedCb. rewrite H. split; [exact H | reflexivity].
Qed.

(** C8.  [update_calibration] raises the suppression flag and writes the
    echoed variances back; the next change notification of the calibration
    object finds the flag raised, clears it and leaves the dirty flag as it
    was, whatever caused the notification, so the module's own write does
    not re-arm the dirty flag; a notification that finds the suppression
    flag clear sets the dirty flag. *)
Theorem calibration_echo_suppression (calibration : rsp_calibration.t) (s s1 s2 : AHRSComms) :
  AHRSCalibrationIsLocallyUpdateFlag s1 = true ->
  AHRSCalibrationIsLocallyUpdateFlag s2 = false ->
  (AHRSCalibrationIsLocallyUpdateFlag (update_calibration calibration s) = true /\
   AHRSCalibration.accel_var (obj_AHRSCalibration (update_calibration calibration s))
   = rsp_calibration.accel_var calibration /\
   AHRSCalibration.gyro_var (obj_AHRSCalibration (update_calibration calibration s))
   = rsp_calibration.gyro_var calibration /\
   AHRSCalibration.mag_var (obj_AHRSCalibration (update_calibration calibration s))
   = rsp_calibration.mag_var calibration) /\
  (AHRSCalibrationIsLocallyUpdateFlag (AHRSCalibrationUpdatedCb s1) = false /\
   AHRSCalibrationIsUpdatedFlag (AHRSCalibrationUpdatedCb s1)
   = AHRSCalibrationIsUpdatedFlag s1) /\
  (AHRSCalibrationIsLocallyUpdateFlag
     (AHRSCalibrationUpdatedCb (update_calibration calibration s)) = false /\
   AHRSCalibrationIsUpdatedFlag
     (AHRSCalibrationUpdatedCb (update_calibration calibration s))
   = AHRSCalibrationIsUpdatedFlag s) /\
  (AHRSCalibrationIsUpdatedFlag (AHRSCalibrationUpdatedCb s2) = true /\
   AHRSCalibrationIsLocallyUpdateFlag (AHRSCalibrationUpdatedCb s2) = false).
Proof.
  intros H1 H2. split; [| split; [| split]].
  - unfold update_calibration; cbn. rewrite !Array3_eta. repeat split.
  - apply AHRSCalibrationUpdatedCb_suppressed, H1.
  - split; reflexivity.
  - destruct (AHRSCalibrationUpdatedCb_dirty s2 H2) as [Ha Hb]. split; assumption.
Qed.

Lemma calibration_echo_suppression_witness :
  AHRSCalibrationIsUpdatedFlag
    (AHRSCalibrationUpdatedCb
       (update_calibration (Sample.rsp_calibration AHRS_SET) Sample.comms0))
  = false /\
  AHRSCalibrationIsUpdatedFlag (AHRSCalibrationUpdatedCb Sample.comms0) = true.
Proof.
  destruct (calibration_echo_suppression (Sample.rsp_calibration AHRS_SET)
              Sample.comms0
              (set_AHRSCalibrationIsLocallyUpdateFlag true Sample.comms0)
              Sample.comms0) as (_ & _ & [_ H3] & [H4 _]).
  - reflexivity.
  - reflexivity.
  - split; [exact H3 | exact H4].
Defined.

(** *** Latching CalibrationSet *)

(** C7, as amended.  When the calibration push is attempted: after a
    successful exchange CalibrationSet is true if the echoed mode is not
    AHRS_ECHO, and is left as it was before the push if the echoed mode is
    AHRS_ECHO (false if it was false; the push does not set it either way);
    after a failed exchange CalibrationSet is false and the period is
    abandoned. *)
Theorem calibration_push_latch (p : period) (s : AHRSComms) :
  AHRSCalibrationIsUpdatedFlag s = true \/
  AhrsStatus.CalibrationSet (obj_AhrsStatus s) = AHRSSTATUS_CALIBRATIONSET_FALSE ->
  let r := update_calibration_if_necessary p s in
  let after := AhrsStatus.CalibrationSet (obj_AhrsStatus (final r)) in
  sent r = [SetGetCalibration (load_calibration (auto_calibration p) s)] /\
  if result_ok (ans_SetGetCalibration p)
  then
    outcome r = Next (obj_AhrsStatus (final r)) /\
    AHRSCalibrationIsUpdatedFlag (final r) = false /\
    (if measure_mode_eqb (rsp_calibration.measure_var (rsp_SetGetCalibration p)) AHRS_ECHO
     then after = AhrsStatus.CalibrationSet (obj_AhrsStatus s)
     else after = AHRSSTATUS_CALIBRATIONSET_TRUE)
  else
    outcome r = Break /\ after = AHRSSTATUS_CALIBRATIONSET_FALSE.
Proof.
  intros Hpush r after. subst r after.
  assert (Hcond : AHRSCalibrationIsUpdatedFlag s
                  || (AhrsStatus.CalibrationSet (obj_AhrsStatus s)
                      =? AHRSSTATUS_CALIBRATIONSET_FALSE) = true).
  { destruct Hpush as [H | H]; rewrite H; [reflexivity | apply orb_true_r]. }
  unfold update_calibration_if_necessary, bind, reads; cbn.
  rewrite Hcond; cbn.
  destruct (result_ok (ans_SetGetCalibration p)); cbn.
  - split; [reflexivity |].
    destruct (measure_mode_eqb _ AHRS_ECHO); cbn; repeat split.
  - repeat split.
Qed.

Lemma calibration_push_latch_witness :
  AhrsStatus.CalibrationSet
    (obj_AhrsStatus (final (update_calibration_if_necessary Sample.all_ok Sample.comms0)))
  = AHRSSTATUS_CALIBRATIONSET_TRUE.
Proof.
  apply (calibration_push_latch Sample.all_ok Sample.comms0).
  right; reflexivity.
Defined.

(** A successful push answered with AHRS_ECHO while CalibrationSet was
    already true leaves it true. *)
Lemma calibration_echo_keeps_latch :
  let r := update_calibration_if_necessary Sample.echoing Sample.latched_and_dirty in
  result_ok (ans_SetGetCalibration Sample.echoing) = true /\
  rsp_calibration.measure_var (rsp_SetGetCalibration Sample.echoing) = AHRS_ECHO /\
  length (sent r) = 1%nat /\
  AhrsStatus.CalibrationSet (obj_AhrsStatus (final r)) = AHRSSTATUS_CALIBRATIONSET_TRUE /\
  AhrsStatus.CalibrationSet (obj_AhrsStatus (final r)) <> AHRSSTATUS_CALIBRATIONSET_FALSE.
Proof. vm_compute. repeat split; discriminate. Qed.

(** ** The GPS preprocessor *)

Section GPS.

Context {conversions : CoordinateConversions}.

Lemma load_gps_position_home (update : req_update.t) (s : AHRSComms) :
  obj_HomeLocation (snd (load_gps_position update s)) = obj_HomeLocation s.
Proof.
  unfold load_gps_position.
  repeat match goal with |- context [if ?c then _ else _] => destruct c end;
    reflexivity.
Qed.

(** One sample that passes the gate, outdoor. *)
Lemma load_gps_position_pass (update : req_update.t) (s : AHRSComms) :
  outdoor (obj_HomeLocation s) = true ->
  gate (obj_GPSPosition s) = true ->
  0 <= GPSGoodUpdates s <= 30 ->
  req_update.quality (req_update.gps (fst (load_gps_position update s)))
  = tag_after (GPSGoodUpdates s) 0 /\
  GPSGoodUpdates (snd (load_gps_position update s))
  = Z.min (GPSGoodUpdates s + 1) 30.
Proof.
  unfold outdoor, gate, tag_after, load_gps_position. intros Hout Hgate Hc.
  apply negb_true_iff in Hout. rewrite Hout, Hgate.
  rewrite Z.add_0_r.
  destruct (GPSGoodUpdates s <? 30) eqn:Hlt; cbn.
  - apply Z.ltb_lt in Hlt. split; [reflexivity |].
    unfold incr32. rewrite Z.mod_small by lia. lia.
  - apply Z.ltb_ge in Hlt. split; [reflexivity | lia].
Qed.

(** One sample that fails the gate, outdoor. *)
Lemma load_gps_position_fail (update : req_update.t) (s : AHRSComms) :
  outdoor (obj_HomeLocation s) = true ->
  gate (obj_GPSPosition s) = false ->
  req_update.quality (req_update.gps (fst (load_gps_position update s))) = 0 /\
  GPSGoodUpdates (snd (load_gps_position update s)) = 0.
Proof.
  unfold outdoor, gate, load_gps_position. intros Hout Hgate.
  apply negb_true_iff in Hout. rewrite Hout, Hgate. split; reflexivity.
Qed.

Lemma tag_after_succ (c : Z) (k : nat) :
  0 <= c < 30 -> tag_after (c + 1) k = tag_after c (S k).
Proof.
  intros Hc. unfold tag_after. rewrite Nat2Z.inj_succ.
  replace (c + 1 + Z.of_nat k) with (c + Z.succ (Z.of_nat k)) by lia.
  reflexivity.
Qed.

Lemma tag_after_saturated (k : nat) : tag_after 30 k = tag_after 30 (S k).
Proof.
  unfold tag_after.
  destruct (30 + Z.of_nat k <? 30) eqn:H1; [apply Z.ltb_lt in H1; lia |].
  destruct (30 + Z.of_nat (S k) <? 30) eqn:H2; [apply Z.ltb_lt in H2; lia |].
  reflexivity.
Qed.

(** A run of passing fixes, from any value of the counter. *)
Lemma feed_gps_passing (samples : list (req_update.t * GPSPosition.Data)) :
  forall s,
    outdoor (obj_HomeLocation s) = true ->
    0 <= GPSGoodUpdates s <= 30 ->
    Forall (fun x => gate (snd x) = true) samples ->
    map req_update.quality (fst (feed_gps samples s))
    = map (tag_after (GPSGoodUpdates s)) (seq 0 (length samples)) /\
    GPSGoodUpdates (snd (feed_gps samples s))
    = Z.min (GPSGoodUpdates s + Z.of_nat (length samples)) 30 /\
    obj_HomeLocation (snd (feed_gps samples s)) = obj_HomeLocation s.
Proof.
  induction samples as [| [update data] rest IH]; intros s Hout Hc Hall.
  - cbn. repeat split. lia.
  - inversion Hall as [| x l Hgate Hrest]; subst. cbn [snd] in Hgate.
    cbn [feed_gps fst snd map length seq].
    set (s0 := set_obj_GPSPosition data s).
    assert (Hout0 : outdoor (obj_HomeLocation s0) = true) by exact Hout.
    assert (Hc0 : 0 <= GPSGoodUpdates s0 <= 30) by exact Hc.
    destruct (load_gps_position_pass update s0 Hout0 Hgate Hc0) as [Hq Hn].
    pose proof (load_gps_position_home update s0) as Hhome.
    set (s1 := snd (load_gps_position update s0)) in *.
    assert (Hout1 : outdoor (obj_HomeLocation s1) = true) by (rewrite Hhome; exact Hout0).
    assert (Hc1 : 0 <= GPSGoodUpdates s1 <= 30) by lia.
    destruct (IH s1 Hout1 Hc1 Hrest) as (IHq & IHn & IHh).
    change (GPSGoodUpdates s0) with (GPSGoodUpdates s) in *.
    split; [| split].
    + rewrite Hq, IHq. f_equal.
      rewrite <- seq_shift, map_map. apply map_ext. intros k.
      rewrite Hn.
      destruct (Z.eq_dec (GPSGoodUpdates s) 30) as [E | E].
      * rewrite E. change (Z.min (30 + 1) 30) with 30. apply tag_after_saturated.
      * rewrite Z.min_l by lia. apply tag_after_succ. lia.
    + rewrite IHn, Hn. rewrite Nat2Z.inj_succ. lia.
    + rewrite IHh, Hhome. reflexivity.
Qed.

Lemma feed_gps_app (l1 l2 : list (req_update.t * GPSPosition.Data)) :
  forall s,
    feed_gps (l1 ++ l2) s
    = (fst (feed_gps l1 s) ++ fst (feed_gps l2 (snd (feed_gps l1 s))),
       snd (feed_gps l2 (snd (feed_gps l1 s)))).
Proof.
  induction l1 as [| [update data] rest IH]; intros s.
  - cbn. destruct (feed_gps l2 s); reflexivity.
  - cbn [app feed_gps fst snd]. rewrite IH. reflexivity.
Qed.

(** C3, as amended.  Outdoor with home set, from a counter at 0, a run of
    fixes that pass the gate (satellites >= 7 and PDOP < 3.5) is tagged
    ramping for its first 30 samples and good from the 31st on: a sample
    is tagged good only when 30 passing samples have been counted before
    it.  The counter stops at 30.  The first fix that fails the gate is
    tagged ramping and puts the counter back to 0. *)
Theorem gps_hysteresis
    (samples : list (req_update.t * GPSPosition.Data))
    (update : req_update.t) (poor : GPSPosition.Data) (s : AHRSComms) :
  outdoor (obj_HomeLocation s) = true ->
  GPSGoodUpdates s = 0 ->
  Forall (fun x => gate (snd x) = true) samples ->
  gate poor = false ->
  let tags := map (fun k => if (k <? 30)%nat then 0 else 1) (seq 0 (length samples)) in
  map req_update.quality (fst (feed_gps samples s)) = tags /\
  GPSGoodUpdates (snd (feed_gps samples s)) = Z.min (Z.of_nat (length samples)) 30 /\
  map req_update.quality (fst (feed_gps (samples ++ [(update, poor)]) s)) = tags ++ [0] /\
  GPSGoodUpdates (snd (feed_gps (samples ++ [(update, poor)]) s)) = 0.
Proof.
  intros Hout Hzero Hall Hpoor tags.
  assert (Hc : 0 <= GPSGoodUpdates s <= 30) by lia.
  destruct (feed_gps_passing samples s Hout Hc Hall) as (Hq & Hn & Hh).
  assert (Htags : map (tag_after (GPSGoodUpdates s)) (seq 0 (length samples)) = tags).
  { subst tags. apply map_ext. intros k. unfold tag_after. rewrite Hzero.
    destruct (k <? 30)%nat eqn:Hk.
    - apply Nat.ltb_lt in Hk.
      destruct (0 + Z.of_nat k <? 30) eqn:E; [reflexivity | apply Z.ltb_ge in E; lia].
    - apply Nat.ltb_ge in Hk.
      destruct (0 + Z.of_nat k <? 30) eqn:E; [apply Z.ltb_lt in E; lia | reflexivity]. }
  rewrite Htags in Hq. rewrite Hzero in Hn.
  split; [exact Hq |]. split; [exact Hn |].
  rewrite feed_gps_app. cbn [fst snd feed_gps].
  set (s1 := snd (feed_gps samples s)) in *.
  assert (Hout1 : outdoor (obj_HomeLocation (set_obj_GPSPosition poor s1)) = true).
  { change (obj_HomeLocation (set_obj_GPSPosition poor s1)) with (obj_HomeLocation s1).
    rewrite Hh. exact Hout. }
  destruct (load_gps_position_fail update (set_obj_GPSPosition poor s1) Hout1 Hpoor)
    as [Hq0 Hn0].
  split.
  - rewrite map_app, Hq. cbn [map]. rewrite Hq0. reflexivity.
  - exact Hn0.
Qed.

(** C4, as amended.  A GPS sub-message tagged ramping comes from an
    outdoor sample of either ramping path, and its displacement, ground
    speed and heading are those the request buffer held before the load:
    these paths assign only [updated] and [quality]. *)
Theorem ramping_fields_unassigned (update : req_update.t) (s : AHRSComms) :
  req_update.quality (req_update.gps (fst (load_gps_position update s))) = 0 ->
  let gps := req_update.gps (fst (load_gps_position update s)) in
  outdoor (obj_HomeLocation s) = true /\
  (gate (obj_GPSPosition s) = true -> GPSGoodUpdates s < 30) /\
  req_update.gps_updated gps = TRUE /\
  req_update.NED gps = req_update.NED (req_update.gps update) /\
  req_update.groundspeed gps = req_update.groundspeed (req_update.gps update) /\
  req_update.heading gps = req_update.heading (req_update.gps update).
Proof.
  unfold outdoor, gate, load_gps_position.
  destruct ((HomeLocation.Set_ (obj_HomeLocation s) =? HOMELOCATION_SET_FALSE)
            || (HomeLocation.Indoor (obj_HomeLocation s) =? HOMELOCATION_INDOOR_TRUE));
    [cbn; discriminate |].
  destruct ((GPSPosition.Satellites (obj_GPSPosition s) >=? 7)
            && ltb (GPSPosition.PDOP (obj_GPSPosition s)) three_and_a_half).
  - destruct (GPSGoodUpdates s <? 30) eqn:Hlt; [| cbn; discriminate].
    apply Z.ltb_lt in Hlt. cbn. intros _. repeat split. intros _; exact Hlt.
  - cbn. intros _. repeat split. discriminate.
Qed.

End GPS.

(** With 8 satellites and PDOP 2.0 throughout, sample 30 is still tagged
    ramping; sample 31 is the first tagged good. *)
Lemma thirtieth_fix_is_ramping :
  let tags :=
    map req_update.quality
      (fst (feed_gps (repeat (Sample.stale_update, Sample.good_fix) 31) Sample.fresh)) in
  outdoor (obj_HomeLocation Sample.fresh) = true /\
  gate Sample.good_fix = true /\
  GPSGoodUpdates Sample.fresh = 0 /\
  nth 28 tags 9 = 0 /\ nth 29 tags 9 = 0 /\ nth 29 tags 9 <> 1 /\ nth 30 tags 9 = 1.
Proof. vm_compute. repeat split; discriminate. Qed.

Lemma gps_hysteresis_witness :
  map req_update.quality
    (fst (feed_gps (repeat (Sample.stale_update, Sample.good_fix) 31) Sample.fresh))
  = repeat 0 30 ++ [1] /\
  GPSGoodUpdates
    (snd (feed_gps (repeat (Sample.stale_update, Sample.good_fix) 31
                    ++ [(Sample.stale_update, Sample.poor_fix)]) Sample.fresh))
  = 0.
Proof.
  destruct (gps_hysteresis (repeat (Sample.stale_update, Sample.good_fix) 31)
              Sample.stale_update Sample.poor_fix Sample.fresh)
    as (H1 & _ & _ & H4).
  - reflexivity.
  - reflexivity.
  - repeat constructor.
  - reflexivity.
  - split; [exact H1 | exact H4].
Defined.

(** A ramping sample loaded into a buffer that holds an old displacement
    carries that displacement. *)
Lemma ramping_sample_carries_stale_NED :
  let gps := req_update.gps (fst (load_gps_position Sample.stale_update Sample.fresh)) in
  req_update.quality gps = 0 /\
  req_update.NED gps = Sample.one_two_three /\
  req_update.NED gps <> mkArray3 (of_int 0) (of_int 0) (of_int 0).
Proof. vm_compute. repeat split; discriminate. Qed.

Lemma ramping_fields_unassigned_witness :
  req_update.NED (req_update.gps (fst (load_gps_position Sample.stale_update Sample.fresh)))
  = req_update.NED (req_update.gps Sample.stale_update).
Proof.
  apply (ramping_fields_unassigned Sample.stale_update Sample.fresh).
  reflexivity.
Defined.

(** ** Failures while streaming *)

Lemma subseq_refl {A : Type} (l : list A) : subseq l l.
Proof. induction l; constructor; assumption. Qed.

Lemma subseq_nil_l {A : Type} (l : list A) : subseq [] l.
Proof. induction l; constructor; assumption. Qed.

Lemma subseq_app {A : Type} (l1 l1' l2 l2' : list A) :
  subseq l1 l1' -> subseq l2 l2' -> subseq (l1 ++ l2) (l1' ++ l2').
Proof.
  intros H1 H2. induction H1; cbn; [assumption | |]; constructor; assumption.
Qed.

Lemma subseq_app_nil {A : Type} (l1 l1' l2' : list A) :
  subseq l1 l1' -> subseq l1 (l1' ++ l2').
Proof.
  intros H. rewrite <- (app_nil_r l1). apply subseq_app; [exact H | apply subseq_nil_l].
Qed.

Lemma subseq_In {A : Type} (l1 l2 : list A) (x : A) :
  subseq l1 l2 -> In x l1 -> In x l2.
Proof.
  intros H. induction H; cbn; intros Hin.
  - exact Hin.
  - right; auto.
  - destruct Hin as [-> | Hin]; [left; reflexivity | right; auto].
Qed.

Lemma subseq_NoDup {A : Type} (l1 l2 : list A) :
  subseq l1 l2 -> NoDup l2 -> NoDup l1.
Proof.
  intros H. induction H; intros Hnd.
  - constructor.
  - inversion Hnd; subst; auto.
  - inversion Hnd as [| y l Hnotin Hrest]; subst. constructor; [| auto].
    intros Hin. apply Hnotin. eapply subseq_In; eassumption.
Qed.

Lemma period_order_NoDup : NoDup period_order.
Proof. unfold period_order. repeat constructor; cbn; intuition discriminate. Qed.

Lemma bind_outcome {A B : Type} (m : task A) (k : A -> task B) (s : AHRSComms) :
  outcome (bind m k s)
  = match outcome (m s) with
    | Next a => outcome (k a (final (m s)))
    | Break => Break
    end.
Proof. unfold bind. destruct (outcome (m s)); reflexivity. Qed.

Lemma bind_final {A B : Type} (m : task A) (k : A -> task B) (s : AHRSComms) :
  final (bind m k s)
  = match outcome (m s) with
    | Next a => final (k a (final (m s)))
    | Break => final (m s)
    end.
Proof. unfold bind. destruct (outcome (m s)); reflexivity. Qed.

Lemma bind_sent {A B : Type} (m : task A) (k : A -> task B) (s : AHRSComms) :
  sent (bind m k s)
  = match outcome (m s) with
    | Next a => sent (m s) ++ sent (k a (final (m s)))
    | Break => sent (m s)
    end.
Proof. unfold bind. destruct (outcome (m s)); reflexivity. Qed.

Lemma counted_once_trans (s s1 s2 : AHRSComms) (x : exchange) :
  (forall c, errors s1 c = errors s c) ->
  counted_once s1 s2 x -> counted_once s s2 x.
Proof. intros H1 H2 c. rewrite H2, H1. reflexivity. Qed.

(** Chains compose in sequence. *)
Lemma chain_bind (p : period) (cs1 cs2 : list category) {A B : Type}
    (m : task A) (k : A -> task B) :
  chain p cs1 m -> (forall a, chain p cs2 (k a)) -> chain p (cs1 ++ cs2) (bind m k).
Proof.
  intros Hm Hk s. destruct (Hm s) as [Hsub Hout].
  rewrite bind_outcome, bind_final, bind_sent.
  destruct (outcome (m s)) as [a |].
  - destruct Hout as [Hall Herr].
    destruct (Hk a (final (m s))) as [Hsub' Hout'].
    split; [rewrite map_app; apply subseq_app; assumption |].
    destruct (outcome (k a (final (m s)))).
    + destruct Hout' as [Hall' Herr']. split.
      * apply Forall_app; split; assumption.
      * intros c. rewrite Herr', Herr. reflexivity.
    + destruct Hout' as (tr & x & Hsent & Htr & Hans & Hcount).
      exists (sent (m s) ++ tr), x. split; [rewrite Hsent; apply app_assoc |].
      split; [apply Forall_app; split; assumption |].
      split; [exact Hans |]. eapply counted_once_trans; eassumption.
  - split; [apply subseq_app_nil; exact Hsub | exact Hout].
Qed.

Lemma chain_reads (p : period) {A : Type} (f : AHRSComms -> A) : chain p [] (reads f).
Proof.
  intros s. split; [apply subseq_nil |]. split; [constructor | intros c; reflexivity].
Qed.

(** Unfold a block of the period and decide each of its tests. *)
Ltac run_block :=
  unfold bind, reads, modify, call, transmit, ret, break_, AhrsStatusSet; cbn;
  repeat match goal with
         | |- context [if ?c then _ else _] =>
             match type of c with
             | bool => destruct c eqn:?; cbn
             end
         end.

(** Close the goals [run_block] leaves for a block of one category. *)
Ltac close_block :=
  split;
  [ first [ apply subseq_nil_l | apply subseq_refl ]
  | lazymatch goal with
    | |- _ /\ _ =>
        split;
        [ first
            [ apply Forall_nil
            | apply Forall_cons; [unfold answered; cbn; assumption | apply Forall_nil] ]
        | intros c; destruct c; reflexivity ]
    | |- exists _, _ =>
        exists nil; eexists; split; [reflexivity |];
        split; [apply Forall_nil |];
        split; [cbn; assumption | intros c; destruct c; reflexivity]
    end ].

Lemma update_home_chain (p : period) :
  chain p [COMMERRORS_HOMELOCATION] (update_home p).
Proof.
  intros s. unfold update_home, PIOS_OPAHRS_SetMagNorth. run_block; close_block.
Qed.

Lemma update_calibration_chain (p : period) :
  chain p [COMMERRORS_CALIBRATION] (update_calibration_if_necessary p).
Proof.
  intros s. unfold update_calibration_if_necessary, PIOS_OPAHRS_SetGetCalibration.
  run_block; close_block.
Qed.

Lemma update_algorithm_chain
    (p : period) (settings : AHRSSettings.Data) (data : AhrsStatus.Data) :
  chain p [COMMERRORS_ALGORITHM] (update_algorithm p settings data).
Proof.
  intros s. unfold update_algorithm, PIOS_OPAHRS_SetAlgorithm. run_block; close_block.
Qed.

Lemma grab_raw_chain (p : period) (settings : AHRSSettings.Data) :
  chain p [COMMERRORS_ATTITUDERAW] (grab_raw p settings).
Proof.
  intros s. unfold grab_raw, PIOS_OPAHRS_GetAttitudeRaw. run_block; close_block.
Qed.

Section Streaming.

Context {conversions : CoordinateConversions}.

Lemma load_update_chain (p : period) : chain p [] (load_update p).
Proof.
  intros s. unfold load_update, load_gps_position. run_block; close_block.
Qed.

Lemma transfer_update_chain (p : period) (req : req_update.t) :
  chain p [COMMERRORS_UPDATE] (transfer_update p req).
Proof.
  intros s. unfold transfer_update, PIOS_OPAHRS_SetGetUpdate. run_block; close_block.
Qed.

Lemma grab_filtered_chain (p : period) (settings : AHRSSettings.Data) :
  chain p [COMMERRORS_UPDATE] (grab_filtered p settings).
Proof.
  unfold grab_filtered.
  destruct (negb (AHRSSettings.UpdateFiltered settings =? 0)).
  - apply (chain_bind p [] [COMMERRORS_UPDATE]); [apply load_update_chain |].
    intros req. apply transfer_update_chain.
  - intros s. split; [apply subseq_nil_l |].
    split; [constructor | intros c; reflexivity].
Qed.

Lemma streaming_period_chain (p : period) :
  chain p period_order (streaming_period p).
Proof.
  unfold streaming_period.
  apply (chain_bind p [] period_order); [apply chain_reads |]. intros settings.
  apply (chain_bind p [COMMERRORS_HOMELOCATION]); [apply update_home_chain |].
  intros _.
  apply (chain_bind p [COMMERRORS_CALIBRATION]); [apply update_calibration_chain |].
  intros data.
  apply (chain_bind p [COMMERRORS_ALGORITHM]); [apply update_algorithm_chain |].
  intros _.
  apply (chain_bind p [COMMERRORS_ATTITUDERAW]); [apply grab_raw_chain |].
  intros _.
  apply grab_filtered_chain.
Qed.

Lemma enter_resyncing_errors (s : AHRSComms) (c : category) :
  errors (enter_resyncing s) c = errors s c.
Proof. destruct c; reflexivity. Qed.

(** C2, as amended.  When an exchange attempted in a STREAMING period is
    not answered with OK: the period breaks; that exchange is the last one
    handed to the transport, no exchange of its category was attempted
    before it and no category is attempted twice (no retry in place); the
    counter of its category is incremented by one modulo 2^16 (the counters
    are [uint16_t]) and the four others keep their values; the session is
    back in RESYNCING with the three "synced" fields false. *)
Theorem exchange_failure (a : answer) (s : AHRSComms) (x : exchange) :
  In x (sent (streaming_period (ans_period a) s)) ->
  result_ok (answer_of (ans_period a) (category_of x)) = false ->
  let r := streaming_period (ans_period a) s in
  let t := step a (mkSession STREAMING s) in
  outcome r = Break /\
  (exists tr, sent r = tr ++ [x] /\ ~ In (category_of x) (map category_of tr)) /\
  NoDup (map category_of (sent r)) /\
  (forall c : category,
      errors (final r) c
      = if category_eqb c (category_of x)
        then (errors s c + 1) mod 65536
        else errors s c) /\
  state t = RESYNCING /\
  nothing_synced (comms t) /\
  (forall c : category, errors (comms t) c = errors (final r) c).
Proof.
  intros Hin Hfail r t.
  destruct (streaming_period_chain (ans_period a) s) as [Hsub Hout].
  fold r in Hsub, Hout, Hin.
  assert (Hnd : NoDup (map category_of (sent r))).
  { eapply subseq_NoDup; [exact Hsub | apply period_order_NoDup]. }
  assert (Hnot : forall l, Forall (answered (ans_period a)) l -> ~ In x l).
  { intros l Hall Hx. rewrite Forall_forall in Hall. specialize (Hall x Hx).
    unfold answered in Hall. congruence. }
  subst t. unfold step. cbn [state comms]. fold r.
  destruct (outcome r) as [u |] eqn:Hr.
  - destruct Hout as [Hall _]. exfalso. exact (Hnot _ Hall Hin).
  - destruct Hout as (tr & x' & Hsent & Htr & Hans & Hcount).
    assert (Hx : x = x').
    { rewrite Hsent in Hin. apply in_app_or in Hin. destruct Hin as [Hin | Hin].
      - exfalso. exact (Hnot _ Htr Hin).
      - destruct Hin as [Hin | []]. symmetry; exact Hin. }
    subst x'. cbn [state comms].
    split; [reflexivity |]. split.
    { exists tr. split; [exact Hsent |].
      rewrite Hsent, map_app in Hnd. cbn [map] in Hnd.
      apply NoDup_remove_2 in Hnd. rewrite app_nil_r in Hnd. exact Hnd. }
    split; [exact Hnd |]. split; [exact Hcount |].
    split; [reflexivity |]. split; [apply enter_resyncing_nothing_synced |].
    intros c. apply enter_resyncing_errors.
Qed.


Lemma In_bind_sent {A B : Type} (m : task A) (k : A -> task B) (s : AHRSComms)
    (x : exchange) :
  In x (sent (bind m k s)) ->
  In x (sent (m s)) \/
  exists a, outcome (m s) = Next a /\ In x (sent (k a (final (m s)))).
Proof.
  rewrite bind_sent. destruct (outcome (m s)) as [a |].
  - intros Hin. apply in_app_or in Hin. destruct Hin as [Hin | Hin].
    + left; exact Hin.
    + right. exists a. split; [reflexivity | exact Hin].
  - intros Hin. left; exact Hin.
Qed.

(** What a chain sends is of the chain's categories. *)
Lemma chain_category (p : period) (cs : list category) {A : Type} (m : task A)
    (s : AHRSComms) (x : exchange) :
  chain p cs m -> In x (sent (m s)) -> In (category_of x) cs.
Proof.
  intros Hm Hin. destruct (Hm s) as [Hsub _].
  eapply subseq_In; [exact Hsub |]. apply in_map. exact Hin.
Qed.

(** *** The algorithm push *)

Lemma load_algorithm_other (req : req_algorithm.t) (settings : AHRSSettings.Data) :
  AHRSSettings.Algorithm settings <> AHRSSETTINGS_ALGORITHM_INSGPS ->
  AHRSSettings.Algorithm settings <> AHRSSETTINGS_ALGORITHM_SIMPLE ->
  load_algorithm req settings = req.
Proof.
  intros Hi Hs. unfold load_algorithm.
  apply Z.eqb_neq in Hi. apply Z.eqb_neq in Hs. rewrite Hi, Hs. reflexivity.
Qed.

Lemma update_algorithm_sent
    (p : period) (settings : AHRSSettings.Data) (data : AhrsStatus.Data)
    (s : AHRSComms) (x : exchange) :
  In x (sent (update_algorithm p settings data s)) ->
  x = SetAlgorithm (load_algorithm (auto_algorithm p) settings).
Proof.
  unfold update_algorithm, PIOS_OPAHRS_SetAlgorithm. run_block;
    intros Hin; cbn in Hin; intuition congruence.
Qed.

(** C10.  When the algorithm push is performed in a period whose selected
    algorithm is neither INSGPS nor SIMPLE, neither assignment to the
    algorithm field is executed: the request handed to the transport is
    the automatic buffer exactly as found, whatever it held. *)
Theorem algorithm_push_unassigned (p : period) (s : AHRSComms) (x : exchange) :
  In x (sent (streaming_period p s)) ->
  category_of x = COMMERRORS_ALGORITHM ->
  AHRSSettings.Algorithm (obj_AHRSSettings s) <> AHRSSETTINGS_ALGORITHM_INSGPS ->
  AHRSSettings.Algorithm (obj_AHRSSettings s) <> AHRSSETTINGS_ALGORITHM_SIMPLE ->
  x = SetAlgorithm (auto_algorithm p).
Proof.
  intros Hin Hcat Hi Hs. unfold streaming_period in Hin.
  apply In_bind_sent in Hin. destruct Hin as [[] | (settings & Hset & Hin)].
  injection Hset as <-.
  change (final (reads obj_AHRSSettings s)) with s in Hin.
  apply In_bind_sent in Hin. destruct Hin as [Hin | (u & _ & Hin)].
  { apply (chain_category p _ _ _ _ (update_home_chain p)) in Hin.
    rewrite Hcat in Hin. cbn in Hin. intuition discriminate. }
  apply In_bind_sent in Hin. destruct Hin as [Hin | (data & _ & Hin)].
  { apply (chain_category p _ _ _ _ (update_calibration_chain p)) in Hin.
    rewrite Hcat in Hin. cbn in Hin. intuition discriminate. }
  apply In_bind_sent in Hin. destruct Hin as [Hin | (u' & _ & Hin)].
  { apply update_algorithm_sent in Hin.
    rewrite (load_algorithm_other _ _ Hi Hs) in Hin. exact Hin. }
  apply In_bind_sent in Hin. destruct Hin as [Hin | (u'' & _ & Hin)].
  { apply (chain_category p _ _ _ _ (grab_raw_chain p _)) in Hin.
    rewrite Hcat in Hin. cbn in Hin. intuition discriminate. }
  apply (chain_category p _ _ _ _ (grab_filtered_chain p _)) in Hin.
  rewrite Hcat in Hin. cbn in Hin. intuition discriminate.
Qed.

End Streaming.

Lemma algorithm_push_unassigned_witness :
  nth 2 (sent (streaming_period Sample.all_ok Sample.unknown_algorithm)) GetAttitudeRaw
  = SetAlgorithm (auto_algorithm Sample.all_ok).
Proof.
  apply (algorithm_push_unassigned Sample.all_ok Sample.unknown_algorithm).
  - vm_compute. do 2 right. left. reflexivity.
  - reflexivity.
  - discriminate.
  - discriminate.
Defined.

(** The 65536th failure of the home push takes its counter from 65535 to
    0. *)
Lemma home_errors_wraps :
  let r := streaming_period Sample.home_fails Sample.worn in
  outcome r = Break /\
  length (sent r) = 1%nat /\
  home_errors Sample.worn = 65535 /\
  home_errors (final r) = 0 /\
  home_errors (final r) <> home_errors Sample.worn + 1.
Proof. vm_compute. repeat split; discriminate. Qed.

Lemma exchange_failure_witness :
  let a := Sample.answer_with Sample.update_fails in
  let r := streaming_period (ans_period a) Sample.comms0 in
  outcome r = Break /\
  update_errors (final r) = 1 /\
  state (step a (mkSession STREAMING Sample.comms0)) = RESYNCING.
Proof.
  intros a r.
  destruct (exchange_failure a Sample.comms0 (last (sent r) GetAttitudeRaw))
    as (H1 & _ & _ & H4 & H5 & _).
  - vm_compute. do 3 right. left. reflexivity.
  - reflexivity.
  - split; [exact H1 |]. split; [exact (H4 COMMERRORS_UPDATE) | exact H5].
Defined.

(** ** Rounding in binary32 *)

Lemma digits2_pos_size (p : positive) : digits2_pos p = Pos.size p.
Proof. induction p; cbn; congruence. Qed.

Lemma digits2_pos_log2 (p : positive) : Zpos (digits2_pos p) = Z.log2 (Zpos p) + 1.
Proof.
  rewrite digits2_pos_size. destruct p; cbn; try reflexivity; rewrite Pos2Z.inj_succ; lia.
Qed.

Lemma digits2_pos_bounds (p : positive) :
  2 ^ (Zpos (digits2_pos p) - 1) <= Zpos p < 2 ^ Zpos (digits2_pos p).
Proof.
  rewrite digits2_pos_log2.
  replace (Z.log2 (Zpos p) + 1 - 1) with (Z.log2 (Zpos p)) by lia.
  pose proof (Z.log2_spec (Zpos p) (Pos2Z.is_pos p)) as H.
  replace (Z.succ (Z.log2 (Zpos p))) with (Z.log2 (Zpos p) + 1) in H by lia. exact H.
Qed.

Lemma digits2_pos_unique (p : positive) (d : Z) :
  2 ^ (d - 1) <= Zpos p < 2 ^ d -> Zpos (digits2_pos p) = d.
Proof.
  intros H. rewrite digits2_pos_log2.
  assert (0 < d).
  { destruct (Z_lt_le_dec 0 d); [assumption |].
    destruct H as [_ H]. assert (2 ^ d <= 2 ^ 0) by (apply Z.pow_le_mono_r; lia).
    change (2 ^ 0) with 1 in *. lia. }
  rewrite (Z.log2_unique (Zpos p) (d - 1)); [lia | lia |].
  replace (Z.succ (d - 1)) with d by lia. exact H.
Qed.

Lemma shr_1_m (mrs : shr_record) :
  0 <= shr_m mrs -> shr_m (shr_1 mrs) = shr_m mrs / 2 /\ 0 <= shr_m (shr_1 mrs).
Proof.
  destruct mrs as [m r s]. cbn [shr_m]. intros Hm.
  assert (E : shr_m (shr_1 (Build_shr_record m r s)) = Z.div2 m).
  { destruct m as [| [p | p |] | p]; cbn; try reflexivity. lia. }
  rewrite E, Z.div2_div. split; [reflexivity | apply Z.div_pos; lia].
Qed.

Lemma pow2_xO (p : positive) : 2 ^ Zpos p~0 = 2 ^ Zpos p * 2 ^ Zpos p.
Proof.
  replace (Zpos p~0) with (Zpos p + Zpos p) by lia.
  apply Z.pow_add_r; lia.
Qed.

Lemma pow2_xI (p : positive) : 2 ^ Zpos p~1 = 2 * (2 ^ Zpos p * 2 ^ Zpos p).
Proof.
  replace (Zpos p~1) with (Z.succ (Zpos p~0)) by lia.
  rewrite Z.pow_succ_r by lia. rewrite pow2_xO. reflexivity.
Qed.

Lemma iter_shr_1_m (p : positive) :
  forall mrs, 0 <= shr_m mrs ->
    shr_m (iter_pos shr_1 p mrs) = shr_m mrs / 2 ^ Zpos p /\
    0 <= shr_m (iter_pos shr_1 p mrs).
Proof.
  induction p as [p IH | p IH |]; intros mrs Hm; cbn [iter_pos].
  - destruct (shr_1_m mrs Hm) as [E1 P1].
    destruct (IH _ P1) as [E2 P2]. destruct (IH _ P2) as [E3 P3].
    split; [| exact P3]. rewrite E3, E2, E1.
    rewrite !Z.div_div by (try apply Z.pow_pos_nonneg; lia).
    f_equal. symmetry. apply pow2_xI.
  - destruct (IH _ Hm) as [E2 P2]. destruct (IH _ P2) as [E3 P3].
    split; [| exact P3]. rewrite E3, E2.
    rewrite !Z.div_div by (try apply Z.pow_pos_nonneg; lia).
    f_equal. symmetry. apply pow2_xO.
  - destruct (shr_1_m mrs Hm) as [E1 P1]. split; [| exact P1]. exact E1.
Qed.

Lemma round_nearest_even_bounds (m : Z) (l : location) :
  m <= round_nearest_even m l <= m + 1.
Proof.
  destruct l as [| []]; cbn; try lia. destruct (Z.even m); lia.
Qed.

Lemma iter_xO (k : positive) (p : positive) :
  Zpos (Pos.iter xO p k) = Zpos p * 2 ^ Zpos k.
Proof.
  induction k as [| k IH] using Pos.peano_ind.
  - cbn. lia.
  - rewrite Pos.iter_succ, Pos2Z.inj_xO, IH, Pos2Z.inj_succ, Z.pow_succ_r by lia. ring.
Qed.

Lemma fexp32 (x : Z) : fexp 24 128 x = Z.max (x - 24) (-149).
Proof. reflexivity. Qed.

(** Rounding a mantissa that already sits at its canonical exponent. *)
Lemma binary_round_aux_exact (mz : positive) (ez : Z) :
  fexp 24 128 (Zpos (digits2_pos mz) + ez) = ez ->
  ez <= 104 ->
  binary_round_aux 24 128 false (Zpos mz) ez loc_Exact = S754_finite false mz ez.
Proof.
  intros Hcan Hez. unfold binary_round_aux, shr_fexp.
  cbn [Zdigits2 shr_record_of_loc]. rewrite Hcan, Z.sub_diag.
  cbn [shr shr_m loc_of_shr_record round_nearest_even Zdigits2 shr_record_of_loc].
  rewrite Hcan, Z.sub_diag. cbn [shr shr_m].
  replace (ez <=? 128 - 24) with true; [reflexivity |].
  symmetry. apply Z.leb_le. lia.
Qed.

(** Rounding a mantissa of more than 24 bits. *)
Lemma binary_round_aux_shift (mx : positive) (ex : Z) :
  let n := Zpos (digits2_pos mx) - 24 in
  let q := Zpos mx / 2 ^ n in
  0 < n ->
  -149 <= ex ->
  exists (m' : positive) (e' : Z),
    binary_round_aux 24 128 false (Zpos mx) ex loc_Exact
    = (if e' <=? 104 then S754_finite false m' e' else S754_infinity false) /\
    ((e' = ex + n /\ q <= Zpos m' <= q + 1 /\ Zpos m' < 2 ^ 24) \/
     (e' = ex + n + 1 /\ Zpos m' = 2 ^ 23 /\ q + 1 = 2 ^ 24)).
Proof.
  intros n q Hn Hex.
  pose proof (digits2_pos_bounds mx) as Hd.
  assert (Hq : 2 ^ 23 <= q < 2 ^ 24).
  { subst q.
    replace (Zpos (digits2_pos mx) - 1) with (23 + n) in Hd by (subst n; lia).
    replace (Zpos (digits2_pos mx)) with (24 + n) in Hd by (subst n; lia).
    rewrite !Z.pow_add_r in Hd by lia.
    assert (0 < 2 ^ n) by (apply Z.pow_pos_nonneg; lia).
    split.
    - apply Z.div_le_lower_bound; lia.
    - apply Z.div_lt_upper_bound; lia. }
  unfold binary_round_aux, shr_fexp. cbn [Zdigits2 shr_record_of_loc].
  rewrite fexp32.
  replace (Z.max (Zpos (digits2_pos mx) + ex - 24) (-149) - ex) with n by (subst n; lia).
  destruct n as [| pn |] eqn:En; try lia. cbn [shr].
  destruct (iter_shr_1_m pn (Build_shr_record (Zpos mx) false false)) as [Em _];
    [cbn; lia |].
  cbn [shr_m] in Em. fold q in Em.
  set (mrs := iter_pos shr_1 pn (Build_shr_record (Zpos mx) false false)) in *.
  pose proof (round_nearest_even_bounds (shr_m mrs) (loc_of_shr_record mrs)) as Hr.
  remember (round_nearest_even (shr_m mrs) (loc_of_shr_record mrs)) as m1 eqn:E1.
  rewrite Em in Hr.
  destruct m1 as [| p1 | p1]; try lia.
  cbn [Zdigits2]. rewrite fexp32.
  destruct (Z_lt_le_dec (Zpos p1) (2 ^ 24)) as [Hlt | Hge].
  - assert (Hd1 : Zpos (digits2_pos p1) = 24).
    { apply digits2_pos_unique. change (24 - 1) with 23. lia. }
    rewrite Hd1.
    replace (Z.max (24 + (ex + Zpos pn) - 24) (-149) - (ex + Zpos pn)) with 0 by lia.
    cbn [shr shr_m].
    exists p1, (ex + Zpos pn). split; [reflexivity |]. left. lia.
  - assert (Hp1 : Zpos p1 = 2 ^ 24) by lia.
    assert (Hd1 : Zpos (digits2_pos p1) = 25).
    { apply digits2_pos_unique. rewrite Hp1. change (25 - 1) with 24.
      split; [lia |]. apply Z.pow_lt_mono_r; lia. }
    rewrite Hd1.
    replace (Z.max (25 + (ex + Zpos pn) - 24) (-149) - (ex + Zpos pn)) with 1 by lia.
    assert (Ep : p1 = 16777216%positive) by (change (2 ^ 24) with 16777216 in Hp1; lia).
    rewrite Ep.
    cbn [shr iter_pos shr_1 shr_record_of_loc shr_m orb].
    exists 8388608%positive, (ex + Zpos pn + 1).
    split; [reflexivity |]. right. split; [reflexivity |]. split; [reflexivity |].
    change (2 ^ 24) with 16777216 in *. lia.
Qed.

(** Rounding a positive value below the normal number [B * 2^E] gives a
    number at most [B * 2^E]. *)
Lemma binary_round_below (mx B : positive) (ex E : Z) :
  -149 <= ex <= E -> E <= 104 ->
  2 ^ 23 <= Zpos B < 2 ^ 24 ->
  Zpos mx < Zpos B * 2 ^ (E - ex) ->
  exists (m' : positive) (e' : Z),
    binary_round 24 128 false mx ex = S754_finite false m' e' /\
    (e' < E \/ (e' = E /\ Zpos m' <= Zpos B)).
Proof.
  intros Hex HE HB Hmx.
  pose proof (digits2_pos_bounds mx) as Hd.
  set (d := Zpos (digits2_pos mx)) in *.
  assert (Hpow : 0 < 2 ^ (E - ex)) by (apply Z.pow_pos_nonneg; lia).
  assert (Hdle : d + ex - 24 <= E).
  { assert (H : 2 ^ (d - 1) < 2 ^ (24 + (E - ex))).
    { rewrite Z.pow_add_r by lia. nia. }
    apply Z.pow_lt_mono_r_iff in H; lia. }
  unfold binary_round. fold d. rewrite fexp32. unfold shl_align.
  destruct (Z.max (d + ex - 24) (-149) - ex) as [| n | k] eqn:En.
  - exists mx, ex. split.
    + apply binary_round_aux_exact; [fold d; rewrite fexp32; lia | lia].
    + destruct (Z.eq_dec ex E) as [-> | Hne]; [| left; lia].
      right. split; [reflexivity |].
      rewrite Z.sub_diag in Hmx. change (2 ^ 0) with 1 in Hmx. lia.
  - assert (Hn : Zpos n = d - 24) by lia.
    destruct (binary_round_aux_shift mx ex) as (m' & e' & Hres & Hcases);
      [fold d; lia | lia |].
    fold d in Hcases. rewrite <- Hn in Hcases.
    set (q := Zpos mx / 2 ^ Zpos n) in *.
    assert (Hqlt : ex + Zpos n = E -> q < Zpos B).
    { intros HeqE. subst q. apply Z.div_lt_upper_bound; [apply Z.pow_pos_nonneg; lia |].
      replace (Zpos n) with (E - ex) by lia. lia. }
    assert (He' : e' <= E).
    { destruct Hcases as [(-> & _) | (-> & _ & Hcarry)]; [lia |].
      destruct (Z.eq_dec (ex + Zpos n) E) as [HeqE | Hne]; [| lia].
      specialize (Hqlt HeqE). lia. }
    exists m', e'. split.
    + rewrite Hres. replace (e' <=? 104) with true; [reflexivity |].
      symmetry. apply Z.leb_le. lia.
    + destruct (Z.eq_dec e' E) as [HeqE | Hne]; [| left; lia].
      right. split; [exact HeqE |].
      destruct Hcases as [(He & Hm & _) | (_ & Hm & _)].
      * rewrite He in HeqE. specialize (Hqlt HeqE). lia.
      * rewrite Hm. lia.
  - exists (Pos.iter xO mx k), (Z.max (d + ex - 24) (-149)). split.
    + apply binary_round_aux_exact; [| lia].
      assert (Hdk : Zpos (digits2_pos (Pos.iter xO mx k)) = d + Zpos k).
      { apply digits2_pos_unique. rewrite iter_xO.
        replace (d + Zpos k - 1) with (d - 1 + Zpos k) by lia.
        rewrite !Z.pow_add_r by (try (subst d); lia).
        assert (0 < 2 ^ Zpos k) by (apply Z.pow_pos_nonneg; lia). nia. }
      rewrite Hdk, fexp32. lia.
    + left. lia.
Qed.

Lemma valid_binary32_finite (s : bool) (m : positive) (e : Z) :
  valid_binary 24 128 (S754_finite s m e) = true ->
  -149 <= e <= 104 /\ Zpos m < 2 ^ 24.
Proof.
  cbn [valid_binary]. unfold bounded, canonical_mantissa. intros H.
  apply andb_true_iff in H. destruct H as [Hc He].
  apply Z.eqb_eq in Hc. apply Z.leb_le in He. rewrite fexp32 in Hc.
  change (128 - 24) with 104 in He.
  split; [lia |].
  pose proof (digits2_pos_bounds m) as Hd.
  assert (Hle : Zpos (digits2_pos m) <= 24) by lia.
  apply Z.lt_le_trans with (1 := proj2 Hd).
  apply Z.pow_le_mono_r; lia.
Qed.

(** B * 2^E <= m * 2^e read on two negative numbers. *)
Lemma SFleb_negative (B m : positive) (E e : Z) :
  SFleb (S754_finite true B E) (S754_finite true m e) = true ->
  e < E \/ (e = E /\ Zpos m <= Zpos B).
Proof.
  unfold SFleb, SFcompare. rewrite Pos.compare_cont_spec.
  destruct (Z.compare_spec E e) as [He | He | He].
  - intros H. right. split; [lia |].
    destruct (Pos.compare_spec B m) as [Hm | Hm | Hm]; cbn in H;
      try discriminate; lia.
  - discriminate.
  - intros _. left. lia.
Qed.

(** m * 2^e <= B * 2^E read on two positive numbers. *)
Lemma SFleb_positive (B m : positive) (E e : Z) :
  e < E \/ (e = E /\ Zpos m <= Zpos B) ->
  SFleb (S754_finite false m e) (S754_finite false B E) = true.
Proof.
  intros H. unfold SFleb, SFcompare. rewrite Pos.compare_cont_spec.
  destruct (Z.compare_spec e E) as [He | He | He].
  - destruct (Pos.compare_spec m B) as [Hm | Hm | Hm]; try reflexivity; lia.
  - reflexivity.
  - lia.
Qed.

(** Adding 360 to a negative number not below -360. *)
Lemma add_360_range (m : positive) (e : Z) :
  valid_binary 24 128 (S754_finite true m e) = true ->
  SFleb (S754_finite true 11796480 (-15)) (S754_finite true m e) = true ->
  SFleb (S754_zero false)
        (SFadd 24 128 (S754_finite true m e) (S754_finite false 11796480 (-15))) = true /\
  SFleb (SFadd 24 128 (S754_finite true m e) (S754_finite false 11796480 (-15)))
        (S754_finite false 11796480 (-15)) = true.
Proof.
  intros Hvalid Hge.
  destruct (valid_binary32_finite _ _ _ Hvalid) as [He Hm].
  apply SFleb_negative in Hge.
  unfold SFadd. rewrite Z.min_l by lia.
  assert (Hbig : Zpos (fst (shl_align 11796480 (-15) e)) = 11796480 * 2 ^ (-15 - e)).
  { unfold shl_align. destruct (e - -15) as [| k | k] eqn:Ek; try lia; cbn [fst].
    - replace (-15 - e) with 0 by lia. reflexivity.
    - rewrite iter_xO. f_equal. f_equal. lia. }
  assert (Hself : fst (shl_align m e e) = m).
  { unfold shl_align. rewrite Z.sub_diag. reflexivity. }
  rewrite Hself. unfold cond_Zopp.
  set (big := fst (shl_align 11796480 (-15) e)) in *.
  assert (Hpow : 0 < 2 ^ (-15 - e)) by (apply Z.pow_pos_nonneg; lia).
  assert (Hsum : 0 <= - Zpos m + Zpos big < 11796480 * 2 ^ (-15 - e)).
  { rewrite Hbig. split; [| lia].
    destruct Hge as [Hlt | [Heq Hle]].
    - assert (2 ^ 1 <= 2 ^ (-15 - e)) by (apply Z.pow_le_mono_r; lia).
      change (2 ^ 1) with 2 in *. change (2 ^ 24) with 16777216 in Hm. lia.
    - replace (-15 - e) with 0 by lia. change (2 ^ 0) with 1. lia. }
  destruct (- Zpos m + Zpos big) as [| pm | pm] eqn:Esum; try lia.
  - cbn [binary_normalize]. split; reflexivity.
  - cbn [binary_normalize].
    destruct (binary_round_below pm 11796480 e (-15)) as (m' & e' & Hres & Hle);
      [lia | lia | change (2 ^ 23) with 8388608; change (2 ^ 24) with 16777216; lia
       | lia |].
    rewrite Hres. split; [reflexivity | apply SFleb_positive; exact Hle].
Qed.

(** ** Rounding error in binary32 *)




Section Round.

Variables prec emax : Z.
Hypothesis prec_gt_1 : 1 < prec.



End Round.

Local Open Scope R_scope.


(** *** Powers of two *)












(** *** The value of a mantissa and an exponent *)





(** *** Closeness *)


Section RoundReal.

Variables prec emax : Z.
Hypothesis prec_gt_1 : (1 < prec)%Z.


End RoundReal.







Section Operations.

Variables prec emax : Z.
Hypothesis prec_gt_1 : (1 < prec)%Z.




End Operations.

(** *** The operations of binary32 *)






(** *** Accumulated rounding *)











(** *** The square root *)





(** *** Accumulated rounding, continued *)







(** *** Values *)











(** *** Moderate components *)






(** *** The sum of the squares *)





(** *** The length *)



(** *** The quotients *)




(** *** The loaded vector *)







Local Close Scope R_scope.

(** ** The magnetic reference *)




(** A reference below the range: (2^-74, 2^-75, 2^-75) is not the zero
    vector; two of its squares round to zero, and it loads (1, 0.5, 0.5). *)
Remark small_reference_not_unit :
  unit_north (mkArray3 (Binary32.scaled 1 (-74)) (Binary32.scaled 1 (-75))
                       (Binary32.scaled 1 (-75)))
  = mkArray3 (of_int 1) (Binary32.scaled 1 (-1)) (Binary32.scaled 1 (-1)).
Proof. vm_compute. reflexivity. Qed.

(** ** The attitude *)

(** In binary32 a yaw in [-360, 360] is brought into [0, 360]. *)
Lemma wrap_yaw_binary32 (y : float) :
  Binary32.valid y = true ->
  SFleb (of_int (-360)) y = true ->
  SFleb y (of_int 360) = true ->
  SFleb (of_int 0) (wrap_yaw y) = true /\ SFleb (wrap_yaw y) (of_int 360) = true.
Proof.
  intros Hvalid Hlo Hhi. unfold wrap_yaw.
  change (Binary32.valid y) with (valid_binary 24 128 y) in Hvalid.
  change (@of_int float _ 360) with (S754_finite false 11796480 (-15)) in *.
  change (@of_int float _ (-360)) with (S754_finite true 11796480 (-15)) in *.
  change (@of_int float _ 0) with (S754_zero false) in *.
  destruct y as [sy | sy | | sy m e].
  - split; [reflexivity | exact Hhi].
  - destruct sy; discriminate.
  - discriminate.
  - destruct sy.
    + change (ltb (S754_finite true m e) (S754_zero false)) with true. cbn iota.
      apply add_360_range; assumption.
    + split; [reflexivity | exact Hhi].
Qed.

Section Attitude.

Context {conversions : CoordinateConversions}.

(** C9, as amended.  The published roll and pitch are the converted roll
    and pitch minus the configured biases; no bias is subtracted from the
    yaw, which is published unchanged unless it is negative, and with 360
    added (one binary32 addition) if it is.  For a converted yaw within
    [-360, 360] the published yaw lies in [0, 360]: the upper end is
    included, because the sum of 360 and a small negative yaw rounds to
    360. *)
Theorem published_attitude (update : rsp_update.t) (s : AHRSComms) :
  Binary32.valid (elt2 (converted_rpy update)) = true ->
  SFleb (of_int (-360)) (elt2 (converted_rpy update)) = true ->
  SFleb (elt2 (converted_rpy update)) (of_int 360) = true ->
  let rpy := converted_rpy update in
  let data := obj_AttitudeActual (process_update update s) in
  AttitudeActual.Roll data
  = sub (elt0 rpy) (AttitudeSettings.RollBias (obj_AttitudeSettings s)) /\
  AttitudeActual.Pitch data
  = sub (elt1 rpy) (AttitudeSettings.PitchBias (obj_AttitudeSettings s)) /\
  AttitudeActual.Yaw data
  = (if ltb (elt2 rpy) (of_int 0) then add (elt2 rpy) (of_int 360) else elt2 rpy) /\
  SFleb (of_int 0) (AttitudeActual.Yaw data) = true /\
  SFleb (AttitudeActual.Yaw data) (of_int 360) = true.
Proof.
  intros Hvalid Hlo Hhi rpy data.
  split; [reflexivity |]. split; [reflexivity |]. split; [reflexivity |].
  exact (wrap_yaw_binary32 _ Hvalid Hlo Hhi).
Qed.

End Attitude.

(** A converted yaw of -2^-20 is published as exactly 360. *)
Lemma small_negative_yaw_publishes_360 :
  let yaw := elt2 (converted_rpy Sample.rsp_update) in
  let published :=
    AttitudeActual.Yaw
      (obj_AttitudeActual (process_update Sample.rsp_update Sample.comms0)) in
  yaw = Binary32.scaled (-1) (-20) /\
  Binary32.valid yaw = true /\
  SFleb (of_int (-360)) yaw = true /\
  published = of_int 360 /\
  SFltb published (of_int 360) = false.
Proof. vm_compute. repeat split. Qed.

Lemma published_attitude_witness :
  let published :=
    AttitudeActual.Yaw
      (obj_AttitudeActual (process_update Sample.rsp_update Sample.comms0)) in
  SFleb (of_int 0) published = true /\ SFleb published (of_int 360) = true.
Proof.
  intros published.
  destruct (published_attitude Sample.rsp_update Sample.comms0)
    as (_ & _ & _ & H4 & H5).
  - reflexivity.
  - reflexivity.
  - reflexivity.
  - split; [exact H4 | exact H5].
Defined.

(** * The task as a whole *)

(** ** Composition *)

Lemma bind_next {A B : Type} (m : task A) (k : A -> task B) (s : AHRSComms) (b : B) :
  outcome (bind m k s) = Next b ->
  exists a, outcome (m s) = Next a /\ outcome (k a (final (m s))) = Next b.
Proof.
  rewrite bind_outcome. destruct (outcome (m s)) as [a |]; [| discriminate].
  intros H. exists a. split; [reflexivity | exact H].
Qed.

Lemma bind_sent_next {A B : Type} (m : task A) (k : A -> task B) (s : AHRSComms) (a : A) :
  outcome (m s) = Next a ->
  sent (bind m k s) = sent (m s) ++ sent (k a (final (m s))) /\
  final (bind m k s) = final (k a (final (m s))).
Proof. intros H. rewrite bind_sent, bind_final, H. split; reflexivity. Qed.

(** A piece that falls through without a word hands over to the next. *)
Lemma bind_run {A B : Type} (m : task A) (k : A -> task B) (s s' : AHRSComms) (a : A) :
  m s = mkRun (Next a) s' [] -> bind m k s = k a s'.
Proof.
  intros H. unfold bind. rewrite H. cbn. destruct (k a s'); reflexivity.
Qed.

Lemma In_sent_bind_l {A B : Type} (m : task A) (k : A -> task B) (s : AHRSComms)
    (x : exchange) :
  In x (sent (m s)) -> In x (sent (bind m k s)).
Proof.
  intros Hin. rewrite bind_sent. destruct (outcome (m s)); [| exact Hin].
  apply in_or_app. left; exact Hin.
Qed.

Lemma In_sent_bind_r {A B : Type} (m : task A) (k : A -> task B) (s : AHRSComms)
    (a : A) (x : exchange) :
  outcome (m s) = Next a -> In x (sent (k a (final (m s)))) -> In x (sent (bind m k s)).
Proof.
  intros Hout Hin. rewrite bind_sent, Hout. apply in_or_app. right; exact Hin.
Qed.

Lemma throughout_bind (R : AHRSComms -> AHRSComms -> Prop) {A B : Type}
    (m : task A) (k : A -> task B) :
  (forall a b c, R a b -> R b c -> R a c) ->
  throughout R m ->
  (forall s a, outcome (m s) = Next a -> R (final (m s)) (final (k a (final (m s))))) ->
  throughout R (bind m k).
Proof.
  intros Htrans Hm Hk s. rewrite bind_final.
  destruct (outcome (m s)) as [a |] eqn:Hout; [| apply Hm].
  eapply Htrans; [apply Hm | apply Hk; exact Hout].
Qed.

Lemma triple_bind (P : AHRSComms -> Prop) {A B : Type} (m : task A) (k : A -> task B)
    (Q : A -> AHRSComms -> Prop) (R : B -> AHRSComms -> Prop) :
  triple P m Q -> (forall a, triple (Q a) (k a) R) -> triple P (bind m k) R.
Proof.
  intros Hm Hk s HP. specialize (Hm s HP).
  rewrite bind_outcome, bind_final.
  destruct (outcome (m s)) as [a |]; [| exact I].
  exact (Hk a _ Hm).
Qed.

(** A block of one category falls through when the transport answers that
    category. *)
Lemma chain_next (p : period) (c : category) {A : Type} (m : task A) (s : AHRSComms) :
  chain p [c] m ->
  result_ok (answer_of p c) = true ->
  exists a : A, outcome (m s) = Next a.
Proof.
  intros Hm Hok. pose proof (chain_category p [c] m s) as Hcat.
  destruct (Hm s) as [_ Hout].
  destruct (outcome (m s)) as [a |]; [exists a; reflexivity |].
  destruct Hout as (tr & x & Hsent & _ & Hfail & _).
  specialize (Hcat x Hm). rewrite Hsent in Hcat.
  assert (Hin : In x (tr ++ [x])) by (apply in_or_app; right; left; reflexivity).
  destruct (Hcat Hin) as [E | []].
  rewrite E in Hok. congruence.
Qed.

(** ** What a period leaves alone *)

Lemma same_carried_parts (s s' : AHRSComms) :
  same_carried s s' ->
  same_kept s s' /\
  GPSGoodUpdates s' = GPSGoodUpdates s /\
  BaroAltitudeIsUpdatedFlag s' = BaroAltitudeIsUpdatedFlag s /\
  GPSPositionIsUpdatedFlag s' = GPSPositionIsUpdatedFlag s.
Proof.
  unfold same_carried, carried, same_kept. intros H. split; [| split; [| split]].
  - exact (f_equal (fun x => fst (fst (fst x))) H).
  - exact (f_equal (fun x => snd (fst (fst x))) H).
  - exact (f_equal (fun x => snd (fst x)) H).
  - exact (f_equal (fun x => snd x) H).
Qed.

Lemma same_carried_kept (s s' : AHRSComms) : same_carried s s' -> same_kept s s'.
Proof. intros H. apply same_carried_parts in H. apply H. Qed.

Lemma same_carried_trans (a b c : AHRSComms) :
  same_carried a b -> same_carried b c -> same_carried a c.
Proof. unfold same_carried. congruence. Qed.

Lemma same_kept_parts (s s' : AHRSComms) :
  same_kept s s' ->
  read_only s' = read_only s /\
  calibration_settings (obj_AHRSCalibration s') = calibration_settings (obj_AHRSCalibration s) /\
  published s' = published s /\
  alarm_AHRSCOMMS s' = alarm_AHRSCOMMS s /\
  AHRSSettingsIsUpdatedFlag s' = AHRSSettingsIsUpdatedFlag s.
Proof.
  unfold same_kept. intros H. split; [| split; [| split; [| split]]].
  - exact (f_equal (fun x => fst (fst (fst (fst x)))) H).
  - exact (f_equal (fun x => snd (fst (fst (fst x)))) H).
  - exact (f_equal (fun x => snd (fst (fst x))) H).
  - exact (f_equal (fun x => snd (fst x)) H).
  - exact (f_equal (fun x => snd x) H).
Qed.

Lemma same_kept_trans (a b c : AHRSComms) : same_kept a b -> same_kept b c -> same_kept a c.
Proof. unfold same_kept. congruence. Qed.

Lemma same_carried_flag (s s' : AHRSComms) :
  same_carried s s' -> AHRSSettingsIsUpdatedFlag s' = AHRSSettingsIsUpdatedFlag s.
Proof.
  intros H. apply same_carried_kept, same_kept_parts in H.
  destruct H as (_ & _ & _ & _ & H). exact H.
Qed.

Lemma read_only_parts (s s' : AHRSComms) :
  read_only s' = read_only s ->
  obj_AHRSSettings s' = obj_AHRSSettings s /\
  obj_HomeLocation s' = obj_HomeLocation s /\
  obj_GPSPosition s' = obj_GPSPosition s.
Proof.
  unfold read_only. intros H. split; [| split].
  - exact (f_equal (fun x => fst (fst (fst (fst x)))) H).
  - exact (f_equal (fun x => snd (fst (fst (fst x)))) H).
  - exact (f_equal (fun x => snd (fst (fst x))) H).
Qed.

Lemma update_home_carried (p : period) : throughout same_carried (update_home p).
Proof.
  intros s. unfold same_carried, update_home, PIOS_OPAHRS_SetMagNorth.
  run_block; reflexivity.
Qed.

Lemma update_calibration_carried (p : period) :
  throughout same_carried (update_calibration_if_necessary p).
Proof.
  intros s.
  unfold same_carried, update_calibration_if_necessary, PIOS_OPAHRS_SetGetCalibration.
  run_block; reflexivity.
Qed.

(** The copy of the status object the calibration block hands on is the
    object as the block leaves it. *)
Lemma update_calibration_returns_status (p : period) (s : AHRSComms) (data : AhrsStatus.Data) :
  outcome (update_calibration_if_necessary p s) = Next data ->
  data = obj_AhrsStatus (final (update_calibration_if_necessary p s)).
Proof.
  unfold update_calibration_if_necessary, PIOS_OPAHRS_SetGetCalibration.
  run_block; intros H; try discriminate; injection H as <-; reflexivity.
Qed.

Lemma update_algorithm_carried (p : period) (settings : AHRSSettings.Data) (s : AHRSComms) :
  same_carried s (final (update_algorithm p settings (obj_AhrsStatus s) s)).
Proof.
  unfold same_carried, update_algorithm, PIOS_OPAHRS_SetAlgorithm.
  run_block; reflexivity.
Qed.

Lemma grab_raw_carried (p : period) (settings : AHRSSettings.Data) :
  throughout same_carried (grab_raw p settings).
Proof.
  intros s. unfold same_carried, grab_raw, PIOS_OPAHRS_GetAttitudeRaw.
  run_block; reflexivity.
Qed.

Section Frames.

Context {conversions : CoordinateConversions}.

(** The request after the barometer part was decided. *)
Lemma load_update_run (p : period) (s : AHRSComms) :
  let req :=
    if BaroAltitudeIsUpdatedFlag s
    then load_baro_altitude (auto_update p) s
    else clear_barometer_updated (auto_update p) in
  load_update p s
  = if GPSPositionIsUpdatedFlag s
    then mkRun (Next (fst (load_gps_position req s))) (snd (load_gps_position req s)) []
    else mkRun (Next (clear_gps_updated req)) s [].
Proof.
  cbv beta iota zeta delta [load_update bind reads call ret outcome final sent app].
  destruct (BaroAltitudeIsUpdatedFlag s), (GPSPositionIsUpdatedFlag s); reflexivity.
Qed.

(** [load_gps_position] marks the sub-message as updated, leaves the
    barometer part of the request alone, and writes no variable of the
    module but the good-fix counter, which it keeps within its range. *)
Lemma load_gps_position_parts (update : req_update.t) (s : AHRSComms) :
  req_update.gps_updated (req_update.gps (fst (load_gps_position update s))) = TRUE /\
  req_update.barometer (fst (load_gps_position update s)) = req_update.barometer update /\
  exists g : Z,
    snd (load_gps_position update s) = set_GPSGoodUpdates g s /\
    (counter_in_range s -> 0 <= g <= 30).
Proof.
  unfold load_gps_position, counter_in_range.
  repeat match goal with
         | |- context [if ?c then _ else _] => destruct c eqn:?
         end;
    cbn; (split; [reflexivity |]); (split; [reflexivity |]).
  - exists (GPSGoodUpdates s). split; [destruct s; reflexivity | auto].
  - exists (incr32 (GPSGoodUpdates s)). split; [reflexivity |].
    intros Hc. unfold incr32.
    match goal with H : (_ <? _) = true |- _ => apply Z.ltb_lt in H end.
    rewrite Z.mod_small by lia. lia.
  - exists (GPSGoodUpdates s). split; [destruct s; reflexivity | auto].
  - exists 0. split; [reflexivity | lia].
Qed.

Lemma load_update_final (p : period) (s : AHRSComms) :
  exists g : Z,
    final (load_update p s) = set_GPSGoodUpdates g s /\
    (counter_in_range s -> 0 <= g <= 30).
Proof.
  rewrite load_update_run. cbv zeta. destruct (GPSPositionIsUpdatedFlag s).
  - cbn [final]. apply load_gps_position_parts.
  - exists (GPSGoodUpdates s). split; [destruct s; reflexivity | auto].
Qed.

(** The request the combined update sends says which samples it carries,
    and loading it clears neither sample flag. *)
Lemma load_update_parts (p : period) (s : AHRSComms) :
  exists req : req_update.t,
    outcome (load_update p s) = Next req /\
    sent (load_update p s) = [] /\
    req_update.baro_updated (req_update.barometer req)
    = (if BaroAltitudeIsUpdatedFlag s then TRUE else 0) /\
    req_update.gps_updated (req_update.gps req)
    = (if GPSPositionIsUpdatedFlag s then TRUE else 0) /\
    BaroAltitudeIsUpdatedFlag (final (load_update p s)) = BaroAltitudeIsUpdatedFlag s /\
    GPSPositionIsUpdatedFlag (final (load_update p s)) = GPSPositionIsUpdatedFlag s.
Proof.
  rewrite load_update_run. cbv zeta.
  set (req := if BaroAltitudeIsUpdatedFlag s
              then load_baro_altitude (auto_update p) s
              else clear_barometer_updated (auto_update p)).
  assert (Hb : req_update.baro_updated (req_update.barometer req)
               = (if BaroAltitudeIsUpdatedFlag s then TRUE else 0)).
  { subst req. destruct (BaroAltitudeIsUpdatedFlag s); reflexivity. }
  destruct (GPSPositionIsUpdatedFlag s) eqn:Hg.
  - destruct (load_gps_position_parts req s) as (Hu & Hbar & Hs).
    eexists. split; [reflexivity |]. split; [reflexivity |].
    cbn [final]. rewrite Hbar. split; [exact Hb |]. split; [exact Hu |].
    destruct Hs as (g & -> & _). split; [reflexivity | exact Hg].
  - eexists. split; [reflexivity |]. split; [reflexivity |].
    cbn [final]. split; [exact Hb |]. split; [reflexivity |]. split; [reflexivity | exact Hg].
Qed.

Lemma transfer_update_flags (p : period) (req : req_update.t) (s : AHRSComms) :
  sent (transfer_update p req s) = [SetGetUpdate req] /\
  if result_ok (ans_SetGetUpdate p)
  then
    outcome (transfer_update p req s) = Next tt /\
    BaroAltitudeIsUpdatedFlag (final (transfer_update p req s))
    = (if req_update.baro_updated (req_update.barometer req) =? 0
       then BaroAltitudeIsUpdatedFlag s else false) /\
    GPSPositionIsUpdatedFlag (final (transfer_update p req s))
    = (if req_update.gps_updated (req_update.gps req) =? 0
       then GPSPositionIsUpdatedFlag s else false)
  else
    outcome (transfer_update p req s) = Break /\
    BaroAltitudeIsUpdatedFlag (final (transfer_update p req s))
    = BaroAltitudeIsUpdatedFlag s /\
    GPSPositionIsUpdatedFlag (final (transfer_update p req s))
    = GPSPositionIsUpdatedFlag s.
Proof.
  unfold transfer_update, PIOS_OPAHRS_SetGetUpdate.
  unfold bind, modify, transmit, ret, break_. cbn.
  destruct (result_ok (ans_SetGetUpdate p)); cbn; [| repeat split].
  destruct (req_update.baro_updated (req_update.barometer req) =? 0),
    (req_update.gps_updated (req_update.gps req) =? 0); cbn; repeat split.
Qed.

Lemma transfer_update_kept (p : period) (req : req_update.t) :
  throughout same_kept (transfer_update p req).
Proof.
  intros s. unfold same_kept, transfer_update, PIOS_OPAHRS_SetGetUpdate.
  run_block; reflexivity.
Qed.

Lemma transfer_update_counter (p : period) (req : req_update.t) (s : AHRSComms) :
  GPSGoodUpdates (final (transfer_update p req s)) = GPSGoodUpdates s.
Proof.
  unfold transfer_update, PIOS_OPAHRS_SetGetUpdate. run_block; reflexivity.
Qed.

Lemma grab_filtered_kept (p : period) (settings : AHRSSettings.Data) :
  throughout same_kept (grab_filtered p settings).
Proof.
  unfold grab_filtered. destruct (negb (AHRSSettings.UpdateFiltered settings =? 0)).
  - apply throughout_bind.
    + exact same_kept_trans.
    + intros s. destruct (load_update_final p s) as (g & -> & _). reflexivity.
    + intros s req _. apply transfer_update_kept.
  - intros s. reflexivity.
Qed.

(** A relation that the first four blocks keep because they carry the
    state over, and that the combined update keeps by itself, holds
    throughout the period. *)
Lemma streaming_period_throughout (R : AHRSComms -> AHRSComms -> Prop) (p : period) :
  (forall a b c, R a b -> R b c -> R a c) ->
  (forall s s', same_carried s s' -> R s s') ->
  (forall settings, throughout R (grab_filtered p settings)) ->
  throughout R (streaming_period p).
Proof.
  intros Htrans Hcarried Hfiltered. unfold streaming_period.
  apply throughout_bind; [exact Htrans | intros s; apply Hcarried; reflexivity |].
  intros s settings _. change (final (reads obj_AHRSSettings s)) with s.
  revert s. apply throughout_bind;
    [exact Htrans | intros s; apply Hcarried, update_home_carried |].
  intros s u _. generalize (final (update_home p s)). clear s u.
  apply throughout_bind;
    [exact Htrans | intros s; apply Hcarried, update_calibration_carried |].
  intros s data Hdata. apply update_calibration_returns_status in Hdata. subst data.
  generalize (final (update_calibration_if_necessary p s)). clear s.
  apply throughout_bind;
    [exact Htrans | intros s; apply Hcarried, update_algorithm_carried |].
  intros s u _. generalize (final (update_algorithm p settings (obj_AhrsStatus s) s)).
  clear s u.
  apply throughout_bind;
    [exact Htrans | intros s; apply Hcarried, grab_raw_carried |].
  intros s u _. apply Hfiltered.
Qed.

Lemma streaming_period_kept (p : period) : throughout same_kept (streaming_period p).
Proof.
  apply streaming_period_throughout.
  - exact same_kept_trans.
  - exact same_carried_kept.
  - apply grab_filtered_kept.
Qed.

Lemma grab_filtered_range (p : period) (settings : AHRSSettings.Data) :
  throughout stays_in_range (grab_filtered p settings).
Proof.
  unfold grab_filtered. destruct (negb (AHRSSettings.UpdateFiltered settings =? 0)).
  - intros s Hc. rewrite bind_final.
    destruct (load_update_final p s) as (g & Hg & Hrange). specialize (Hrange Hc).
    assert (Hl : counter_in_range (final (load_update p s))).
    { rewrite Hg. exact Hrange. }
    destruct (outcome (load_update p s)) as [req |]; [| exact Hl].
    unfold counter_in_range. rewrite transfer_update_counter. exact Hl.
  - intros s Hc. exact Hc.
Qed.

Lemma streaming_period_range (p : period) :
  throughout stays_in_range (streaming_period p).
Proof.
  apply streaming_period_throughout.
  - unfold stays_in_range. auto.
  - unfold stays_in_range, counter_in_range. intros s s' H.
    apply same_carried_parts in H. destruct H as (_ & H & _). rewrite H. auto.
  - apply grab_filtered_range.
Qed.

End Frames.

(** ** What a completed period leaves *)

(** Read the tests [run_block] decided. *)
Ltac read_tests :=
  repeat match goal with
         | H : (_ || _) = false |- _ =>
             apply orb_false_iff in H; destruct H
         | H : (_ =? _) = false |- _ => apply Z.eqb_neq in H
         end.

Ltac settle :=
  unfold settled, home_settled in *; cbn in *; read_tests;
  repeat match goal with
         | H : _ /\ _ |- _ => destruct H
         end;
  subst; cbn in *;
  repeat split; try assumption; try discriminate; try exact I.

Lemma update_home_settles (p : period) :
  triple (fun _ => True) (update_home p) (fun _ => home_settled).
Proof.
  intros s _. unfold update_home, PIOS_OPAHRS_SetMagNorth. run_block; settle.
Qed.

Lemma update_calibration_settles (p : period) :
  triple home_settled (update_calibration_if_necessary p)
    (fun data s =>
       home_settled s /\ data = obj_AhrsStatus s /\ AHRSCalibrationIsUpdatedFlag s = false).
Proof.
  intros s Hs. unfold update_calibration_if_necessary, PIOS_OPAHRS_SetGetCalibration.
  run_block; settle.
Qed.

Lemma update_algorithm_settles
    (p : period) (settings : AHRSSettings.Data) (data : AhrsStatus.Data) :
  triple
    (fun s =>
       home_settled s /\ data = obj_AhrsStatus s /\ AHRSCalibrationIsUpdatedFlag s = false)
    (update_algorithm p settings data) (fun _ => settled).
Proof.
  intros s Hs. unfold update_algorithm, PIOS_OPAHRS_SetAlgorithm. run_block; settle.
Qed.

Lemma grab_raw_settled (p : period) (settings : AHRSSettings.Data) :
  triple settled (grab_raw p settings) (fun _ => settled).
Proof.
  intros s Hs. unfold grab_raw, PIOS_OPAHRS_GetAttitudeRaw. run_block; settle.
Qed.

Section Completed.

Context {conversions : CoordinateConversions}.

Lemma transfer_update_settled (p : period) (req : req_update.t) :
  triple settled (transfer_update p req) (fun _ => settled).
Proof.
  intros s Hs. unfold transfer_update, PIOS_OPAHRS_SetGetUpdate. run_block; settle.
Qed.

Lemma grab_filtered_settled (p : period) (settings : AHRSSettings.Data) :
  triple settled (grab_filtered p settings) (fun _ => settled).
Proof.
  unfold grab_filtered. destruct (negb (AHRSSettings.UpdateFiltered settings =? 0)).
  - apply (triple_bind settled _ _ (fun _ => settled)).
    + intros s Hs. destruct (load_update_final p s) as (g & Hg & _).
      destruct (outcome (load_update p s)); [| exact I]. rewrite Hg. exact Hs.
    + intros req. apply transfer_update_settled.
  - intros s Hs. exact Hs.
Qed.

Lemma streaming_period_settles (p : period) :
  triple (fun _ => True) (streaming_period p) (fun _ => settled).
Proof.
  unfold streaming_period.
  apply (triple_bind (fun _ => True) _ _ (fun _ _ => True)); [intros s _; exact I |].
  intros settings.
  eapply triple_bind; [apply update_home_settles |]. intros u.
  eapply triple_bind; [apply update_calibration_settles |]. intros data.
  eapply triple_bind; [apply update_algorithm_settles |]. intros u'.
  eapply triple_bind; [apply grab_raw_settled |]. intros u''.
  apply grab_filtered_settled.
Qed.

End Completed.

(** ** The session *)

Lemma dispatch_errors (cb : callback) (s : AHRSComms) (c : category) :
  errors (dispatch cb s) c = errors s c.
Proof.
  destruct cb, c; try reflexivity;
    unfold dispatch, AHRSCalibrationUpdatedCb;
    destruct (Bool.eqb (AHRSCalibrationIsLocallyUpdateFlag s) true); reflexivity.
Qed.

Lemma apply_edit_errors (e : edit) (s : AHRSComms) (c : category) :
  errors (apply_edit e s) c = errors s c.
Proof. destruct e, c; reflexivity. Qed.

Lemma dispatch_published (cb : callback) (s : AHRSComms) :
  published (dispatch cb s) = published s.
Proof.
  destruct cb; try reflexivity. unfold dispatch, AHRSCalibrationUpdatedCb.
  destruct (Bool.eqb (AHRSCalibrationIsLocallyUpdateFlag s) true); reflexivity.
Qed.

Section Sessions.

Context {conversions : CoordinateConversions}.

(** X1.  A period that runs to its end attempted each category at most
    once, in the order home, calibration, algorithm, raw attitude, combined
    update; the transport answered every exchange it sent, and the five
    error counters are what they were. *)
Theorem period_exchange_order (p : period) (s : AHRSComms) :
  outcome (streaming_period p s) = Next tt ->
  subseq (categories (sent (streaming_period p s))) period_order /\
  NoDup (categories (sent (streaming_period p s))) /\
  Forall (answered p) (sent (streaming_period p s)) /\
  forall c : category, errors (final (streaming_period p s)) c = errors s c.
Proof.
  intros Hnext. destruct (streaming_period_chain p s) as [Hsub Hout].
  rewrite Hnext in Hout. destruct Hout as [Hall Herr].
  split; [exact Hsub |]. split; [| split; assumption].
  eapply subseq_NoDup; [exact Hsub | apply period_order_NoDup].
Qed.

(** X2.  Whatever happens, the five error counters keep their values,
    except when the task runs a streaming period in which an exchange is
    not answered: then the session is back in RESYNCING and the counter of
    that exchange has been incremented once.  Neither a failed resync nor a
    failed serial-number query is counted. *)
Theorem counters_move_on_streaming_failure (h : happening) (t : session) :
  (forall c : category, errors (comms (happen h t)) c = errors (comms t) c) \/
  (exists (a : answer) (x : exchange),
      h = Runs a /\ state t = STREAMING /\ state (happen h t) = RESYNCING /\
      result_ok (answer_of (ans_period a) (category_of x)) = false /\
      counted_once (comms t) (comms (happen h t)) x).
Proof.
  destruct h as [a | cb | e].
  - cbn [happen]. unfold step. destruct (state t) eqn:Hstate.
    + left. intros c. destruct (result_ok (ans_resync a)); reflexivity.
    + left. intros c. destruct (result_ok (ans_GetSerial a)); cbn [comms].
      * destruct c; reflexivity.
      * apply enter_resyncing_errors.
    + destruct (streaming_period_chain (ans_period a) (comms t)) as [_ Hout].
      destruct (outcome (streaming_period (ans_period a) (comms t))).
      * left. destruct Hout as [_ Herr]. exact Herr.
      * right. destruct Hout as (tr & x & _ & _ & Hans & Hcount).
        exists a, x. split; [reflexivity |]. split; [reflexivity |].
        split; [reflexivity |]. split; [exact Hans |].
        intros c. cbn [comms]. rewrite enter_resyncing_errors. apply Hcount.
  - left. intros c. apply dispatch_errors.
  - left. intros c. apply apply_edit_errors.
Qed.

(** X3.  While the AHRS does not answer the resync, the task spins: the
    session stays in RESYNCING and no variable or object of the module
    changes, however long it lasts. *)
Theorem resync_spin_changes_nothing (l : list answer) (t : session) :
  state t = RESYNCING ->
  Forall (fun a => result_ok (ans_resync a) = false) l ->
  steps l t = t.
Proof.
  intros Hstate Hall. induction Hall as [| a l Ha _ IH]; [reflexivity |].
  cbn [steps]. unfold step. rewrite Hstate, Ha.
  replace (mkSession RESYNCING (comms t)) with t; [exact IH |].
  destruct t as [st s]. cbn in *. subst st. reflexivity.
Qed.

Lemma coherent_start (s : AHRSComms) : coherent (task_start s).
Proof.
  split; [discriminate |]. split.
  - intros _. split; [reflexivity | repeat split].
  - unfold counter_in_range. cbn. lia.
Qed.

Lemma coherent_happen (h : happening) (t : session) :
  coherent t -> coherent (happen h t).
Proof.
  intros (Hstr & Hnot & Hrange). destruct h as [a | cb | e].
  - cbn [happen]. unfold step. destruct (state t) eqn:Hstate.
    + specialize (Hnot ltac:(discriminate)).
      destruct (result_ok (ans_resync a)); (split; [discriminate |]);
        (split; [intros _; exact Hnot | exact Hrange]).
    + specialize (Hnot ltac:(discriminate)). destruct Hnot as [Halarm Hsync].
      destruct (result_ok (ans_GetSerial a)).
      * split; [reflexivity |]. split; [intros H; contradiction H; reflexivity |].
        exact Hrange.
      * split; [discriminate |]. split; [| exact Hrange].
        intros _. split; [reflexivity | apply enter_resyncing_nothing_synced].
    + specialize (Hstr eq_refl).
      pose proof (streaming_period_kept (ans_period a) (comms t)) as Hkept.
      pose proof (streaming_period_range (ans_period a) (comms t) Hrange) as Hr.
      destruct (same_kept_parts _ _ Hkept) as (_ & _ & _ & Halarm & _).
      revert Hr Halarm. generalize (final (streaming_period (ans_period a) (comms t))).
      intros s' Hr Halarm.
      destruct (outcome (streaming_period (ans_period a) (comms t))).
      * split; [| split; [intros H; contradiction H; reflexivity | exact Hr]].
        intros _. cbn [comms]. rewrite Halarm. exact Hstr.
      * split; [discriminate |]. split; [| exact Hr].
        intros _. split; [reflexivity | apply enter_resyncing_nothing_synced].
  - cbn [happen state comms].
    assert (E : alarm_AHRSCOMMS (dispatch cb (comms t)) = alarm_AHRSCOMMS (comms t)
                /\ obj_AhrsStatus (dispatch cb (comms t)) = obj_AhrsStatus (comms t)
                /\ GPSGoodUpdates (dispatch cb (comms t)) = GPSGoodUpdates (comms t)).
    { destruct cb; try (repeat split; reflexivity).
      unfold dispatch, AHRSCalibrationUpdatedCb.
      destruct (Bool.eqb (AHRSCalibrationIsLocallyUpdateFlag (comms t)) true);
        repeat split; reflexivity. }
    destruct E as (Ea & Es & Eg).
    unfold coherent, nothing_synced, counter_in_range in *. cbn [state comms].
    rewrite Ea, Es, Eg. auto.
  - cbn [happen state comms]. destruct e; exact (conj Hstr (conj Hnot Hrange)).
Qed.

Lemma reachable_coherent (t : session) : reachable t -> coherent t.
Proof.
  intros (s & l & ->). generalize (coherent_start s). generalize (task_start s).
  induction l as [| h l IH]; intros t Ht; [exact Ht |].
  cbn [history]. apply IH, coherent_happen, Ht.
Qed.

(** X4.  In every session the task can reach, with callbacks and edits of
    other tasks interleaved at will, the alarm is clear exactly when the
    session is STREAMING, and outside STREAMING the three "synced" fields
    of the status object read false. *)
Theorem alarm_tracks_state (t : session) :
  reachable t ->
  (alarm_AHRSCOMMS (comms t) = SYSTEMALARMS_ALARM_OK <-> state t = STREAMING) /\
  (state t <> STREAMING -> nothing_synced (comms t)).
Proof.
  intros Hr. destruct (reachable_coherent t Hr) as (Hstr & Hnot & _).
  split; [split |].
  - intros Halarm. destruct (state t) eqn:Hstate; [| | reflexivity];
      destruct (Hnot ltac:(discriminate)) as [Hc _]; congruence.
  - exact Hstr.
  - intros H. apply Hnot, H.
Qed.

(** X5.  In every session the task can reach, the good-fix counter is
    between 0 and 30: the [uint32_t] never wraps. *)
Theorem GPSGoodUpdates_in_range (t : session) :
  reachable t -> 0 <= GPSGoodUpdates (comms t) <= 30.
Proof. intros Hr. destruct (reachable_coherent t Hr) as (_ & _ & H). exact H. Qed.

(** X9.  What the status object publishes of the link, the serial number
    and the five error counts, is written at one place only: the successful
    serial-number query that opens a streaming episode, which itself leaves
    the counters alone.  A counter incremented while streaming is not
    published before the next such query. *)
Theorem published_refreshed_at_identity (h : happening) (t : session) :
  published (comms (happen h t)) = published (comms t) \/
  (exists a : answer,
      h = Runs a /\ state t = IDENTITY /\ result_ok (ans_GetSerial a) = true /\
      state (happen h t) = STREAMING /\
      counters (comms (happen h t)) = counters (comms t)).
Proof.
  destruct h as [a | cb | e].
  - cbn [happen]. unfold step. destruct (state t) eqn:Hstate.
    + left. destruct (result_ok (ans_resync a)); reflexivity.
    + destruct (result_ok (ans_GetSerial a)) eqn:Hserial.
      * right. exists a. repeat split; try reflexivity; assumption.
      * left. reflexivity.
    + left.
      pose proof (streaming_period_kept (ans_period a) (comms t)) as Hkept.
      apply same_kept_parts in Hkept. destruct Hkept as (_ & _ & Hp & _).
      revert Hp. generalize (final (streaming_period (ans_period a) (comms t))).
      intros s' Hp.
      destruct (outcome (streaming_period (ans_period a) (comms t))); exact Hp.
  - left. apply dispatch_published.
  - left. destruct e; reflexivity.
Qed.

Lemma step_kept_inputs (a : answer) (t : session) :
  read_only (comms (step a t)) = read_only (comms t) /\
  calibration_settings (obj_AHRSCalibration (comms (step a t)))
  = calibration_settings (obj_AHRSCalibration (comms t)).
Proof.
  unfold step. destruct (state t).
  - destruct (result_ok (ans_resync a)); split; reflexivity.
  - destruct (result_ok (ans_GetSerial a)); split; reflexivity.
  - destruct (same_kept_parts _ _ (streaming_period_kept (ans_period a) (comms t)))
      as (Hr & Hc & _).
    revert Hr Hc. generalize (final (streaming_period (ans_period a) (comms t))).
    intros s' Hr Hc.
    destruct (outcome (streaming_period (ans_period a) (comms t))); split; assumption.
Qed.

(** X18.  Neither the task nor a callback ever writes the objects the
    module reads (AHRSSettings, HomeLocation, GPSPosition, BaroAltitude,
    AttitudeSettings), and of the AHRSCalibration object they leave the
    mode, the biases and the scales alone: these change only when another
    task sets them. *)
Theorem inputs_never_written (h : happening) (t : session) :
  (read_only (comms (happen h t)) = read_only (comms t) /\
   calibration_settings (obj_AHRSCalibration (comms (happen h t)))
   = calibration_settings (obj_AHRSCalibration (comms t))) \/
  exists e : edit, h = Edited e.
Proof.
  destruct h as [a | cb | e].
  - left. apply step_kept_inputs.
  - left. cbn [happen comms]. destruct cb; try (split; reflexivity).
    unfold dispatch, AHRSCalibrationUpdatedCb.
    destruct (Bool.eqb (AHRSCalibrationIsLocallyUpdateFlag (comms t)) true);
      split; reflexivity.
  - right. exists e. reflexivity.
Qed.

End Sessions.

Lemma period_exchange_order_witness :
  NoDup (categories (sent (streaming_period Sample.all_ok Sample.comms0))) /\
  update_errors (final (streaming_period Sample.all_ok Sample.comms0))
  = update_errors Sample.comms0.
Proof.
  destruct (period_exchange_order Sample.all_ok Sample.comms0) as (_ & H2 & _ & H4).
  - vm_compute. reflexivity.
  - split; [exact H2 | exact (H4 COMMERRORS_UPDATE)].
Defined.

Lemma resync_spin_changes_nothing_witness :
  steps [Scenario.deaf; Scenario.deaf; Scenario.deaf] Scenario.started = Scenario.started.
Proof.
  apply (resync_spin_changes_nothing [Scenario.deaf; Scenario.deaf; Scenario.deaf]
           Scenario.started).
  - reflexivity.
  - repeat constructor.
Defined.

Lemma alarm_tracks_state_witness :
  alarm_AHRSCOMMS (comms Scenario.streaming) = SYSTEMALARMS_ALARM_OK <->
  state Scenario.streaming = STREAMING.
Proof.
  destruct (alarm_tracks_state Scenario.streaming) as [H _].
  - exists Sample.comms0, [Runs Scenario.ok; Runs Scenario.ok]. reflexivity.
  - exact H.
Defined.

Lemma GPSGoodUpdates_in_range_witness :
  0 <= GPSGoodUpdates (comms Scenario.streaming) <= 30.
Proof.
  apply (GPSGoodUpdates_in_range Scenario.streaming).
  exists Sample.comms0, [Runs Scenario.ok; Runs Scenario.ok]. reflexivity.
Defined.

(** ** Pushing the configuration *)

Lemma load_calibration_object (calibration : req_calibration.t) (s s' : AHRSComms) :
  obj_AHRSCalibration s' = obj_AHRSCalibration s ->
  load_calibration calibration s' = load_calibration calibration s.
Proof. intros H. unfold load_calibration. rewrite H. reflexivity. Qed.

Lemma update_home_first (p : period) (s : AHRSComms) :
  AhrsStatus.HomeSet (obj_AhrsStatus s) = AHRSSTATUS_HOMESET_FALSE ->
  result_ok (ans_SetMagNorth p) = true ->
  outcome (update_home p s) = Next tt /\
  sent (update_home p s) = [SetMagNorth (load_magnetic_north (auto_north p) s)] /\
  obj_AHRSCalibration (final (update_home p s)) = obj_AHRSCalibration s /\
  AhrsStatus.CalibrationSet (obj_AhrsStatus (final (update_home p s)))
  = AhrsStatus.CalibrationSet (obj_AhrsStatus s) /\
  AhrsStatus.AlgorithmSet (obj_AhrsStatus (final (update_home p s)))
  = AhrsStatus.AlgorithmSet (obj_AhrsStatus s).
Proof.
  intros Hset Hok.
  unfold update_home, PIOS_OPAHRS_SetMagNorth, bind, reads, modify, transmit, ret,
    AhrsStatusSet. cbn.
  rewrite Hset, Hok. cbn. rewrite orb_true_r. cbn. repeat split.
Qed.

Lemma update_calibration_first (p : period) (s : AHRSComms) :
  AhrsStatus.CalibrationSet (obj_AhrsStatus s) = AHRSSTATUS_CALIBRATIONSET_FALSE ->
  result_ok (ans_SetGetCalibration p) = true ->
  exists data : AhrsStatus.Data,
    outcome (update_calibration_if_necessary p s) = Next data /\
    sent (update_calibration_if_necessary p s)
    = [SetGetCalibration (load_calibration (auto_calibration p) s)] /\
    AhrsStatus.AlgorithmSet data = AhrsStatus.AlgorithmSet (obj_AhrsStatus s).
Proof.
  intros Hset Hok.
  unfold update_calibration_if_necessary, PIOS_OPAHRS_SetGetCalibration, bind, reads,
    modify, transmit, ret, AhrsStatusSet. cbn.
  rewrite Hset, Hok. cbn. rewrite orb_true_r. cbn.
  eexists. split; [reflexivity |]. split; [reflexivity |].
  destruct (measure_mode_eqb (rsp_calibration.measure_var (rsp_SetGetCalibration p))
              AHRS_ECHO); reflexivity.
Qed.

Lemma update_algorithm_first
    (p : period) (settings : AHRSSettings.Data) (data : AhrsStatus.Data) (s : AHRSComms) :
  AhrsStatus.AlgorithmSet data = AHRSSTATUS_ALGORITHMSET_FALSE ->
  sent (update_algorithm p settings data s)
  = [SetAlgorithm (load_algorithm (auto_algorithm p) settings)].
Proof.
  intros Hset.
  unfold update_algorithm, PIOS_OPAHRS_SetAlgorithm, bind, reads. cbn.
  rewrite Hset. cbn. rewrite orb_true_r. cbn.
  destruct (result_ok (ans_SetAlgorithm p)); reflexivity.
Qed.

Lemma update_algorithm_pushed
    (p : period) (settings : AHRSSettings.Data) (data : AhrsStatus.Data) (s : AHRSComms) :
  AHRSSettingsIsUpdatedFlag s = true ->
  sent (update_algorithm p settings data s)
  = [SetAlgorithm (load_algorithm (auto_algorithm p) settings)].
Proof.
  intros H. unfold update_algorithm, PIOS_OPAHRS_SetAlgorithm, bind, reads. cbn.
  rewrite H. cbn. destruct (result_ok (ans_SetAlgorithm p)); reflexivity.
Qed.

Lemma update_home_skipped (p : period) (s : AHRSComms) :
  home_settled s -> update_home p s = mkRun (Next tt) s [].
Proof.
  intros [Hflag Hset]. apply Z.eqb_neq in Hset.
  unfold update_home, bind, reads. cbn. rewrite Hflag, Hset. reflexivity.
Qed.

Lemma update_calibration_skipped (p : period) (s : AHRSComms) :
  AHRSCalibrationIsUpdatedFlag s = false ->
  AhrsStatus.CalibrationSet (obj_AhrsStatus s) <> AHRSSTATUS_CALIBRATIONSET_FALSE ->
  update_calibration_if_necessary p s = mkRun (Next (obj_AhrsStatus s)) s [].
Proof.
  intros Hflag Hset. apply Z.eqb_neq in Hset.
  unfold update_calibration_if_necessary, bind, reads. cbn.
  rewrite Hflag, Hset. reflexivity.
Qed.

Lemma update_algorithm_skipped
    (p : period) (settings : AHRSSettings.Data) (data : AhrsStatus.Data) (s : AHRSComms) :
  AHRSSettingsIsUpdatedFlag s = false ->
  AhrsStatus.AlgorithmSet data <> AHRSSTATUS_ALGORITHMSET_FALSE ->
  update_algorithm p settings data s = mkRun (Next tt) s [].
Proof.
  intros Hflag Hset. apply Z.eqb_neq in Hset.
  unfold update_algorithm, bind, reads. cbn. rewrite Hflag, Hset. reflexivity.
Qed.

Lemma update_calibration_pushes (p : period) (s : AHRSComms) (x : exchange) :
  In x (sent (update_calibration_if_necessary p s)) ->
  AHRSCalibrationIsUpdatedFlag s = true \/
  AhrsStatus.CalibrationSet (obj_AhrsStatus s) = AHRSSTATUS_CALIBRATIONSET_FALSE.
Proof.
  unfold update_calibration_if_necessary, bind, reads. cbn.
  destruct (AHRSCalibrationIsUpdatedFlag s); [left; reflexivity |].
  destruct (Z.eqb_spec (AhrsStatus.CalibrationSet (obj_AhrsStatus s))
              AHRSSTATUS_CALIBRATIONSET_FALSE) as [E | E]; [right; exact E |].
  cbn. intros [].
Qed.

Lemma update_algorithm_pushes
    (p : period) (settings : AHRSSettings.Data) (data : AhrsStatus.Data)
    (s : AHRSComms) (x : exchange) :
  In x (sent (update_algorithm p settings data s)) ->
  AHRSSettingsIsUpdatedFlag s = true \/
  AhrsStatus.AlgorithmSet data = AHRSSTATUS_ALGORITHMSET_FALSE.
Proof.
  unfold update_algorithm, bind, reads. cbn.
  destruct (AHRSSettingsIsUpdatedFlag s); [left; reflexivity |].
  destruct (Z.eqb_spec (AhrsStatus.AlgorithmSet data) AHRSSTATUS_ALGORITHMSET_FALSE)
    as [E | E]; [right; exact E |].
  cbn. intros [].
Qed.

(** X20.  A pending home or calibration edit is cleared by the push that
    the transport answers and by nothing else: after the block the flag is
    set exactly when it was set before and the push was not answered. *)
Theorem push_clears_pending_on_success (p : period) (s : AHRSComms) :
  HomeLocationIsUpdatedFlag (final (update_home p s))
  = HomeLocationIsUpdatedFlag s && negb (result_ok (ans_SetMagNorth p)) /\
  AHRSCalibrationIsUpdatedFlag (final (update_calibration_if_necessary p s))
  = AHRSCalibrationIsUpdatedFlag s && negb (result_ok (ans_SetGetCalibration p)).
Proof.
  split.
  - unfold update_home, PIOS_OPAHRS_SetMagNorth.
    unfold bind, reads, modify, transmit, ret, break_, AhrsStatusSet. cbn.
    destruct (HomeLocationIsUpdatedFlag s) eqn:Hflag; cbn.
    + destruct (result_ok (ans_SetMagNorth p)); cbn; [reflexivity | exact Hflag].
    + destruct (AhrsStatus.HomeSet (obj_AhrsStatus s) =? AHRSSTATUS_HOMESET_FALSE); cbn;
        [destruct (result_ok (ans_SetMagNorth p)); cbn |]; try reflexivity; exact Hflag.
  - unfold update_calibration_if_necessary, PIOS_OPAHRS_SetGetCalibration.
    unfold bind, reads, modify, transmit, ret, break_, AhrsStatusSet. cbn.
    destruct (AHRSCalibrationIsUpdatedFlag s) eqn:Hflag; cbn.
    + destruct (result_ok (ans_SetGetCalibration p)); cbn; [reflexivity | exact Hflag].
    + destruct (AhrsStatus.CalibrationSet (obj_AhrsStatus s)
                =? AHRSSTATUS_CALIBRATIONSET_FALSE); cbn;
        [destruct (result_ok (ans_SetGetCalibration p)); cbn |];
        try reflexivity; exact Hflag.
Qed.

(** X22.  The algorithm block writes the status object from the copy the
    calibration block read; that copy is the object as the calibration
    block left it, so the write changes at most the AlgorithmSet field. *)
Theorem algorithm_block_writes_own_field
    (p : period) (settings : AHRSSettings.Data) (s : AHRSComms) (data : AhrsStatus.Data) :
  outcome (update_calibration_if_necessary p s) = Next data ->
  let s2 := final (update_calibration_if_necessary p s) in
  let s3 := final (update_algorithm p settings data s2) in
  AhrsStatus.set_AlgorithmSet (AhrsStatus.AlgorithmSet (obj_AhrsStatus s2))
    (obj_AhrsStatus s3)
  = obj_AhrsStatus s2.
Proof.
  intros Hdata. apply update_calibration_returns_status in Hdata. subst data.
  cbv zeta. generalize (final (update_calibration_if_necessary p s)). intros s2.
  unfold update_algorithm, PIOS_OPAHRS_SetAlgorithm.
  run_block; destruct (obj_AhrsStatus s2); reflexivity.
Qed.

Section Configuration.

Context {conversions : CoordinateConversions}.

Lemma first_period (p : period) (s : AHRSComms) :
  nothing_synced s ->
  result_ok (ans_SetMagNorth p) = true ->
  result_ok (ans_SetGetCalibration p) = true ->
  exists rest : list exchange,
    sent (streaming_period p s)
    = SetMagNorth (load_magnetic_north (auto_north p) s)
      :: SetGetCalibration (load_calibration (auto_calibration p) s)
      :: SetAlgorithm (load_algorithm (auto_algorithm p) (obj_AHRSSettings s))
      :: rest.
Proof.
  intros (Hh & Hc & Ha) Hn Hcal.
  destruct (update_home_first p s Hh Hn) as (Hout1 & Hsent1 & Hobj & Hc1 & Ha1).
  set (s1 := final (update_home p s)) in *.
  rewrite Hc in Hc1. rewrite Ha in Ha1.
  destruct (update_calibration_first p s1 Hc1 Hcal) as (data & Hout2 & Hsent2 & Ha2).
  rewrite Ha1 in Ha2. rewrite (load_calibration_object _ _ _ Hobj) in Hsent2.
  unfold streaming_period.
  destruct (bind_sent_next (reads obj_AHRSSettings)
              (fun settings =>
                 update_home p;;
                 data <- update_calibration_if_necessary p;;
                 update_algorithm p settings data;;
                 grab_raw p settings;; grab_filtered p settings)
              s (obj_AHRSSettings s) eq_refl) as [E0 _].
  rewrite E0. clear E0. change (final (reads obj_AHRSSettings s)) with s.
  change (sent (reads obj_AHRSSettings s)) with (@nil exchange). cbn [app].
  rewrite bind_sent, Hout1, Hsent1. fold s1. cbn [app].
  rewrite bind_sent, Hout2, Hsent2. cbn [app].
  rewrite bind_sent. rewrite (update_algorithm_first _ _ _ _ Ha2).
  destruct (outcome (update_algorithm p (obj_AHRSSettings s) data
                       (final (update_calibration_if_necessary p s1))));
    eexists; reflexivity.
Qed.

(** X6.  Every streaming episode opens with nothing synced, whatever the
    previous episode had pushed: its first period sends the home push, the
    calibration push and the algorithm push, in that order and before
    anything else, as long as the transport answers the first two. *)
Theorem episode_pushes_configuration (t : session) (a : answer) (p : period) :
  reachable t ->
  state t = IDENTITY ->
  result_ok (ans_GetSerial a) = true ->
  result_ok (ans_SetMagNorth p) = true ->
  result_ok (ans_SetGetCalibration p) = true ->
  state (step a t) = STREAMING /\
  nothing_synced (comms (step a t)) /\
  exists rest : list exchange,
    sent (streaming_period p (comms (step a t)))
    = SetMagNorth (load_magnetic_north (auto_north p) (comms (step a t)))
      :: SetGetCalibration (load_calibration (auto_calibration p) (comms (step a t)))
      :: SetAlgorithm
           (load_algorithm (auto_algorithm p) (obj_AHRSSettings (comms (step a t))))
      :: rest.
Proof.
  intros Hr Hstate Hserial Hn Hcal.
  destruct (reachable_coherent t Hr) as (_ & Hnot & _).
  destruct (Hnot ltac:(congruence)) as [_ Hsync].
  assert (Hstep : step a t
                  = mkSession STREAMING
                      (set_alarm_AHRSCOMMS SYSTEMALARMS_ALARM_OK
                         (update_ahrs_status (rsp_GetSerial a) (comms t)))).
  { unfold step. rewrite Hstate, Hserial. reflexivity. }
  rewrite Hstep. cbn [state comms].
  assert (Hsync' : nothing_synced
                     (set_alarm_AHRSCOMMS SYSTEMALARMS_ALARM_OK
                        (update_ahrs_status (rsp_GetSerial a) (comms t))))
    by exact Hsync.
  split; [reflexivity |]. split; [exact Hsync' |].
  apply first_period; assumption.
Qed.

Lemma update_home_pushes (p : period) (s : AHRSComms) (x : exchange) :
  In x (sent (update_home p s)) ->
  HomeLocationIsUpdatedFlag s = true \/
  AhrsStatus.HomeSet (obj_AhrsStatus s) = AHRSSTATUS_HOMESET_FALSE.
Proof.
  unfold update_home, bind, reads. cbn.
  destruct (HomeLocationIsUpdatedFlag s); [left; reflexivity |].
  destruct (Z.eqb_spec (AhrsStatus.HomeSet (obj_AhrsStatus s)) AHRSSTATUS_HOMESET_FALSE)
    as [E | E]; [right; exact E |].
  cbn. intros [].
Qed.

(** The home block leaves the calibration flag and the other two "synced"
    fields alone. *)
Lemma update_home_leaves (p : period) (s : AHRSComms) :
  AHRSCalibrationIsUpdatedFlag (final (update_home p s)) = AHRSCalibrationIsUpdatedFlag s /\
  AhrsStatus.CalibrationSet (obj_AhrsStatus (final (update_home p s)))
  = AhrsStatus.CalibrationSet (obj_AhrsStatus s) /\
  AhrsStatus.AlgorithmSet (obj_AhrsStatus (final (update_home p s)))
  = AhrsStatus.AlgorithmSet (obj_AhrsStatus s).
Proof.
  unfold update_home, PIOS_OPAHRS_SetMagNorth. run_block; repeat split.
Qed.

(** The copy of the status object the calibration block hands on has the
    AlgorithmSet the block found. *)
Lemma update_calibration_hands_algorithm
    (p : period) (s : AHRSComms) (data : AhrsStatus.Data) :
  outcome (update_calibration_if_necessary p s) = Next data ->
  AhrsStatus.AlgorithmSet data = AhrsStatus.AlgorithmSet (obj_AhrsStatus s).
Proof.
  unfold update_calibration_if_necessary, PIOS_OPAHRS_SetGetCalibration.
  run_block; intros H; try discriminate; injection H as <-; reflexivity.
Qed.

(** A period sends a push only for a domain that has an edit pending or
    does not read synced. *)
Lemma period_pushes (p : period) (s : AHRSComms) (x : exchange) :
  In x (sent (streaming_period p s)) ->
  (category_of x = COMMERRORS_HOMELOCATION ->
   HomeLocationIsUpdatedFlag s = true \/
   AhrsStatus.HomeSet (obj_AhrsStatus s) = AHRSSTATUS_HOMESET_FALSE) /\
  (category_of x = COMMERRORS_CALIBRATION ->
   AHRSCalibrationIsUpdatedFlag s = true \/
   AhrsStatus.CalibrationSet (obj_AhrsStatus s) = AHRSSTATUS_CALIBRATIONSET_FALSE) /\
  (category_of x = COMMERRORS_ALGORITHM ->
   AHRSSettingsIsUpdatedFlag s = true \/
   AhrsStatus.AlgorithmSet (obj_AhrsStatus s) = AHRSSTATUS_ALGORITHMSET_FALSE).
Proof.
  intros Hin. unfold streaming_period in Hin.
  apply In_bind_sent in Hin. destruct Hin as [[] | (settings & _ & Hin)].
  change (final (reads obj_AHRSSettings s)) with s in Hin.
  apply In_bind_sent in Hin. destruct Hin as [Hin | (u & _ & Hin)].
  { pose proof (chain_category p _ _ _ _ (update_home_chain p) Hin) as Hcat.
    destruct Hcat as [Hcat | []]. apply update_home_pushes in Hin.
    rewrite <- Hcat. split; [intros _; exact Hin |]. split; discriminate. }
  destruct (update_home_leaves p s) as (Hcf & Hcs & Has).
  pose proof (same_carried_flag _ _ (update_home_carried p s)) as Hsf.
  revert Hin Hcf Hcs Has Hsf. generalize (final (update_home p s)).
  intros s1 Hin Hcf Hcs Has Hsf.
  apply In_bind_sent in Hin. destruct Hin as [Hin | (data & Hdata & Hin)].
  { pose proof (chain_category p _ _ _ _ (update_calibration_chain p) Hin) as Hcat.
    destruct Hcat as [Hcat | []]. apply update_calibration_pushes in Hin.
    rewrite Hcf, Hcs in Hin.
    rewrite <- Hcat. split; [discriminate |]. split; [intros _; exact Hin | discriminate]. }
  pose proof (update_calibration_hands_algorithm p s1 data Hdata) as Hdata'.
  pose proof (same_carried_flag _ _ (update_calibration_carried p s1)) as Hsf'.
  revert Hin Hsf'. generalize (final (update_calibration_if_necessary p s1)).
  intros s2 Hin Hsf'.
  apply In_bind_sent in Hin. destruct Hin as [Hin | (u' & _ & Hin)].
  { pose proof (chain_category p _ _ _ _ (update_algorithm_chain p _ _) Hin) as Hcat.
    destruct Hcat as [Hcat | []]. apply update_algorithm_pushes in Hin.
    rewrite Hsf', Hsf, Hdata', Has in Hin.
    rewrite <- Hcat. split; [discriminate |]. split; [discriminate |].
    intros _. exact Hin. }
  apply In_bind_sent in Hin. destruct Hin as [Hin | (u'' & _ & Hin)].
  { pose proof (chain_category p _ _ _ _ (grab_raw_chain p _) Hin) as Hcat.
    destruct Hcat as [Hcat | []]. rewrite <- Hcat.
    split; [discriminate |]. split; discriminate. }
  pose proof (chain_category p _ _ _ _ (grab_filtered_chain p _) Hin) as Hcat.
  destruct Hcat as [Hcat | []]. rewrite <- Hcat.
  split; [discriminate |]. split; discriminate.
Qed.

(** While the task waits, callbacks and edits of other tasks leave the
    status object alone, and raise a flag only through a notification of
    its object. *)
Lemma waiting (l : list happening) :
  Forall (fun h => forall a : answer, h <> Runs a) l ->
  forall t : session,
    obj_AhrsStatus (comms (history l t)) = obj_AhrsStatus (comms t) /\
    (HomeLocationIsUpdatedFlag (comms (history l t)) = true ->
     HomeLocationIsUpdatedFlag (comms t) = true \/ In (Notified HomeLocationUpdated) l) /\
    (AHRSCalibrationIsUpdatedFlag (comms (history l t)) = true ->
     AHRSCalibrationIsUpdatedFlag (comms t) = true \/
     In (Notified AHRSCalibrationUpdated) l) /\
    (AHRSSettingsIsUpdatedFlag (comms (history l t)) = true ->
     AHRSSettingsIsUpdatedFlag (comms t) = true \/ In (Notified AHRSSettingsUpdated) l).
Proof.
  induction 1 as [| h l Hh _ IH]; intros t.
  - cbn [history]. repeat split; intros H; left; exact H.
  - cbn [history]. destruct (IH (happen h t)) as (Hst & Hhome & Hcal & Hset).
    destruct h as [a | cb | e]; [contradiction (Hh a); reflexivity | |].
    + cbn [happen comms] in *.
      assert (Hcb : obj_AhrsStatus (dispatch cb (comms t)) = obj_AhrsStatus (comms t) /\
                    (HomeLocationIsUpdatedFlag (dispatch cb (comms t)) = true ->
                     HomeLocationIsUpdatedFlag (comms t) = true \/ cb = HomeLocationUpdated) /\
                    (AHRSCalibrationIsUpdatedFlag (dispatch cb (comms t)) = true ->
                     AHRSCalibrationIsUpdatedFlag (comms t) = true \/
                     cb = AHRSCalibrationUpdated) /\
                    (AHRSSettingsIsUpdatedFlag (dispatch cb (comms t)) = true ->
                     AHRSSettingsIsUpdatedFlag (comms t) = true \/ cb = AHRSSettingsUpdated)).
      { destruct cb; cbn [dispatch];
          try (unfold AHRSCalibrationUpdatedCb;
               destruct (Bool.eqb (AHRSCalibrationIsLocallyUpdateFlag (comms t)) true));
          (split; [reflexivity |]); repeat split; intros H;
          first [left; exact H | right; reflexivity]. }
      destruct Hcb as (Hst' & Hhome' & Hcal' & Hset').
      split; [congruence |]. split; [| split].
      * intros H. destruct (Hhome H) as [H' | H']; [| right; right; exact H'].
        destruct (Hhome' H') as [H'' | ->]; [left; exact H'' | right; left; reflexivity].
      * intros H. destruct (Hcal H) as [H' | H']; [| right; right; exact H'].
        destruct (Hcal' H') as [H'' | ->]; [left; exact H'' | right; left; reflexivity].
      * intros H. destruct (Hset H) as [H' | H']; [| right; right; exact H'].
        destruct (Hset' H') as [H'' | ->]; [left; exact H'' | right; left; reflexivity].
    + cbn [happen comms] in *.
      assert (He : obj_AhrsStatus (apply_edit e (comms t)) = obj_AhrsStatus (comms t) /\
                   HomeLocationIsUpdatedFlag (apply_edit e (comms t))
                   = HomeLocationIsUpdatedFlag (comms t) /\
                   AHRSCalibrationIsUpdatedFlag (apply_edit e (comms t))
                   = AHRSCalibrationIsUpdatedFlag (comms t) /\
                   AHRSSettingsIsUpdatedFlag (apply_edit e (comms t))
                   = AHRSSettingsIsUpdatedFlag (comms t))
        by (destruct e; repeat split).
      destruct He as (E1 & E2 & E3 & E4). rewrite E1, E2, E3, E4 in *.
      split; [exact Hst |]. split; [| split].
      * intros H. destruct (Hhome H) as [H' | H']; [left; exact H' | right; right; exact H'].
      * intros H. destruct (Hcal H) as [H' | H']; [left; exact H' | right; right; exact H'].
      * intros H. destruct (Hset H) as [H' | H']; [left; exact H' | right; right; exact H'].
Qed.

(** X7.  After a completed period, while the task waits and callbacks and
    edits of other tasks come in, the next period sends the home push only
    if a HomeLocation notification came in between; the calibration push
    only if CalibrationSet still reads false after the completed period or
    an AHRSCalibration notification came in between; and the algorithm push
    only if the settings flag was already set before the completed period
    or an AHRSSettings notification came in between. *)
Theorem pushed_once
    (p1 p2 : period) (s : AHRSComms) (l : list happening) (x : exchange) :
  outcome (streaming_period p1 s) = Next tt ->
  Forall (fun h => forall a : answer, h <> Runs a) l ->
  In x (sent (streaming_period p2
                (comms (history l (mkSession STREAMING (final (streaming_period p1 s))))))) ->
  (category_of x = COMMERRORS_HOMELOCATION -> In (Notified HomeLocationUpdated) l) /\
  (category_of x = COMMERRORS_CALIBRATION ->
   AhrsStatus.CalibrationSet (obj_AhrsStatus (final (streaming_period p1 s)))
   = AHRSSTATUS_CALIBRATIONSET_FALSE \/
   In (Notified AHRSCalibrationUpdated) l) /\
  (category_of x = COMMERRORS_ALGORITHM ->
   AHRSSettingsIsUpdatedFlag s = true \/ In (Notified AHRSSettingsUpdated) l).
Proof.
  intros Hnext Hwait Hin.
  pose proof (streaming_period_settles p1 s I) as Hsettled. rewrite Hnext in Hsettled.
  destruct (same_kept_parts _ _ (streaming_period_kept p1 s)) as (_ & _ & _ & _ & Hflag).
  revert Hin Hsettled Hflag. generalize (final (streaming_period p1 s)).
  intros s1 Hin (Hhf & Hhs & Hcf & Has) Hflag.
  destruct (waiting l Hwait (mkSession STREAMING s1)) as (Hst & Hhome & Hcal & Hset).
  cbn [comms] in Hst, Hhome, Hcal, Hset.
  destruct (period_pushes p2 _ x Hin) as (H1 & H2 & H3).
  rewrite Hst in H1, H2, H3.
  split; [| split].
  - intros Hc. destruct (H1 Hc) as [H | H]; [| contradiction].
    destruct (Hhome H) as [H' | H']; [congruence | exact H'].
  - intros Hc. destruct (H2 Hc) as [H | H]; [| left; exact H].
    destruct (Hcal H) as [H' | H']; [congruence | right; exact H'].
  - intros Hc. destruct (H3 Hc) as [H | H]; [| contradiction].
    destruct (Hset H) as [H' | H']; [left; congruence | right; exact H'].
Qed.

Lemma algorithm_pushed_when_flagged (p : period) (s : AHRSComms) :
  AHRSSettingsIsUpdatedFlag s = true ->
  outcome (streaming_period p s) = Next tt ->
  In (SetAlgorithm (load_algorithm (auto_algorithm p) (obj_AHRSSettings s)))
     (sent (streaming_period p s)).
Proof.
  intros Hflag Hnext. unfold streaming_period in *.
  apply bind_next in Hnext. destruct Hnext as (settings & Hset & Hnext).
  injection Hset as <-. change (final (reads obj_AHRSSettings s)) with s in Hnext.
  eapply In_sent_bind_r; [reflexivity |].
  change (final (reads obj_AHRSSettings s)) with s.
  apply bind_next in Hnext. destruct Hnext as (u & Hhome & Hnext).
  eapply In_sent_bind_r; [exact Hhome |].
  pose proof (same_carried_flag _ _ (update_home_carried p s)) as Hf1.
  set (s1 := final (update_home p s)) in *.
  apply bind_next in Hnext. destruct Hnext as (data & Hcal & _).
  eapply In_sent_bind_r; [exact Hcal |].
  pose proof (same_carried_flag _ _ (update_calibration_carried p s1)) as Hf2.
  set (s2 := final (update_calibration_if_necessary p s1)) in *.
  apply In_sent_bind_l.
  rewrite update_algorithm_pushed by congruence. left; reflexivity.
Qed.

Lemma happen_settings_flag (h : happening) (t : session) :
  AHRSSettingsIsUpdatedFlag (comms t) = true ->
  AHRSSettingsIsUpdatedFlag (comms (happen h t)) = true.
Proof.
  intros Hflag. destruct h as [a | cb | e].
  - cbn [happen]. unfold step. destruct (state t).
    + destruct (result_ok (ans_resync a)); exact Hflag.
    + destruct (result_ok (ans_GetSerial a)); exact Hflag.
    + pose proof (streaming_period_kept (ans_period a) (comms t)) as Hkept.
      apply same_kept_parts in Hkept. destruct Hkept as (_ & _ & _ & _ & Hf).
      revert Hf. generalize (final (streaming_period (ans_period a) (comms t))).
      intros s' Hf.
      destruct (outcome (streaming_period (ans_period a) (comms t))); cbn [comms];
        [| change (AHRSSettingsIsUpdatedFlag (enter_resyncing s'))
             with (AHRSSettingsIsUpdatedFlag s')];
        congruence.
  - cbn [happen comms]. destruct cb; try exact Hflag; try reflexivity.
    unfold dispatch, AHRSCalibrationUpdatedCb.
    destruct (Bool.eqb (AHRSCalibrationIsLocallyUpdateFlag (comms t)) true); exact Hflag.
  - cbn [happen comms]. destruct e; exact Hflag.
Qed.

(** X8.  Nothing ever clears the settings flag: once a settings edit has
    been notified the flag stays set through everything that happens
    afterwards, and every period that runs to its end pushes the algorithm
    again. *)
Theorem settings_flag_never_cleared (l : list happening) (t : session) (p : period) :
  AHRSSettingsIsUpdatedFlag (comms t) = true ->
  outcome (streaming_period p (comms (history l t))) = Next tt ->
  AHRSSettingsIsUpdatedFlag (comms (history l t)) = true /\
  In COMMERRORS_ALGORITHM (categories (sent (streaming_period p (comms (history l t))))).
Proof.
  intros Hflag Hnext.
  assert (Hl : AHRSSettingsIsUpdatedFlag (comms (history l t)) = true).
  { clear Hnext. revert t Hflag. induction l as [| h l IH]; intros t Hflag.
    - exact Hflag.
    - cbn [history]. apply IH, happen_settings_flag, Hflag. }
  split; [exact Hl |].
  unfold categories.
  exact (in_map category_of _ _ (algorithm_pushed_when_flagged p _ Hl Hnext)).
Qed.

Lemma idle_period (p : period) (s : AHRSComms) :
  idle s -> streaming_period p s = mkRun (Next tt) s [].
Proof.
  intros ((Hhf & Hhs & Hcf & Has) & Hcs & Hsf & Hraw & Hfil).
  unfold streaming_period.
  rewrite (bind_run (reads obj_AHRSSettings) _ s s (obj_AHRSSettings s) eq_refl).
  rewrite (bind_run (update_home p) _ s s tt (update_home_skipped p s (conj Hhf Hhs))).
  rewrite (bind_run (update_calibration_if_necessary p) _ s s (obj_AhrsStatus s)
             (update_calibration_skipped p s Hcf Hcs)).
  rewrite (bind_run (update_algorithm p (obj_AHRSSettings s) (obj_AhrsStatus s)) _ s s tt
             (update_algorithm_skipped p _ _ s Hsf Has)).
  unfold grab_raw, grab_filtered. rewrite Hraw, Hfil. reflexivity.
Qed.

(** X19.  With the three domains synced, no edit pending and both the raw
    and the filtered mode switched off, a period exchanges nothing with the
    AHRS and changes nothing: the session stays STREAMING whatever the
    transport would answer, so a link that went down is not noticed. *)
Theorem idle_session_is_silent (l : list answer) (t : session) :
  state t = STREAMING ->
  idle (comms t) ->
  steps l t = t /\
  forall p : period, sent (streaming_period p (comms t)) = [].
Proof.
  intros Hstate Hidle. split.
  - induction l as [| a l IH]; [reflexivity |].
    cbn [steps]. unfold step. rewrite Hstate, idle_period by exact Hidle.
    cbn [outcome final].
    replace (mkSession STREAMING (comms t)) with t; [exact IH |].
    destruct t as [st s]. cbn in *. subst st. reflexivity.
  - intros p. rewrite idle_period by exact Hidle. reflexivity.
Qed.

End Configuration.

Lemma algorithm_block_writes_own_field_witness :
  AhrsStatus.HomeSet
    (obj_AhrsStatus
       (final
          (update_algorithm Sample.all_ok Sample.settings
             (AhrsStatus.set_CalibrationSet AHRSSTATUS_CALIBRATIONSET_TRUE Sample.status)
             (final (update_calibration_if_necessary Sample.all_ok Sample.comms0)))))
  = AhrsStatus.HomeSet
      (obj_AhrsStatus (final (update_calibration_if_necessary Sample.all_ok Sample.comms0))).
Proof.
  exact (f_equal AhrsStatus.HomeSet
           (algorithm_block_writes_own_field Sample.all_ok Sample.settings Sample.comms0
              (AhrsStatus.set_CalibrationSet AHRSSTATUS_CALIBRATIONSET_TRUE Sample.status)
              eq_refl)).
Defined.

Lemma episode_pushes_configuration_witness :
  state (step Scenario.ok Scenario.identified) = STREAMING /\
  nothing_synced (comms (step Scenario.ok Scenario.identified)).
Proof.
  destruct (episode_pushes_configuration Scenario.identified Scenario.ok Sample.all_ok)
    as (H1 & H2 & _).
  - exists Sample.comms0, [Runs Scenario.ok]. reflexivity.
  - reflexivity.
  - reflexivity.
  - reflexivity.
  - reflexivity.
  - split; [exact H1 | exact H2].
Defined.

Lemma pushed_once_witness :
  let s1 := final (streaming_period Sample.all_ok Sample.comms0) in
  let l := [Notified GPSPositionUpdated; Edited (EditGPSPosition Sample.poor_fix);
            Notified BaroAltitudeUpdated] in
  let x :=
    hd GetAttitudeRaw
       (sent (streaming_period Sample.all_ok (comms (history l (mkSession STREAMING s1))))) in
  category_of x <> COMMERRORS_HOMELOCATION.
Proof.
  intros s1 l x.
  destruct (pushed_once Sample.all_ok Sample.all_ok Sample.comms0 l x) as (H1 & _).
  - vm_compute. reflexivity.
  - repeat constructor; discriminate.
  - vm_compute. left. reflexivity.
  - intros Hc. destruct (H1 Hc) as [H | [H | [H | []]]]; discriminate.
Defined.

Lemma settings_flag_never_cleared_witness :
  In COMMERRORS_ALGORITHM
    (categories
       (sent
          (streaming_period Sample.all_ok
             (comms (history [Runs Scenario.ok] Scenario.settings_edited))))).
Proof.
  destruct (settings_flag_never_cleared [Runs Scenario.ok] Scenario.settings_edited
              Sample.all_ok) as [_ H].
  - reflexivity.
  - vm_compute. reflexivity.
  - exact H.
Defined.

Lemma idle_session_is_silent_witness :
  steps [Scenario.ok; Scenario.update_lost] (mkSession STREAMING Scenario.quiet)
  = mkSession STREAMING Scenario.quiet.
Proof.
  destruct (idle_session_is_silent [Scenario.ok; Scenario.update_lost]
              (mkSession STREAMING Scenario.quiet)) as [H _].
  - reflexivity.
  - vm_compute. repeat split; discriminate.
  - exact H.
Defined.

(** ** Samples *)

(** The resync and the serial-number query leave the inputs, the good-fix
    counter and the pending GPS sample as the failed period left them. *)
Lemma resynced_view (serial : rsp_serial.t) (s : AHRSComms) :
  let s' :=
    set_alarm_AHRSCOMMS SYSTEMALARMS_ALARM_OK
      (update_ahrs_status serial (enter_resyncing s)) in
  read_only s' = read_only s /\
  GPSGoodUpdates s' = GPSGoodUpdates s /\
  GPSPositionIsUpdatedFlag s' = GPSPositionIsUpdatedFlag s.
Proof. repeat split. Qed.

Section Samples.

Context {conversions : CoordinateConversions}.

(** X10.  With the filtered mode on, every period that gets as far sends
    one combined update, whose two [updated] fields say which samples are
    pending.  If the transport answers it, both sample flags are clear
    afterwards; if not, the period breaks and both flags are as they were,
    so the samples are sent again after the resync. *)
Theorem samples_cleared_on_success
    (p : period) (settings : AHRSSettings.Data) (s : AHRSComms) :
  AHRSSettings.UpdateFiltered settings <> 0 ->
  (exists req : req_update.t,
      sent (grab_filtered p settings s) = [SetGetUpdate req] /\
      req_update.baro_updated (req_update.barometer req)
      = (if BaroAltitudeIsUpdatedFlag s then TRUE else 0) /\
      req_update.gps_updated (req_update.gps req)
      = (if GPSPositionIsUpdatedFlag s then TRUE else 0)) /\
  if result_ok (ans_SetGetUpdate p)
  then
    outcome (grab_filtered p settings s) = Next tt /\
    BaroAltitudeIsUpdatedFlag (final (grab_filtered p settings s)) = false /\
    GPSPositionIsUpdatedFlag (final (grab_filtered p settings s)) = false
  else
    outcome (grab_filtered p settings s) = Break /\
    BaroAltitudeIsUpdatedFlag (final (grab_filtered p settings s))
    = BaroAltitudeIsUpdatedFlag s /\
    GPSPositionIsUpdatedFlag (final (grab_filtered p settings s))
    = GPSPositionIsUpdatedFlag s.
Proof.
  intros Hon. apply Z.eqb_neq in Hon.
  unfold grab_filtered. rewrite Hon. cbn [negb].
  destruct (load_update_parts p s) as (req & Hout & Hsent & Hb & Hg & Hfb & Hfg).
  rewrite bind_outcome, bind_final, bind_sent, Hout, Hsent. cbn [app].
  destruct (transfer_update_flags p req (final (load_update p s))) as [Hs Hres].
  split; [exists req; split; [exact Hs |]; split; assumption |].
  destruct (result_ok (ans_SetGetUpdate p)).
  - destruct Hres as (Ho & Hb' & Hg'). split; [exact Ho |].
    rewrite Hb', Hg', Hb, Hg, Hfb, Hfg.
    destruct (BaroAltitudeIsUpdatedFlag s), (GPSPositionIsUpdatedFlag s);
      split; reflexivity.
  - destruct Hres as (Ho & Hb' & Hg'). split; [exact Ho |].
    rewrite Hb', Hg', Hfb, Hfg. split; reflexivity.
Qed.

(** When the four exchanges before it are answered, the period ends as its
    combined update ends, which starts from what the period started
    with. *)
Lemma streaming_period_reaches_update (p : period) (s : AHRSComms) :
  reaches_update p ->
  exists s' : AHRSComms,
    same_carried s s' /\
    outcome (streaming_period p s) = outcome (grab_filtered p (obj_AHRSSettings s) s') /\
    final (streaming_period p s) = final (grab_filtered p (obj_AHRSSettings s) s').
Proof.
  intros Hreach.
  apply Forall_cons_iff in Hreach. destruct Hreach as [Hhome Hreach].
  apply Forall_cons_iff in Hreach. destruct Hreach as [Hcal Hreach].
  apply Forall_cons_iff in Hreach. destruct Hreach as [Halg Hreach].
  apply Forall_cons_iff in Hreach. destruct Hreach as [Hraw _].
  unfold streaming_period.
  rewrite bind_outcome, bind_final. cbn [reads outcome final].
  destruct (chain_next p _ _ s (update_home_chain p) Hhome) as (u1 & H1).
  pose proof (update_home_carried p s) as C1.
  rewrite bind_outcome, bind_final, H1.
  set (s1 := final (update_home p s)) in *.
  destruct (chain_next p _ _ s1 (update_calibration_chain p) Hcal) as (data & H2).
  pose proof (update_calibration_carried p s1) as C2.
  pose proof (update_calibration_returns_status p s1 data H2) as Hdata.
  rewrite bind_outcome, bind_final, H2.
  set (s2 := final (update_calibration_if_necessary p s1)) in *.
  subst data.
  destruct (chain_next p _ _ s2
              (update_algorithm_chain p (obj_AHRSSettings s) (obj_AhrsStatus s2)) Halg)
    as (u3 & H3).
  pose proof (update_algorithm_carried p (obj_AHRSSettings s) s2) as C3.
  rewrite bind_outcome, bind_final, H3.
  set (s3 := final (update_algorithm p (obj_AHRSSettings s) (obj_AhrsStatus s2) s2)) in *.
  destruct (chain_next p _ _ s3 (grab_raw_chain p (obj_AHRSSettings s)) Hraw) as (u4 & H4).
  pose proof (grab_raw_carried p (obj_AHRSSettings s) s3) as C4.
  rewrite bind_outcome, bind_final, H4.
  exists (final (grab_raw p (obj_AHRSSettings s) s3)).
  split; [| split; reflexivity].
  eapply same_carried_trans; [| exact C4].
  eapply same_carried_trans; [| exact C3].
  eapply same_carried_trans; [exact C1 | exact C2].
Qed.

(** The combined update of a pending outdoor fix that passes the gate. *)
Lemma grab_filtered_counts (p : period) (settings : AHRSSettings.Data) (s : AHRSComms) :
  AHRSSettings.UpdateFiltered settings <> 0 ->
  GPSPositionIsUpdatedFlag s = true ->
  outdoor (obj_HomeLocation s) = true ->
  gate (obj_GPSPosition s) = true ->
  counter_in_range s ->
  GPSGoodUpdates (final (grab_filtered p settings s)) = Z.min (GPSGoodUpdates s + 1) 30 /\
  if result_ok (ans_SetGetUpdate p)
  then outcome (grab_filtered p settings s) = Next tt
  else
    outcome (grab_filtered p settings s) = Break /\
    GPSPositionIsUpdatedFlag (final (grab_filtered p settings s)) = true.
Proof.
  intros Hon Hflag Hout Hgate Hc. apply Z.eqb_neq in Hon.
  unfold grab_filtered. rewrite Hon. cbn [negb].
  rewrite bind_final, bind_outcome.
  assert (Hl : GPSGoodUpdates (final (load_update p s)) = Z.min (GPSGoodUpdates s + 1) 30).
  { rewrite load_update_run. cbv zeta. rewrite Hflag. cbn [final].
    apply load_gps_position_pass; assumption. }
  destruct (load_update_parts p s) as (req & Hreq & _ & _ & _ & _ & Hfg).
  rewrite Hreq, transfer_update_counter. split; [exact Hl |].
  destruct (transfer_update_flags p req (final (load_update p s))) as [_ Hres].
  destruct (result_ok (ans_SetGetUpdate p)).
  - apply Hres.
  - destruct Hres as (Ho & _ & Hg). split; [exact Ho | congruence].
Qed.

Lemma period_counts_pending_fix (p : period) (s : AHRSComms) :
  reaches_update p ->
  AHRSSettings.UpdateFiltered (obj_AHRSSettings s) <> 0 ->
  GPSPositionIsUpdatedFlag s = true ->
  outdoor (obj_HomeLocation s) = true ->
  gate (obj_GPSPosition s) = true ->
  counter_in_range s ->
  GPSGoodUpdates (final (streaming_period p s)) = Z.min (GPSGoodUpdates s + 1) 30 /\
  if result_ok (ans_SetGetUpdate p)
  then outcome (streaming_period p s) = Next tt
  else
    outcome (streaming_period p s) = Break /\
    GPSPositionIsUpdatedFlag (final (streaming_period p s)) = true.
Proof.
  intros Hreach Hon Hflag Hout Hgate Hc.
  destruct (streaming_period_reaches_update p s Hreach) as (s' & Hcar & Ho & Hf).
  destruct (same_carried_parts _ _ Hcar) as (Hkept & Hg & _ & Hgf).
  destruct (same_kept_parts _ _ Hkept) as (Hro & _).
  destruct (read_only_parts _ _ Hro) as (_ & Hhome & Hgps).
  rewrite Ho, Hf, <- Hg. apply grab_filtered_counts; try assumption.
  - congruence.
  - rewrite Hhome. exact Hout.
  - rewrite Hgps. exact Hgate.
  - unfold counter_in_range in *. rewrite Hg. exact Hc.
Qed.

(** X11.  A good fix whose combined update is lost is counted twice.  The
    counter is incremented when the fix is loaded, before the transfer; the
    failed transfer leaves the fix pending, neither the resync nor the
    serial-number query touches the counter, and the first period of the
    next episode loads the same fix and counts it again. *)
Theorem failed_update_recounts_fix (a1 a2 a3 a4 : answer) (t : session) :
  state t = STREAMING ->
  AHRSSettings.UpdateFiltered (obj_AHRSSettings (comms t)) <> 0 ->
  GPSPositionIsUpdatedFlag (comms t) = true ->
  outdoor (obj_HomeLocation (comms t)) = true ->
  gate (obj_GPSPosition (comms t)) = true ->
  counter_in_range (comms t) ->
  reaches_update (ans_period a1) ->
  result_ok (ans_SetGetUpdate (ans_period a1)) = false ->
  result_ok (ans_resync a2) = true ->
  result_ok (ans_GetSerial a3) = true ->
  reaches_update (ans_period a4) ->
  state (step a1 t) = RESYNCING /\
  obj_GPSPosition (comms (steps [a1; a2; a3; a4] t)) = obj_GPSPosition (comms t) /\
  GPSGoodUpdates (comms (steps [a1; a2; a3; a4] t))
  = Z.min (GPSGoodUpdates (comms t) + 2) 30.
Proof.
  intros Hstate Hon Hflag Hout Hgate Hc Hr1 Hfail Hsync Hserial Hr4.
  destruct (period_counts_pending_fix (ans_period a1) (comms t) Hr1 Hon Hflag Hout Hgate Hc)
    as [Hcount Hres].
  rewrite Hfail in Hres. destruct Hres as [Hbreak Hpending].
  destruct (same_kept_parts _ _ (streaming_period_kept (ans_period a1) (comms t)))
    as (Hro & _).
  assert (E1 : step a1 t
               = mkSession RESYNCING
                   (enter_resyncing (final (streaming_period (ans_period a1) (comms t))))).
  { unfold step. rewrite Hstate, Hbreak. reflexivity. }
  assert (E3 : steps [a1; a2; a3; a4] t
               = step a4
                   (mkSession STREAMING
                      (set_alarm_AHRSCOMMS SYSTEMALARMS_ALARM_OK
                         (update_ahrs_status (rsp_GetSerial a3)
                            (enter_resyncing
                               (final (streaming_period (ans_period a1) (comms t)))))))).
  { cbn [steps]. f_equal. rewrite E1. unfold step. cbn [state comms].
    rewrite Hsync. cbn [state comms]. rewrite Hserial. reflexivity. }
  rewrite E1, E3. clear E1 E3 Hbreak.
  revert Hcount Hpending Hro.
  generalize (final (streaming_period (ans_period a1) (comms t))). intros s1 Hcount Hpending Hro.
  split; [reflexivity |].
  destruct (resynced_view (rsp_GetSerial a3) s1) as (Hro3 & Hg3 & Hf3).
  revert Hro3 Hg3 Hf3.
  generalize (set_alarm_AHRSCOMMS SYSTEMALARMS_ALARM_OK
                (update_ahrs_status (rsp_GetSerial a3) (enter_resyncing s1))).
  intros s3 Hro3 Hg3 Hf3.
  rewrite Hro in Hro3. rewrite Hcount in Hg3. rewrite Hpending in Hf3. clear Hro Hcount Hpending.
  destruct (read_only_parts _ _ Hro3) as (Hset & Hhome & Hgps).
  unfold counter_in_range in Hc.
  assert (Hc3 : counter_in_range s3).
  { unfold counter_in_range. rewrite Hg3. lia. }
  destruct (period_counts_pending_fix (ans_period a4) s3 Hr4) as [Hcount4 _];
    try assumption.
  { rewrite Hset. exact Hon. }
  { rewrite Hhome. exact Hout. }
  { rewrite Hgps. exact Hgate. }
  destruct (same_kept_parts _ _ (streaming_period_kept (ans_period a4) s3)) as (Hro4 & _).
  destruct (read_only_parts _ _ Hro4) as (_ & _ & Hgps4).
  unfold step. cbn [state comms].
  revert Hcount4 Hgps4.
  generalize (final (streaming_period (ans_period a4) s3)).
  destruct (outcome (streaming_period (ans_period a4) s3)); cbn [comms];
    intros s4 Hcount4 Hgps4.
  - split; [congruence | rewrite Hcount4, Hg3; lia].
  - split.
    + change (obj_GPSPosition (enter_resyncing s4)) with (obj_GPSPosition s4). congruence.
    + rewrite enter_resyncing_GPSGoodUpdates, Hcount4, Hg3. lia.
Qed.

Lemma load_gps_position_indoor (update : req_update.t) (s : AHRSComms) :
  outdoor (obj_HomeLocation s) = false ->
  load_gps_position update s
  = (req_update.mk (req_update.barometer update)
       (req_update.mk_gps TRUE (mkArray3 (of_int 0) (of_int 0) (of_int 0))
          (of_int 0) (of_int 0) (-1)),
     s).
Proof.
  unfold outdoor, load_gps_position. intros H. apply negb_false_iff in H.
  rewrite H. reflexivity.
Qed.

(** X12.  While home is not set or the vehicle is flagged indoor, every
    GPS sub-message is the same whatever the fix and whatever the buffer
    held: updated, zero displacement, zero ground speed and heading,
    quality -1; and the good-fix counter is neither advanced nor reset. *)
Theorem indoor_samples
    (samples : list (req_update.t * GPSPosition.Data)) (s : AHRSComms) :
  outdoor (obj_HomeLocation s) = false ->
  Forall
    (fun gps =>
       gps = req_update.mk_gps TRUE (mkArray3 (of_int 0) (of_int 0) (of_int 0))
               (of_int 0) (of_int 0) (-1))
    (fst (feed_gps samples s)) /\
  GPSGoodUpdates (snd (feed_gps samples s)) = GPSGoodUpdates s.
Proof.
  revert s. induction samples as [| [update data] rest IH]; intros s Hin.
  - split; [constructor | reflexivity].
  - cbn [feed_gps]. cbv zeta.
    rewrite (load_gps_position_indoor update (set_obj_GPSPosition data s)) by exact Hin.
    cbn [fst snd]. destruct (IH (set_obj_GPSPosition data s) Hin) as [Hall Hc].
    split; [constructor; [reflexivity | exact Hall] | exact Hc].
Qed.

(** X13.  A GPS sub-message is tagged good only outdoors with home set,
    for a fix that passes the gate, when thirty good fixes have been
    counted; it then carries the ground speed and the heading of the
    GPSPosition object, and loading it changes nothing in the module. *)
Theorem good_tag_sound (update : req_update.t) (s : AHRSComms) :
  req_update.quality (req_update.gps (fst (load_gps_position update s))) = 1 ->
  outdoor (obj_HomeLocation s) = true /\
  gate (obj_GPSPosition s) = true /\
  30 <= GPSGoodUpdates s /\
  snd (load_gps_position update s) = s /\
  req_update.groundspeed (req_update.gps (fst (load_gps_position update s)))
  = GPSPosition.Groundspeed (obj_GPSPosition s) /\
  req_update.heading (req_update.gps (fst (load_gps_position update s)))
  = GPSPosition.Heading (obj_GPSPosition s).
Proof.
  unfold outdoor, gate, load_gps_position.
  destruct ((HomeLocation.Set_ (obj_HomeLocation s) =? HOMELOCATION_SET_FALSE)
            || (HomeLocation.Indoor (obj_HomeLocation s) =? HOMELOCATION_INDOOR_TRUE));
    [cbn; discriminate |].
  destruct ((GPSPosition.Satellites (obj_GPSPosition s) >=? 7)
            && ltb (GPSPosition.PDOP (obj_GPSPosition s)) three_and_a_half);
    [| cbn; discriminate].
  destruct (GPSGoodUpdates s <? 30) eqn:Hlt; [cbn; discriminate |].
  apply Z.ltb_ge in Hlt. intros _. cbn. repeat split. exact Hlt.
Qed.

End Samples.

Lemma samples_cleared_on_success_witness :
  outcome (grab_filtered Sample.all_ok Sample.settings Sample.comms0) = Next tt /\
  GPSPositionIsUpdatedFlag (final (grab_filtered Sample.all_ok Sample.settings Sample.comms0))
  = false.
Proof.
  destruct (samples_cleared_on_success Sample.all_ok Sample.settings Sample.comms0)
    as [_ (H1 & _ & H3)].
  - discriminate.
  - split; [exact H1 | exact H3].
Defined.

Lemma failed_update_recounts_fix_witness :
  GPSGoodUpdates (comms (mkSession STREAMING Sample.comms0)) = 7 /\
  GPSGoodUpdates
    (comms
       (steps [Scenario.update_lost; Scenario.ok; Scenario.ok; Scenario.ok]
          (mkSession STREAMING Sample.comms0)))
  = Z.min (7 + 2) 30.
Proof.
  split; [reflexivity |].
  apply (failed_update_recounts_fix Scenario.update_lost Scenario.ok Scenario.ok
           Scenario.ok (mkSession STREAMING Sample.comms0)).
  - reflexivity.
  - discriminate.
  - reflexivity.
  - reflexivity.
  - reflexivity.
  - unfold counter_in_range. cbn. lia.
  - repeat constructor.
  - reflexivity.
  - reflexivity.
  - reflexivity.
  - repeat constructor.
Defined.

Lemma indoor_samples_witness :
  GPSGoodUpdates
    (snd (feed_gps [(Sample.stale_update, Sample.good_fix);
                    (Sample.stale_update, Sample.poor_fix)] Scenario.indoors))
  = GPSGoodUpdates Scenario.indoors.
Proof.
  apply (indoor_samples [(Sample.stale_update, Sample.good_fix);
                         (Sample.stale_update, Sample.poor_fix)] Scenario.indoors).
  reflexivity.
Defined.

Lemma good_tag_sound_witness :
  snd (load_gps_position Sample.stale_update Scenario.locked) = Scenario.locked.
Proof.
  apply (good_tag_sound Sample.stale_update Scenario.locked).
  reflexivity.
Defined.

(** ** Calibration written back *)

(** X14.  [update_calibration] writes the three variance vectors of the
    calibration object from the response and raises the suppression flag;
    the mode, the biases and the scales of the object, and everything else
    in the module, are as before. *)
Theorem calibration_write_back (calibration : rsp_calibration.t) (s : AHRSComms) :
  calibration_settings (obj_AHRSCalibration (update_calibration calibration s))
  = calibration_settings (obj_AHRSCalibration s) /\
  AHRSCalibration.accel_var (obj_AHRSCalibration (update_calibration calibration s))
  = rsp_calibration.accel_var calibration /\
  AHRSCalibration.gyro_var (obj_AHRSCalibration (update_calibration calibration s))
  = rsp_calibration.gyro_var calibration /\
  AHRSCalibration.mag_var (obj_AHRSCalibration (update_calibration calibration s))
  = rsp_calibration.mag_var calibration /\
  set_obj_AHRSCalibration (obj_AHRSCalibration s) (update_calibration calibration s)
  = set_AHRSCalibrationIsLocallyUpdateFlag true s.
Proof.
  unfold update_calibration. cbn. rewrite !Array3_eta. repeat split.
Qed.

(** X15.  If the AHRS answers a calibration push with the variances it was
    sent, writing the answer back leaves the calibration object exactly as
    it was: only the suppression flag is raised. *)
Theorem calibration_echo_round_trip
    (mode : measure_mode) (buffer : req_calibration.t) (s : AHRSComms) :
  update_calibration (echo_of mode (load_calibration buffer s)) s
  = set_AHRSCalibrationIsLocallyUpdateFlag true s.
Proof.
  unfold update_calibration, echo_of, load_calibration. cbn.
  rewrite !Array3_eta. unfold set_obj_AHRSCalibration, set_AHRSCalibrationIsLocallyUpdateFlag.
  cbn. f_equal. destruct (obj_AHRSCalibration s); reflexivity.
Qed.

(** ** Notifications *)

(** X16.  The four plain callbacks latch: any number of notifications of
    one object between two looks of the task leaves the module as a single
    notification does. *)
Theorem notifications_coalesce (n : nat) (cb : callback) (s : AHRSComms) :
  cb <> AHRSCalibrationUpdated ->
  notified (S n) cb s = dispatch cb s.
Proof.
  intros Hcb. induction n as [| n IH]; [reflexivity |].
  change (notified (S (S n)) cb s) with (dispatch cb (notified (S n) cb s)).
  rewrite IH. destruct cb; try reflexivity. contradiction Hcb; reflexivity.
Qed.

Lemma notifications_coalesce_witness :
  notified 3 GPSPositionUpdated Sample.comms0 = GPSPositionUpdatedCb Sample.comms0.
Proof.
  apply (notifications_coalesce 2 GPSPositionUpdated Sample.comms0).
  discriminate.
Defined.

(** X17.  The suppression flag swallows one notification of the
    calibration object and no more: after two or more notifications in a
    row the calibration is marked dirty and the suppression flag is clear,
    whatever the flags were. *)
Theorem suppression_swallows_one (n : nat) (s : AHRSComms) :
  AHRSCalibrationIsUpdatedFlag (notified (S (S n)) AHRSCalibrationUpdated s) = true /\
  AHRSCalibrationIsLocallyUpdateFlag (notified (S (S n)) AHRSCalibrationUpdated s) = false.
Proof.
  change (notified (S (S n)) AHRSCalibrationUpdated s)
    with (AHRSCalibrationUpdatedCb
            (AHRSCalibrationUpdatedCb (notified n AHRSCalibrationUpdated s))).
  generalize (notified n AHRSCalibrationUpdated s). intros s0.
  assert (Hclear : AHRSCalibrationIsLocallyUpdateFlag (AHRSCalibrationUpdatedCb s0) = false).
  { destruct (AHRSCalibrationIsLocallyUpdateFlag s0) eqn:Hs0.
    - apply AHRSCalibrationUpdatedCb_suppressed, Hs0.
    - apply AHRSCalibrationUpdatedCb_dirty, Hs0. }
  destruct (AHRSCalibrationUpdatedCb_dirty _ Hclear) as [Hl Hd].
  split; assumption.
Qed.

(** ** Telemetry *)

Section Telemetry.

Context {conversions : CoordinateConversions}.

(** X23.  Storing the raw sensor data puts the six groups of readings of
    the response into the AttitudeRaw object and writes nothing else.
    Processing an update puts the quaternion of the response into the
    AttitudeActual object, its position and velocity into the
    PositionActual object and its four load figures into the AhrsStatus
    object, and writes nothing else; in the status object it leaves the
    serial number, the error counts and the three "synced" fields
    alone. *)
Theorem telemetry_writes_outputs_only
    (attituderaw : rsp_attituderaw.t) (update : rsp_update.t) (s : AHRSComms) :
  let raw := obj_AttitudeRaw (update_attitude_raw attituderaw s) in
  let s' := process_update update s in
  (AttitudeRaw.magnetometers raw
   = mkArray3 (rsp_attituderaw.x (rsp_attituderaw.mags attituderaw))
              (rsp_attituderaw.y (rsp_attituderaw.mags attituderaw))
              (rsp_attituderaw.z (rsp_attituderaw.mags attituderaw)) /\
   AttitudeRaw.gyros raw
   = mkArray3 (rsp_attituderaw.gx (rsp_attituderaw.gyros attituderaw))
              (rsp_attituderaw.gy (rsp_attituderaw.gyros attituderaw))
              (rsp_attituderaw.gz (rsp_attituderaw.gyros attituderaw)) /\
   AttitudeRaw.gyros_filtered raw
   = mkArray3 (rsp_attituderaw.fx (rsp_attituderaw.gyros_filtered attituderaw))
              (rsp_attituderaw.fy (rsp_attituderaw.gyros_filtered attituderaw))
              (rsp_attituderaw.fz (rsp_attituderaw.gyros_filtered attituderaw)) /\
   AttitudeRaw.gyrotemp raw
   = (rsp_attituderaw.xy_temp (rsp_attituderaw.gyros attituderaw),
      rsp_attituderaw.z_temp (rsp_attituderaw.gyros attituderaw)) /\
   AttitudeRaw.accels raw
   = mkArray3 (rsp_attituderaw.x (rsp_attituderaw.accels attituderaw))
              (rsp_attituderaw.y (rsp_attituderaw.accels attituderaw))
              (rsp_attituderaw.z (rsp_attituderaw.accels attituderaw)) /\
   AttitudeRaw.accels_filtered raw
   = mkArray3 (rsp_attituderaw.fx (rsp_attituderaw.accels_filtered attituderaw))
              (rsp_attituderaw.fy (rsp_attituderaw.accels_filtered attituderaw))
              (rsp_attituderaw.fz (rsp_attituderaw.accels_filtered attituderaw))) /\
  set_obj_AttitudeRaw (obj_AttitudeRaw s) (update_attitude_raw attituderaw s) = s /\
  (AttitudeActual.q1 (obj_AttitudeActual s') = rsp_update.q1 (rsp_update.quaternion update) /\
   AttitudeActual.q2 (obj_AttitudeActual s') = rsp_update.q2 (rsp_update.quaternion update) /\
   AttitudeActual.q3 (obj_AttitudeActual s') = rsp_update.q3 (rsp_update.quaternion update) /\
   AttitudeActual.q4 (obj_AttitudeActual s') = rsp_update.q4 (rsp_update.quaternion update) /\
   PositionActual.NED (obj_PositionActual s') = rsp_update.NED update /\
   PositionActual.Vel (obj_PositionActual s') = rsp_update.Vel update /\
   AhrsStatus.CPULoad (obj_AhrsStatus s') = rsp_update.load update /\
   AhrsStatus.IdleTimePerCyle (obj_AhrsStatus s') = rsp_update.idle_time update /\
   AhrsStatus.RunningTimePerCyle (obj_AhrsStatus s') = rsp_update.run_time update /\
   AhrsStatus.DroppedUpdates (obj_AhrsStatus s') = rsp_update.dropped_updates update) /\
  set_obj_AttitudeActual (obj_AttitudeActual s)
    (set_obj_PositionActual (obj_PositionActual s)
       (set_obj_AhrsStatus (obj_AhrsStatus s) s'))
  = s /\
  published s' = published s /\
  AhrsStatus.HomeSet (obj_AhrsStatus s') = AhrsStatus.HomeSet (obj_AhrsStatus s) /\
  AhrsStatus.CalibrationSet (obj_AhrsStatus s')
  = AhrsStatus.CalibrationSet (obj_AhrsStatus s) /\
  AhrsStatus.AlgorithmSet (obj_AhrsStatus s') = AhrsStatus.AlgorithmSet (obj_AhrsStatus s).
Proof.
  cbv zeta. split; [repeat split |]. split; [destruct s; reflexivity |].
  split.
  { unfold process_update. cbn. rewrite !Array3_eta. repeat split. }
  split; [destruct s; reflexivity |]. repeat split.
Qed.

End Telemetry.
